(** * Bubble AI: the autonomous agent's routing loop and the chat hook

    A shallow embedding of
    - [src/agents/autonomous/handler.ts] ([runAutonomousAgent]: the routing
      loop, the action executors and the tag detection of the SIMPLE
      handler), and
    - the chat hook [useChat] ([fetchMessages], [handleSendMessage]: the
      optimistic message list, its reconciliation with persistence and the
      send-in-progress latch),
    followed by the properties the specification states about them. *)

From Stdlib Require Import List NArith Bool String Ascii Arith Lia DecimalString
  DecimalN.
Import ListNotations.


(* ================================================================== *)
(** ** JavaScript strings and the regular expressions of the handler *)
(* ================================================================== *)

Module JS.

(** A JavaScript string is a sequence of UTF-16 code units. *)
Definition jsstring := list N.

(** An ASCII literal as a JavaScript string. *)
Definition js (s : string) : jsstring :=
  map N_of_ascii (list_ascii_of_string s).

(** The line feed, written [\n] in the source. *)
Definition nl : jsstring := [10%N].

(** [if (s)] on a string: the empty string is falsy. *)
Definition truthy (s : jsstring) : bool :=
  match s with [] => false | _ :: _ => true end.

(** LineTerminator: the code units the regular expression atom [.] (without
    the [s] flag) refuses. *)
Definition isLineTerminator (c : N) : bool :=
  ((c =? 10) || (c =? 13) || (c =? 8232) || (c =? 8233))%N.

(** WhiteSpace and LineTerminator: what [\s] matches and [trim] strips. *)
Definition isWhiteSpace (c : N) : bool :=
  (((9 <=? c) && (c <=? 13)) || (c =? 32) || (c =? 160) || (c =? 5760)
   || ((8192 <=? c) && (c <=? 8202)) || (c =? 8232) || (c =? 8233)
   || (c =? 8239) || (c =? 8287) || (c =? 12288) || (c =? 65279))%N.

Fixpoint trimStart (s : jsstring) : jsstring :=
  match s with
  | c :: s' => if isWhiteSpace c then trimStart s' else s
  | [] => []
  end.

Definition trimEnd (s : jsstring) : jsstring := rev (trimStart (rev s)).

(** [String.prototype.trim]. *)
Definition trim (s : jsstring) : jsstring := trimEnd (trimStart s).

(** Canonicalize of a regular expression with the [i] flag and without the
    [u] flag, as far as the comparison with an ASCII pattern character needs
    it: an ASCII letter goes to its upper case; a code unit outside ASCII
    never canonicalizes to an ASCII one, so it is left as it is. *)
Definition canonicalize (c : N) : N :=
  if ((97 <=? c) && (c <=? 122))%N then (c - 32)%N else c.

(** One pattern character against one code unit; [ci] is the [i] flag. *)
Definition ceq (ci : bool) (p c : N) : bool :=
  if ci then (canonicalize p =? canonicalize c)%N else (p =? c)%N.

(** A literal pattern at the front of [s]: the rest of [s] after it. *)
Fixpoint literal (ci : bool) (p s : jsstring) : option jsstring :=
  match p with
  | [] => Some s
  | a :: p' =>
      match s with
      | b :: s' => if ceq ci a b then literal ci p' s' else None
      | [] => None
      end
  end.

(** [(.*?)close] at the front of [s]: the capture group. The lazy star takes
    the shortest run of code units, none a line terminator, that is followed
    by [close]. *)
Fixpoint lazyDotThen (ci : bool) (close s : jsstring) : option jsstring :=
  match literal ci close s with
  | Some _ => Some []
  | None =>
      match s with
      | c :: s' =>
          if isLineTerminator c then None
          else option_map (cons c) (lazyDotThen ci close s')
      | [] => None
      end
  end.

(** [\s*] followed by [k]: the greedy star takes every white space it can
    and gives them back one at a time when [k] fails. *)
Fixpoint spacesThen {A} (k : jsstring -> option A) (s : jsstring) : option A :=
  match s with
  | c :: s' =>
      if isWhiteSpace c then
        match spacesThen k s' with
        | Some r => Some r
        | None => k s
        end
      else k s
  | [] => k s
  end.

(** [\s+] followed by [k]. *)
Definition spacesPlusThen {A} (k : jsstring -> option A) (s : jsstring)
  : option A :=
  match s with
  | c :: s' => if isWhiteSpace c then spacesThen k s' else None
  | [] => None
  end.

(** [String.prototype.match] with a pattern that has no [g] flag: the match
    at the leftmost position where the pattern [m] matches. *)
Fixpoint firstMatch {A} (m : jsstring -> option A) (s : jsstring) : option A :=
  match m s with
  | Some r => Some r
  | None =>
      match s with
      | _ :: s' => firstMatch m s'
      | [] => None
      end
  end.

(** [s.match(/<NAME>(.*?)<\/NAME>/)]: group 1 of the match. *)
Definition tagAt (ci : bool) (open close : jsstring) (s : jsstring)
  : option jsstring :=
  match literal ci open s with
  | Some r => lazyDotThen ci close r
  | None => None
  end.

Definition matchTag (open close : jsstring) (s : jsstring) : option jsstring :=
  firstMatch (tagAt false open close) s.

(** [s.match(/<SEARCH>deep\s+(.*?)<\/SEARCH>/i)]: group 1 of the match. *)
Definition deepCueAt (s : jsstring) : option jsstring :=
  match literal true (js "<SEARCH>deep") s with
  | Some r => spacesPlusThen (lazyDotThen true (js "</SEARCH>")) r
  | None => None
  end.

Definition matchDeepCue (s : jsstring) : option jsstring :=
  firstMatch deepCueAt s.

(** [s.match(/<THINK>/)]: a match without a group. *)
Definition matchBare (open : jsstring) (s : jsstring) : option unit :=
  firstMatch (fun s => match literal false open s with
                       | Some _ => Some tt
                       | None => None
                       end) s.

(** [a || b] on two match results. *)
Definition orElse {A} (a b : option A) : option A :=
  match a with Some _ => a | None => b end.

(** [s.includes(p)], with the comparison of [ceq]. *)
Fixpoint includes (ci : bool) (p s : jsstring) : bool :=
  match literal ci p s with
  | Some _ => true
  | None =>
      match s with
      | _ :: s' => includes ci p s'
      | [] => false
      end
  end.


Definition noLineTerminator (s : jsstring) : bool :=
  forallb (fun c => negb (isLineTerminator c)) s.

Definition allWhiteSpace (s : jsstring) : bool := forallb isWhiteSpace s.

(** Whether [s] begins with a white space. *)
Definition headIsSpace (s : jsstring) : bool :=
  match s with c :: _ => isWhiteSpace c | [] => false end.

End JS.
Export JS.

(* ================================================================== *)
(** ** The actions and the tag detection of the SIMPLE handler *)
(* ================================================================== *)

(** [RouterAction]; a value outside the seven named cases takes the
    [default] branch of the switch, which is the SIMPLE one. *)
Inductive RouterAction : Type :=
  | SIMPLE | SEARCH | DEEP_SEARCH | THINK | IMAGE | PROJECT | CANVAS | STUDY.

Definition searchMatch (g : jsstring) : option jsstring :=
  matchTag (js "<SEARCH>") (js "</SEARCH>") g.

Definition deepMatch (g : jsstring) : option jsstring :=
  orElse (matchTag (js "<DEEP>") (js "</DEEP>") g) (matchDeepCue g).

(** [thinkMatch]: [Some (Some p)] when the closed form matched with group
    [p], [Some None] when only the bare opening tag matched (group 1 is
    undefined). *)
Definition thinkMatch (g : jsstring) : option (option jsstring) :=
  orElse (option_map Some (matchTag (js "<THINK>") (js "</THINK>") g))
         (option_map (fun _ => None) (matchBare (js "<THINK>") g)).

Definition imageMatch (g : jsstring) : option jsstring :=
  matchTag (js "<IMAGE>") (js "</IMAGE>") g.
Definition projectMatch (g : jsstring) : option jsstring :=
  matchTag (js "<PROJECT>") (js "</PROJECT>") g.
Definition canvasMatch (g : jsstring) : option jsstring :=
  matchTag (js "<CANVAS>") (js "</CANVAS>") g.
Definition studyMatch (g : jsstring) : option jsstring :=
  matchTag (js "<STUDY>") (js "</STUDY>") g.

(** [thinkMatch[1] ? thinkMatch[1].trim() : prompt]. *)
Definition thinkPayload (m : option jsstring) (prompt : jsstring) : jsstring :=
  match m with
  | Some p => if truthy p then trim p else prompt
  | None => prompt
  end.

(** The chain of [if (xMatch) { currentAction = ...; currentPrompt = ...;
    continue; }] after the stream of the SIMPLE handler: the action and the
    prompt of the re-route, or [None] when no tag was found. [g] is
    [generatedThisLoop], [prompt] the prompt of the turn. *)
Definition tagDetection (g prompt : jsstring)
  : option (RouterAction * jsstring) :=
  match deepMatch g with
  | Some p => Some (DEEP_SEARCH, p)
  | None =>
  match searchMatch g with
  | Some p => Some (SEARCH, p)
  | None =>
  match thinkMatch g with
  | Some m => Some (THINK, thinkPayload m prompt)
  | None =>
  match imageMatch g with
  | Some p => Some (IMAGE, p)
  | None =>
  match projectMatch g with
  | Some p => Some (PROJECT, p)
  | None =>
  match canvasMatch g with
  | Some p => Some (CANVAS, p)
  | None =>
  match studyMatch g with
  | Some p => Some (STUDY, p)
  | None => None
  end end end end end end end.


(* ================================================================== *)
(** ** The autonomous agent: data *)
(* ================================================================== *)

(** What a [throw] carries: an [Error] with its message, a string, or some
    other value (with its [message] property when it has a truthy one, and
    with what [JSON.stringify] makes of it when that succeeds). *)
Inductive Thrown : Type :=
  | ThrownError (message : jsstring)
  | ThrownString (s : jsstring)
  | ThrownValue (message : option jsstring) (json : option jsstring).

(** A call that returns or throws. *)
Inductive Result (A : Type) : Type :=
  | Ok (a : A)
  | Err (e : Thrown).
Arguments Ok {A} a.
Arguments Err {A} e.

(** One chunk of a generation stream: [chunk.text] and
    [chunk.candidates?.[0]?.groundingMetadata?.groundingChunks]. *)
Record Chunk : Type := {
  chunk_text : option jsstring;
  chunk_grounding : option (list N)
}.

(** A generation stream as the [for await] loop sees it: the chunks it
    delivers, then the failure that ends it, if any. A call that throws
    before the first chunk is a stream with no chunk and a failure. *)
Record Stream : Type := {
  chunks : list Chunk;
  failure : option Thrown
}.

Record MemoryDirective : Type := {
  layer : jsstring;
  key : jsstring;
  value : jsstring
}.

(** [metadataPayload]. *)
Record Metadata : Type := {
  groundingMetadata : option (list N);
  memoryToCreate : option (list MemoryDirective)
}.

Inductive Sender : Type := user | ai.

(** A message of an [AgentExecutionResult]. *)
Record AgentMessage : Type := {
  am_project_id : jsstring;
  am_chat_id : jsstring;
  am_sender : Sender;
  am_text : jsstring;
  am_image_base64 : option jsstring;
  am_imageStatus : option jsstring;
  am_metadata : Metadata
}.

Record UpdatedPlan : Type := {
  messageId : jsstring;
  plan : jsstring
}.

Record AgentExecutionResult : Type := {
  messages : list AgentMessage;
  updatedPlan : option UpdatedPlan
}.

(** An attached file: its MIME type and what reading it as a data URL
    gives. *)
Record FileInput : Type := {
  file_type : jsstring;
  file_read : Result jsstring
}.

(** The fields of [AgentInput] the turn controller itself reads; the history,
    the profile and the keys only travel to the collaborators. *)
Record AgentInput : Type := {
  prompt : jsstring;
  files : list FileInput;
  project_id : jsstring;
  chat_id : jsstring
}.

(** [routing]: the classifier's answer. *)
Record Routing : Type := {
  action : RouterAction;
  parameters_prompt : option jsstring
}.

Record Research : Type := {
  answer : jsstring;
  sources : list jsstring
}.

(** The collaborators of one turn, each with the answer it gives in this
    turn: the classifier, the memory service, the generation backend (by the
    executor that calls it and the prompt it is called with), the research
    service (its progress messages, then its result), the usage counter, the
    image backend, [JSON.stringify] of the image-start event and
    [getUserFriendlyError]. *)
Record Collaborators : Type := {
  route : Result Routing;
  getContext : Result unit;
  generateContentStream : RouterAction -> jsstring -> Stream;
  generateContent : jsstring -> Result jsstring;
  deepResearch : jsstring -> list jsstring * Result Research;
  incrementThinkingCount : Result unit;
  generateImage : jsstring -> Result jsstring;
  imageStartEvent : jsstring -> jsstring;
  getUserFriendlyError : Thrown -> jsstring
}.

(** The variables of [runAutonomousAgent] that live across loop iterations,
    and [streamed]: what was handed to [onStreamChunk], oldest first. *)
Record TurnState : Type := {
  finalResponseText : jsstring;
  metadataPayload : Metadata;
  currentAction : RouterAction;
  currentPrompt : jsstring;
  loopCount : nat;
  routingParameters : option jsstring;
  streamed : list jsstring
}.

Definition MAX_LOOPS : nat := 2.

(* ------------------------------------------------------------------ *)
(** *** Assignments *)

Definition appendText (t : jsstring) (st : TurnState) : TurnState :=
  {| finalResponseText := finalResponseText st ++ t;
     metadataPayload := metadataPayload st;
     currentAction := currentAction st;
     currentPrompt := currentPrompt st;
     loopCount := loopCount st;
     routingParameters := routingParameters st;
     streamed := streamed st |}.

(** [onStreamChunk?.(c)]. *)
Definition emit (c : jsstring) (st : TurnState) : TurnState :=
  {| finalResponseText := finalResponseText st;
     metadataPayload := metadataPayload st;
     currentAction := currentAction st;
     currentPrompt := currentPrompt st;
     loopCount := loopCount st;
     routingParameters := routingParameters st;
     streamed := streamed st ++ [c] |}.

Definition setMetadata (m : Metadata) (st : TurnState) : TurnState :=
  {| finalResponseText := finalResponseText st;
     metadataPayload := m;
     currentAction := currentAction st;
     currentPrompt := currentPrompt st;
     loopCount := loopCount st;
     routingParameters := routingParameters st;
     streamed := streamed st |}.

(** [loopCount++]. *)
Definition incrLoopCount (st : TurnState) : TurnState :=
  {| finalResponseText := finalResponseText st;
     metadataPayload := metadataPayload st;
     currentAction := currentAction st;
     currentPrompt := currentPrompt st;
     loopCount := S (loopCount st);
     routingParameters := routingParameters st;
     streamed := streamed st |}.

(** [currentAction = a; currentPrompt = p;] and, for the image tag,
    [routing.parameters = { prompt: p }]. *)
Definition reroute (a : RouterAction) (p : jsstring) (st : TurnState)
  : TurnState :=
  {| finalResponseText := finalResponseText st;
     metadataPayload := metadataPayload st;
     currentAction := a;
     currentPrompt := p;
     loopCount := loopCount st;
     routingParameters :=
       match a with IMAGE => Some p | _ => routingParameters st end;
     streamed := streamed st |}.

(** [if (!metadataPayload.groundingMetadata) metadataPayload.groundingMetadata
    = []; metadataPayload.groundingMetadata.push(...gs)]. *)
Definition pushGrounding (gs : list N) (st : TurnState) : TurnState :=
  setMetadata
    {| groundingMetadata :=
         Some (match groundingMetadata (metadataPayload st) with
               | Some l => l
               | None => []
               end ++ gs);
       memoryToCreate := memoryToCreate (metadataPayload st) |} st.

(** [metadataPayload.memoryToCreate = [{ layer: 'outer_personal', key:
    'last_topic', value: prompt }]]. *)
Definition proposeMemory (p : jsstring) (st : TurnState) : TurnState :=
  setMetadata
    {| groundingMetadata := groundingMetadata (metadataPayload st);
       memoryToCreate :=
         Some [ {| layer := js "outer_personal";
                   key := js "last_topic";
                   value := p |} ] |} st.

(** [finalResponseText += t; onStreamChunk?.(t)]. *)
Definition streamText (t : jsstring) (st : TurnState) : TurnState :=
  emit t (appendText t st).

(** [chunk.text] when it is truthy. *)
Definition chunkText (c : Chunk) : option jsstring :=
  match chunk_text c with
  | Some t => if truthy t then Some t else None
  | None => None
  end.

(** The loop body of the THINK, CANVAS and STUDY streams. *)
Definition plainChunk (st : TurnState) (c : Chunk) : TurnState :=
  match chunkText c with
  | Some t => streamText t st
  | None => st
  end.

(** The loop body of the SEARCH stream: the grounding chunks are collected
    whether or not the chunk has text. *)
Definition searchChunk (st : TurnState) (c : Chunk) : TurnState :=
  let st1 := plainChunk st c in
  match chunk_grounding c with
  | Some gs => pushGrounding gs st1
  | None => st1
  end.

(** The loop body of the SIMPLE stream, on [generatedThisLoop] and the
    state: the grounding chunks are collected only with a chunk that has
    text. *)
Definition simpleChunk (acc : jsstring * TurnState) (c : Chunk)
  : jsstring * TurnState :=
  match chunkText c with
  | Some t =>
      let st1 := streamText t (snd acc) in
      (fst acc ++ t,
       match chunk_grounding c with
       | Some gs => pushGrounding gs st1
       | None => st1
       end)
  | None => acc
  end.

(** [a.join(sep)]. *)
Fixpoint join (sep : jsstring) (l : list jsstring) : jsstring :=
  match l with
  | [] => []
  | [x] => x
  | x :: l' => x ++ sep ++ join sep l'
  end.

(** The first attached file that cannot be read, if any: the [await] of its
    promise throws. *)
Fixpoint readFiles (fs : list FileInput) : option Thrown :=
  match fs with
  | [] => None
  | f :: fs' =>
      match file_read f with
      | Err e => Some e
      | Ok _ => readFiles fs'
      end
  end.

(* ================================================================== *)
(** ** The autonomous agent: executors and routing loop *)
(* ================================================================== *)

(** How one pass through the [switch] ends: a [return] of the result
    message, a [continue], or an exception on its way to the [catch] of
    [runAutonomousAgent]. Each carries the state at that point. *)
Inductive Outcome : Type :=
  | Return (m : AgentMessage) (st : TurnState)
  | Continue (st : TurnState)
  | Throw (e : Thrown) (st : TurnState).

Definition stateOf (o : Outcome) : TurnState :=
  match o with
  | Return _ st => st
  | Continue st => st
  | Throw _ st => st
  end.

Section Executors.

Variable C : Collaborators.
Variable input : AgentInput.

(** [{ project_id: project.id, chat_id: chat.id, sender: 'ai', text:
    finalResponseText, ...metadataPayload }]. *)
Definition resultMessage (st : TurnState) : AgentMessage :=
  {| am_project_id := project_id input;
     am_chat_id := chat_id input;
     am_sender := ai;
     am_text := finalResponseText st;
     am_image_base64 := None;
     am_imageStatus := None;
     am_metadata := metadataPayload st |}.

Definition finish (st : TurnState) : Outcome := Return (resultMessage st) st.

(** The end of a [for await] loop: the failure of the stream is thrown,
    otherwise the executor returns the result message. *)
Definition afterStream (s : Stream) (st : TurnState) : Outcome :=
  match failure s with
  | Some e => Throw e st
  | None => finish st
  end.

Definition executeSEARCH (st : TurnState) : Outcome :=
  let st1 := emit (nl ++ nl ++ js "Searching the web...") st in
  let s := generateContentStream C SEARCH (currentPrompt st1) in
  afterStream s (fold_left searchChunk (chunks s) st1).

Definition executeDEEP_SEARCH (st : TurnState) : Outcome :=
  let st1 := emit (nl ++ nl ++ js "Deep Researching...") st in
  let (progress, result) := deepResearch C (currentPrompt st1) in
  let st2 :=
    fold_left (fun s msg => emit (nl ++ js "*" ++ msg ++ js "*") s)
              progress st1 in
  match result with
  | Err e => Throw e st2
  | Ok r =>
      let researchText :=
        answer r ++ nl ++ nl ++ js "**Sources:**" ++ nl
        ++ join nl (sources r) in
      finish (emit researchText (appendText (nl ++ nl ++ researchText) st2))
  end.

Definition executeTHINK (st : TurnState) : Outcome :=
  let st1 := emit (nl ++ nl ++ js "Thinking...") st in
  match incrementThinkingCount C with
  | Err e => Throw e st1
  | Ok _ =>
      let s := generateContentStream C THINK (currentPrompt st1) in
      afterStream s (fold_left plainChunk (chunks s) st1)
  end.

(** The IMAGE executor has a [try] of its own around [generateImage]: a
    failure is written into the text and the executor still returns. *)
Definition executeIMAGE (st : TurnState) : Outcome :=
  let st1 := emit (imageStartEvent C (finalResponseText st)) st in
  let imagePrompt :=
    match routingParameters st1 with
    | Some p => if truthy p then p else currentPrompt st1
    | None => currentPrompt st1
    end in
  match generateImage C imagePrompt with
  | Ok imageBase64 =>
      Return {| am_project_id := project_id input;
                am_chat_id := chat_id input;
                am_sender := ai;
                am_text := finalResponseText st1;
                am_image_base64 := Some imageBase64;
                am_imageStatus := Some (js "complete");
                am_metadata := metadataPayload st1 |} st1
  | Err e =>
      let errorMsg :=
        nl ++ nl ++ js "(Image generation failed: "
        ++ match e with
           | ThrownError m => m
           | _ => js "Unknown error"
           end
        ++ js ")" in
      finish (streamText errorMsg st1)
  end.

Definition executeCANVAS (st : TurnState) : Outcome :=
  let s := generateContentStream C CANVAS (currentPrompt st) in
  afterStream s (fold_left plainChunk (chunks s) st).

Definition executePROJECT (st : TurnState) : Outcome :=
  let st1 := emit (nl ++ nl ++ js "Building project structure...") st in
  match generateContent C (currentPrompt st1) with
  | Err e => Throw e st1
  | Ok responseText =>
      let projectMsg :=
        nl ++ js "I've designed the project structure based on your request."
        ++ nl ++ nl ++ responseText ++ nl ++ nl
        ++ js "(Switch to Co-Creator mode to fully hydrate and edit these files.)"
      in
      finish (streamText projectMsg st1)
  end.

Definition executeSTUDY (st : TurnState) : Outcome :=
  let st1 := emit (nl ++ nl ++ js "Creating study plan...") st in
  let s := generateContentStream C STUDY (currentPrompt st1) in
  afterStream s (fold_left plainChunk (chunks s) st1).

(** The SIMPLE (and [default]) executor: read the attached files, stream the
    answer, then look for a tag in what this iteration generated. *)
Definition executeSIMPLE (st : TurnState) : Outcome :=
  match readFiles (files input) with
  | Some e => Throw e st
  | None =>
      let s := generateContentStream C SIMPLE (currentPrompt st) in
      let (generatedThisLoop, st1) :=
        fold_left simpleChunk (chunks s) ([], st) in
      match failure s with
      | Some e => Throw e st1
      | None =>
          match tagDetection generatedThisLoop (prompt input) with
          | Some (a, p) => Continue (reroute a p st1)
          | None =>
              finish (if 50 <? List.length generatedThisLoop
                      then proposeMemory (prompt input) st1
                      else st1)
          end
      end
  end.

(** [switch (currentAction)]. *)
Definition execute (st : TurnState) : Outcome :=
  match currentAction st with
  | SEARCH => executeSEARCH st
  | DEEP_SEARCH => executeDEEP_SEARCH st
  | THINK => executeTHINK st
  | IMAGE => executeIMAGE st
  | CANVAS => executeCANVAS st
  | PROJECT => executePROJECT st
  | STUDY => executeSTUDY st
  | SIMPLE => executeSIMPLE st
  end.

End Executors.

(** How a turn ends: an executor returned its message; the loop ran out
    ([loopCount] reached [MAX_LOOPS]) with the state it had then; or an
    exception reached the [catch]. *)
Inductive Ending : Type :=
  | Returned (m : AgentMessage)
  | Exhausted (st : TurnState)
  | Caught (e : Thrown).

(** A turn: the executor invocations in order, each with the state the
    executor was entered with and how it ended, and the ending of the
    turn. *)
Record Run : Type := {
  invocations : list (TurnState * Outcome);
  ending : Ending
}.

Section RoutingLoop.

(** The body of the loop, for any executor. *)
Variable exec : TurnState -> Outcome.

(** [while (loopCount < MAX_LOOPS) { loopCount++; switch ... }]. [fuel]
    bounds the iterations of the model; [None] means it was too small. *)
Fixpoint whileLoop (fuel : nat) (st : TurnState) : option Run :=
  if loopCount st <? MAX_LOOPS then
    match fuel with
    | O => None
    | S fuel' =>
        let st1 := incrLoopCount st in
        match exec st1 with
        | Return m st2 =>
            Some {| invocations := [(st1, Return m st2)];
                    ending := Returned m |}
        | Throw e st2 =>
            Some {| invocations := [(st1, Throw e st2)];
                    ending := Caught e |}
        | Continue st2 =>
            match whileLoop fuel' st2 with
            | Some r =>
                Some {| invocations := (st1, Continue st2) :: invocations r;
                        ending := ending r |}
            | None => None
            end
        end
    end
  else Some {| invocations := []; ending := Exhausted st |}.

End RoutingLoop.

Section Agent.

Variable C : Collaborators.
Variable input : AgentInput.

(** The state at the head of the loop. *)
Definition initialState (routing : Routing) : TurnState :=
  {| finalResponseText := [];
     metadataPayload := {| groundingMetadata := None;
                           memoryToCreate := None |};
     currentAction := action routing;
     currentPrompt := prompt input;
     loopCount := 0;
     routingParameters := parameters_prompt routing;
     streamed := [] |}.

(** The body of the [try]: classify, gather the memory context, loop. *)
Definition turn (fuel : nat) : option Run :=
  match route C with
  | Err e => Some {| invocations := []; ending := Caught e |}
  | Ok routing =>
      match getContext C with
      | Err e => Some {| invocations := []; ending := Caught e |}
      | Ok _ => whileLoop (execute C input) fuel (initialState routing)
      end
  end.

(** The message of the [catch] block. *)
Definition errorMessage (e : Thrown) : AgentMessage :=
  {| am_project_id := project_id input;
     am_chat_id := chat_id input;
     am_sender := ai;
     am_text := js "An error occurred: " ++ getUserFriendlyError C e;
     am_image_base64 := None;
     am_imageStatus := None;
     am_metadata := {| groundingMetadata := None; memoryToCreate := None |} |}.

(** What [runAutonomousAgent] returns for each ending. *)
Definition resultOf (r : Run) : AgentExecutionResult :=
  {| messages :=
       [ match ending r with
         | Returned m => m
         | Exhausted st => resultMessage input st
         | Caught e => errorMessage e
         end ];
     updatedPlan := None |}.

Definition runAutonomousAgent : option AgentExecutionResult :=
  option_map resultOf (turn MAX_LOOPS).

End Agent.

(* ================================================================== *)
(** ** The chat hook: messages, history refetch, sending *)
(* ================================================================== *)

(** [a === b] on strings. *)
Fixpoint jseq (a b : jsstring) : bool :=
  match a, b with
  | [], [] => true
  | x :: a', y :: b' => (x =? y)%N && jseq a' b'
  | _, _ => false
  end.

(** A number in a template literal: its decimal digits. *)
Definition decimal (n : N) : jsstring :=
  js (NilEmpty.string_of_uint (N.to_uint n)).

(** [Message]: the fields the hook reads or writes; the [user_id] and the
    [created_at] stamp only travel to the persistence layer. The record
    handed to [addMessage] has no id yet: its [msg_id] is empty. *)
Record Message : Type := {
  msg_id : jsstring;
  msg_project_id : jsstring;
  msg_chat_id : jsstring;
  msg_sender : Sender;
  msg_text : jsstring;
  msg_image_base64 : option jsstring;
  msg_imageStatus : option jsstring;
  msg_plan : option jsstring;
  msg_metadata : Metadata
}.

Definition noMetadata : Metadata :=
  {| groundingMetadata := None; memoryToCreate := None |}.

(** [ChatWithProjectData], as far as the hook reads it. *)
Record Chat : Type := {
  c_id : jsstring;
  c_project_id : jsstring
}.

(** The state of the hook: the [isSendingRef] latch, the [messages] and
    [isLoading] states, the toasts shown so far (text and kind, oldest
    first), and how many [setTimeout] callbacks that release the latch are
    scheduled and have not run yet. *)
Record Hook : Type := {
  isSendingRef : bool;
  hook_messages : list Message;
  isLoading : bool;
  toasts : list (jsstring * jsstring);
  releaseTimers : nat
}.

Definition setSending (b : bool) (h : Hook) : Hook :=
  {| isSendingRef := b;
     hook_messages := hook_messages h;
     isLoading := isLoading h;
     toasts := toasts h;
     releaseTimers := releaseTimers h |}.

(** [setMessages(prev => f prev)]. *)
Definition setMessages (f : list Message -> list Message) (h : Hook) : Hook :=
  {| isSendingRef := isSendingRef h;
     hook_messages := f (hook_messages h);
     isLoading := isLoading h;
     toasts := toasts h;
     releaseTimers := releaseTimers h |}.

Definition setIsLoading (b : bool) (h : Hook) : Hook :=
  {| isSendingRef := isSendingRef h;
     hook_messages := hook_messages h;
     isLoading := b;
     toasts := toasts h;
     releaseTimers := releaseTimers h |}.

Definition addToast (text kind : jsstring) (h : Hook) : Hook :=
  {| isSendingRef := isSendingRef h;
     hook_messages := hook_messages h;
     isLoading := isLoading h;
     toasts := toasts h ++ [(text, kind)];
     releaseTimers := releaseTimers h |}.

(** [setTimeout(() => { isSendingRef.current = false; }, 500)]. *)
Definition scheduleRelease (h : Hook) : Hook :=
  {| isSendingRef := isSendingRef h;
     hook_messages := hook_messages h;
     isLoading := isLoading h;
     toasts := toasts h;
     releaseTimers := S (releaseTimers h) |}.

(** One scheduled release callback runs, 500 ms after it was set. *)
Definition releaseTimerFires (h : Hook) : Hook :=
  match releaseTimers h with
  | O => h
  | S n =>
      {| isSendingRef := false;
         hook_messages := hook_messages h;
         isLoading := isLoading h;
         toasts := toasts h;
         releaseTimers := n |}
  end.

(* ------------------------------------------------------------------ *)
(** *** [fetchMessages] *)

(** The updater handed to [setMessages] after a fetch: the smart merge. *)
Definition smartMerge (chatId : jsstring) (history prev : list Message)
  : list Message :=
  let optimisticMessages :=
    filter (fun p =>
              jseq (msg_chat_id p) chatId
              && negb (existsb (fun h => jseq (msg_id h) (msg_id p)) history))
           prev in
  if 0 <? List.length optimisticMessages
  then history ++ optimisticMessages
  else history.

(** [fetchMessages]: [activeChat] is the id of the active chat when the
    effect runs, [supabase] whether the client is there, [fetched] what
    [getMessages] answers and [activeChatIdRef] the ref when it has
    answered. *)
Definition fetchMessages (activeChat : option jsstring) (supabase : bool)
    (fetched : Result (list Message)) (activeChatIdRef : option jsstring)
    (h : Hook) : Hook :=
  match activeChat with
  | Some chatId =>
      if supabase then
        let h1 := if isSendingRef h then h else setIsLoading true h in
        let h2 :=
          match fetched with
          | Ok history =>
              match activeChatIdRef with
              | Some current =>
                  if jseq current chatId
                  then setMessages (smartMerge chatId history) h1
                  else h1
              | None => h1
              end
          | Err _ => h1
          end in
        setIsLoading false h2
      else setMessages (fun _ => []) h
  | None => setMessages (fun _ => []) h
  end.

(* ------------------------------------------------------------------ *)
(** *** [handleSendMessage] *)

(** The collaborators of one call of [handleSendMessage], each with the
    answer it gives in this call: whether the client, the user and the API
    key are there; the readings of [Date.now()] for the two placeholder ids
    and for the id of a failed save (by the position of the message);
    [JSON.stringify] of several attachments; [addMessage]; [runAgent] (what
    it hands to [onStreamChunk], then how it ends); whether a chunk parses
    as the image-start event; [updateMessagePlan]. *)
Record HookEnv : Type := {
  ready : bool;
  nowTempAi : N;
  nowTempUser : N;
  nowFailedSave : nat -> N;
  stringifyAttachments : list jsstring -> jsstring;
  addMessage : Message -> Result Message;
  runAgent : list jsstring * Result AgentExecutionResult;
  isImageStartEvent : jsstring -> bool;
  updateMessagePlan : Result unit
}.

Definition emptyResult : AgentExecutionResult :=
  {| messages := []; updatedPlan := None |}.

(** [!files || files.length === 0]. *)
Definition noFiles (fs : option (list FileInput)) : bool :=
  match fs with
  | Some (_ :: _) => false
  | _ => true
  end.

(** How a call gets past its first lines. *)
Inductive Entry : Type :=
  | Refused
  | Entered (chat : Chat) (h : Hook).

(** The head of [handleSendMessage]: the guard on its arguments, then the
    latch; it runs without a suspension point. *)
Definition enterSend (E : HookEnv) (text : jsstring)
    (fs : option (list FileInput)) (chatToUse : option Chat) (h : Hook)
  : Entry :=
  match chatToUse with
  | None => Refused
  | Some chat =>
      if (negb (truthy (trim text)) && noFiles fs) || negb (ready E)
      then Refused
      else if isSendingRef h then Refused
      else Entered chat (setSending true h)
  end.

(** [Promise.all(files.map(fileToBase64))]. *)
Fixpoint readAll (fs : list FileInput) : Result (list jsstring) :=
  match fs with
  | [] => Ok []
  | f :: fs' =>
      match file_read f, readAll fs' with
      | Ok b, Ok bs => Ok (b :: bs)
      | Err e, _ => Err e
      | Ok _, Err e => Err e
      end
  end.

(** [userMessageData.image_base64]. *)
Definition attachments (E : HookEnv) (base64Strings : list jsstring)
  : jsstring :=
  match base64Strings with
  | [b] => b
  | bs => stringifyAttachments E bs
  end.

(** [prev.map(m => m.id === i ? f m : m)]. *)
Definition mapAt (i : jsstring) (f : Message -> Message)
    (prev : list Message) : list Message :=
  map (fun m => if jseq (msg_id m) i then f m else m) prev.

Definition withText (t : jsstring) (status : option jsstring) (m : Message)
  : Message :=
  {| msg_id := msg_id m;
     msg_project_id := msg_project_id m;
     msg_chat_id := msg_chat_id m;
     msg_sender := msg_sender m;
     msg_text := t;
     msg_image_base64 := msg_image_base64 m;
     msg_imageStatus := status;
     msg_plan := msg_plan m;
     msg_metadata := msg_metadata m |}.

(** [onStreamChunk], on [currentText] and the hook. *)
Definition onStreamChunk (E : HookEnv) (tempId : jsstring)
    (acc : jsstring * Hook) (chunk : jsstring) : jsstring * Hook :=
  let (currentText, h) := acc in
  if isImageStartEvent E chunk then
    (currentText,
     setMessages
       (mapAt tempId (withText currentText (Some (js "generating")))) h)
  else
    let currentText' := currentText ++ chunk in
    (currentText',
     setMessages
       (mapAt tempId (fun m => withText currentText' (msg_imageStatus m) m))
       h).

(** [messageContent.text || currentText]. *)
Definition finalContent (messageContent : AgentMessage)
    (currentText : jsstring) : jsstring :=
  if truthy (am_text messageContent) then am_text messageContent
  else currentText.

(** [{ ...messageContent, text: finalContent, project_id:
    chatToUse.project_id }], the record handed to [addMessage]. *)
Definition aiDraft (chat : Chat) (messageContent : AgentMessage)
    (currentText : jsstring) : Message :=
  {| msg_id := [];
     msg_project_id := c_project_id chat;
     msg_chat_id := am_chat_id messageContent;
     msg_sender := am_sender messageContent;
     msg_text := finalContent messageContent currentText;
     msg_image_base64 := am_image_base64 messageContent;
     msg_imageStatus := am_imageStatus messageContent;
     msg_plan := None;
     msg_metadata := am_metadata messageContent |}.

(** [fallbackMsg]: the local-only record of a message that could not be
    saved. *)
Definition fallbackMsg (chat : Chat) (messageContent : AgentMessage)
    (currentText : jsstring) (now : N) : Message :=
  {| msg_id := js "failed-save-" ++ decimal now;
     msg_project_id := c_project_id chat;
     msg_chat_id := c_id chat;
     msg_sender := ai;
     msg_text := finalContent messageContent currentText;
     msg_image_base64 := am_image_base64 messageContent;
     msg_imageStatus := am_imageStatus messageContent;
     msg_plan := None;
     msg_metadata := am_metadata messageContent |}.

(** The loop [for (const messageContent of agentMessages)], from position
    [i]: [savedAiMessages] grows, a failed save leaves a toast. The memory
    directives are sent off without being awaited and change nothing here. *)
Fixpoint saveAiMessages (E : HookEnv) (chat : Chat) (currentText : jsstring)
    (i : nat) (agentMessages : list AgentMessage)
    (acc : list Message * Hook) : list Message * Hook :=
  match agentMessages with
  | [] => acc
  | messageContent :: rest =>
      let (savedAiMessages, h) := acc in
      saveAiMessages E chat currentText (S i) rest
        match addMessage E (aiDraft chat messageContent currentText) with
        | Ok savedAiMessage => (savedAiMessages ++ [savedAiMessage], h)
        | Err _ =>
            (savedAiMessages
               ++ [fallbackMsg chat messageContent currentText
                     (nowFailedSave E i)],
             addToast
               (js "Failed to save AI response to history, but here it is.")
               (js "error") h)
        end
  end.

(** [a.findIndex(m => m.id === i)]; [None] for -1. *)
Fixpoint findIndex (i : jsstring) (l : list Message) : option nat :=
  match l with
  | [] => None
  | m :: l' =>
      if jseq (msg_id m) i then Some 0
      else option_map S (findIndex i l')
  end.

(** [a.splice(i, 1, ...items)] on a copy. *)
Definition splice1 (i : nat) (items l : list Message) : list Message :=
  firstn i l ++ items ++ skipn (S i) l.

Definition withPlan (p : jsstring) (m : Message) : Message :=
  {| msg_id := msg_id m;
     msg_project_id := msg_project_id m;
     msg_chat_id := msg_chat_id m;
     msg_sender := msg_sender m;
     msg_text := msg_text m;
     msg_image_base64 := msg_image_base64 m;
     msg_imageStatus := msg_imageStatus m;
     msg_plan := Some p;
     msg_metadata := msg_metadata m |}.

(** The updater handed to [setMessages] once the agent's messages went
    through persistence. *)
Definition reconcile (tempId : jsstring) (savedAiMessages : list Message)
    (plan' : option UpdatedPlan) (prev : list Message) : list Message :=
  let planned (newMessages : list Message) :=
    match plan' with
    | Some u => mapAt (messageId u) (withPlan (plan u)) newMessages
    | None => newMessages
    end in
  match findIndex tempId prev with
  | Some tempMessageIndex =>
      if 0 <? List.length savedAiMessages
      then planned (splice1 tempMessageIndex savedAiMessages prev)
      else planned (splice1 tempMessageIndex savedAiMessages prev)
  | None =>
      filter (fun m => negb (jseq (msg_id m) tempId)) prev ++ savedAiMessages
  end.

(** The message of the [catch] of [handleSendMessage]. *)
Definition thrownMessage (e : Thrown) : jsstring :=
  match e with
  | ThrownString s => s
  | ThrownError m => m
  | ThrownValue (Some m) _ => m
  | ThrownValue None (Some j) => j
  | ThrownValue None None => js "An unknown error occurred."
  end.

(** The warning sign and its variation selector. *)
Definition warningSign : jsstring := [9888%N; 65039%N].

Definition asError (errorMessage : jsstring) (m : Message) : Message :=
  {| msg_id := msg_id m;
     msg_project_id := msg_project_id m;
     msg_chat_id := msg_chat_id m;
     msg_sender := ai;
     msg_text := warningSign ++ js " Error: " ++ errorMessage
                 ++ js ". Please try again.";
     msg_image_base64 := msg_image_base64 m;
     msg_imageStatus := msg_imageStatus m;
     msg_plan := msg_plan m;
     msg_metadata := msg_metadata m |}.

(** The [catch] block. *)
Definition catchBlock (tempId : jsstring) (e : Thrown) (h : Hook)
  : Hook * AgentExecutionResult :=
  let errorMessage := thrownMessage e in
  (setMessages (mapAt tempId (asError errorMessage))
     (addToast errorMessage (js "error") h),
   emptyResult).

(** The [try] block, for a call that got past the latch. *)
Definition tryBlock (E : HookEnv) (text : jsstring)
    (fs : option (list FileInput)) (chat : Chat) (h : Hook)
  : Hook * AgentExecutionResult :=
  let tempId := js "temp-ai-" ++ decimal (nowTempAi E) in
  let tempUserMsgId := js "temp-user-" ++ decimal (nowTempUser E) in
  match (if noFiles fs then Ok []
         else readAll (match fs with Some l => l | None => [] end)) with
  | Err _ =>
      (setSending false
         (addToast (js "Failed to read the attached file(s).") (js "error") h),
       emptyResult)
  | Ok base64Strings =>
      let userMessageData :=
        {| msg_id := [];
           msg_project_id := c_project_id chat;
           msg_chat_id := c_id chat;
           msg_sender := user;
           msg_text := text;
           msg_image_base64 :=
             if noFiles fs then None else Some (attachments E base64Strings);
           msg_imageStatus := None;
           msg_plan := None;
           msg_metadata := noMetadata |} in
      let optimisticUserMessage :=
        {| msg_id := tempUserMsgId;
           msg_project_id := msg_project_id userMessageData;
           msg_chat_id := msg_chat_id userMessageData;
           msg_sender := user;
           msg_text := text;
           msg_image_base64 := msg_image_base64 userMessageData;
           msg_imageStatus := None;
           msg_plan := None;
           msg_metadata := noMetadata |} in
      let tempAiMessage :=
        {| msg_id := tempId;
           msg_project_id := c_project_id chat;
           msg_chat_id := c_id chat;
           msg_sender := ai;
           msg_text := [];
           msg_image_base64 := None;
           msg_imageStatus := None;
           msg_plan := None;
           msg_metadata := noMetadata |} in
      let h1 :=
        setIsLoading true
          (setMessages
             (fun prev => prev ++ [optimisticUserMessage; tempAiMessage]) h) in
      let h2 :=
        match addMessage E userMessageData with
        | Ok savedUserMessage =>
            setMessages (mapAt tempUserMsgId (fun _ => savedUserMessage)) h1
        | Err _ => h1
        end in
      let (emitted, agentOutcome) := runAgent E in
      let (currentText, h3) :=
        fold_left (onStreamChunk E tempId) emitted ([], h2) in
      match agentOutcome with
      | Err e => catchBlock tempId e h3
      | Ok agentResult =>
          let (savedAiMessages, h4) :=
            saveAiMessages E chat currentText 0 (messages agentResult)
                           ([], h3) in
          let h5 :=
            setMessages
              (reconcile tempId savedAiMessages (updatedPlan agentResult)) h4
          in
          match updatedPlan agentResult with
          | Some _ =>
              match updateMessagePlan E with
              | Ok _ => (h5, agentResult)
              | Err e => catchBlock tempId e h5
              end
          | None => (h5, agentResult)
          end
      end
  end.

(** The [finally] block: it runs on every way out of the [try]. *)
Definition finallyBlock (r : Hook * AgentExecutionResult)
  : Hook * AgentExecutionResult :=
  (scheduleRelease (setIsLoading false (fst r)), snd r).

Definition handleSendMessage (E : HookEnv) (text : jsstring)
    (fs : option (list FileInput)) (chatToUse : option Chat) (h : Hook)
  : Hook * AgentExecutionResult :=
  match enterSend E text fs chatToUse h with
  | Refused => (h, emptyResult)
  | Entered chat h1 => finallyBlock (tryBlock E text fs chat h1)
  end.

(* ------------------------------------------------------------------ *)
(** *** [handleSendMessage] among the release callbacks *)

(** [handleSendMessage] is an [async] function: at each [await] it gives up
    control, and the release callbacks that are due by then run before it
    goes on; another submission can arrive only at such a point (or after
    the call has returned). A [Flight] follows a call through its suspension
    points: how many it has passed, the hook as it stood at each of them
    once the callbacks had run (what another caller finds there), and the
    hook as it stands now. *)
Record Flight : Type := {
  passed : nat;
  seen : list Hook;
  current : Hook
}.

Definition takeOff (h : Hook) : Flight :=
  {| passed := 0; seen := []; current := h |}.

(** A stretch of the call that runs without giving up control. *)
Definition sync (f : Hook -> Hook) (fl : Flight) : Flight :=
  {| passed := passed fl; seen := seen fl; current := f (current fl) |}.

(** An [await]: [due k] release callbacks run at the [k]-th suspension
    point of the call. *)
Definition suspend (due : nat -> nat) (fl : Flight) : Flight :=
  let h := Nat.iter (due (passed fl)) releaseTimerFires (current fl) in
  {| passed := S (passed fl); seen := seen fl ++ [h]; current := h |}.

(** A chunk reaches [onStreamChunk] while the call awaits the agent. *)
Definition onStreamChunkAmid (due : nat -> nat) (E : HookEnv)
    (tempId : jsstring) (acc : jsstring * Flight) (chunk : jsstring)
  : jsstring * Flight :=
  let (currentText, fl) := acc in
  let fl1 := suspend due fl in
  let (currentText', h) :=
    onStreamChunk E tempId (currentText, current fl1) chunk in
  (currentText', sync (fun _ => h) fl1).

(** The loop over the agent's messages, with its [await addMessage]. *)
Fixpoint saveAiMessagesAmid (due : nat -> nat) (E : HookEnv) (chat : Chat)
    (currentText : jsstring) (i : nat) (agentMessages : list AgentMessage)
    (acc : list Message * Flight) : list Message * Flight :=
  match agentMessages with
  | [] => acc
  | messageContent :: rest =>
      let (savedAiMessages, fl) := acc in
      let fl1 := suspend due fl in
      saveAiMessagesAmid due E chat currentText (S i) rest
        match addMessage E (aiDraft chat messageContent currentText) with
        | Ok savedAiMessage => (savedAiMessages ++ [savedAiMessage], fl1)
        | Err _ =>
            (savedAiMessages
               ++ [fallbackMsg chat messageContent currentText
                     (nowFailedSave E i)],
             sync (addToast
                     (js "Failed to save AI response to history, but here it is.")
                     (js "error")) fl1)
        end
  end.

(** The [try] block with its suspension points: the [await] of the
    attachments (when there are any), of the save of the user's message, of
    the agent (before each chunk and when it settles), of the save of each
    message of the agent, and of the plan update. *)
Definition tryBlockAmid (due : nat -> nat) (E : HookEnv) (text : jsstring)
    (fs : option (list FileInput)) (chat : Chat) (h : Hook)
  : Flight * AgentExecutionResult :=
  let tempId := js "temp-ai-" ++ decimal (nowTempAi E) in
  let tempUserMsgId := js "temp-user-" ++ decimal (nowTempUser E) in
  let fl0 := if noFiles fs then takeOff h else suspend due (takeOff h) in
  match (if noFiles fs then Ok []
         else readAll (match fs with Some l => l | None => [] end)) with
  | Err _ =>
      (sync (fun h0 =>
               setSending false
                 (addToast (js "Failed to read the attached file(s).")
                           (js "error") h0)) fl0,
       emptyResult)
  | Ok base64Strings =>
      let userMessageData :=
        {| msg_id := [];
           msg_project_id := c_project_id chat;
           msg_chat_id := c_id chat;
           msg_sender := user;
           msg_text := text;
           msg_image_base64 :=
             if noFiles fs then None else Some (attachments E base64Strings);
           msg_imageStatus := None;
           msg_plan := None;
           msg_metadata := noMetadata |} in
      let optimisticUserMessage :=
        {| msg_id := tempUserMsgId;
           msg_project_id := msg_project_id userMessageData;
           msg_chat_id := msg_chat_id userMessageData;
           msg_sender := user;
           msg_text := text;
           msg_image_base64 := msg_image_base64 userMessageData;
           msg_imageStatus := None;
           msg_plan := None;
           msg_metadata := noMetadata |} in
      let tempAiMessage :=
        {| msg_id := tempId;
           msg_project_id := c_project_id chat;
           msg_chat_id := c_id chat;
           msg_sender := ai;
           msg_text := [];
           msg_image_base64 := None;
           msg_imageStatus := None;
           msg_plan := None;
           msg_metadata := noMetadata |} in
      let fl1 :=
        suspend due
          (sync (fun h0 =>
                   setIsLoading true
                     (setMessages
                        (fun prev =>
                           prev ++ [optimisticUserMessage; tempAiMessage])
                        h0)) fl0) in
      let fl2 :=
        match addMessage E userMessageData with
        | Ok savedUserMessage =>
            sync (setMessages (mapAt tempUserMsgId (fun _ => savedUserMessage)))
                 fl1
        | Err _ => fl1
        end in
      let (emitted, agentOutcome) := runAgent E in
      let (currentText, fl3) :=
        fold_left (onStreamChunkAmid due E tempId) emitted ([], fl2) in
      let fl4 := suspend due fl3 in
      match agentOutcome with
      | Err e =>
          (sync (fun h0 => fst (catchBlock tempId e h0)) fl4, emptyResult)
      | Ok agentResult =>
          let (savedAiMessages, fl5) :=
            saveAiMessagesAmid due E chat currentText 0 (messages agentResult)
                               ([], fl4) in
          let fl6 :=
            sync (setMessages
                    (reconcile tempId savedAiMessages (updatedPlan agentResult)))
                 fl5 in
          match updatedPlan agentResult with
          | Some _ =>
              let fl7 := suspend due fl6 in
              match updateMessagePlan E with
              | Ok _ => (fl7, agentResult)
              | Err e =>
                  (sync (fun h0 => fst (catchBlock tempId e h0)) fl7,
                   emptyResult)
              end
          | None => (fl6, agentResult)
          end
      end
  end.

(** The whole call: the guard and the latch run at once, the [finally]
    block runs when the [try] block is through. *)
Definition handleSendMessageAmid (due : nat -> nat) (E : HookEnv)
    (text : jsstring) (fs : option (list FileInput))
    (chatToUse : option Chat) (h : Hook)
  : Flight * AgentExecutionResult :=
  match enterSend E text fs chatToUse h with
  | Refused => (takeOff h, emptyResult)
  | Entered chat h1 =>
      let r := tryBlockAmid due E text fs chat h1 in
      (sync (fun h0 => scheduleRelease (setIsLoading false h0)) (fst r), snd r)
  end.

(* ================================================================== *)
(** ** The chat input: [handleSubmit] *)
(* ================================================================== *)



(* ================================================================== *)
(** ** The research service *)
(* ================================================================== *)

(** [[^\s]+] has at least one code unit to take: the longest run at the
    front of [s] without white space, and what follows it. *)
Fixpoint nonSpaces (s : jsstring) : jsstring * jsstring :=
  match s with
  | c :: s' =>
      if isWhiteSpace c then ([], s)
      else let (u, r) := nonSpaces s' in (c :: u, r)
  | [] => ([], [])
  end.

(** [(https?:\/\/[^\s]+)] at the front of [s], with the [i] flag: group 1
    and what follows the match. The optional [s] is tried first. *)
Definition urlBody (s : jsstring) : option (jsstring * jsstring) :=
  match literal true (js "http") s with
  | None => None
  | Some r =>
      match orElse
              match literal true (js "s") r with
              | Some r1 => literal true (js "://") r1
              | None => None
              end
              (literal true (js "://") r) with
      | None => None
      | Some r2 =>
          let (u, rest) := nonSpaces r2 in
          if truthy u
          then Some (firstn (List.length s - List.length rest) s, rest)
          else None
      end
  end.

(** [/(?:URL:|Source:)\s*(https?:\/\/[^\s]+)/gi] at the front of [s]. *)
Definition urlAt (s : jsstring) : option (jsstring * jsstring) :=
  orElse
    match literal true (js "URL:") s with
    | Some r => spacesThen urlBody r
    | None => None
    end
    match literal true (js "Source:") s with
    | Some r => spacesThen urlBody r
    | None => None
    end.

(** [[...results.matchAll(urlRegex)].map(m => m[1])]: the matches from left
    to right, each search starting where the match before ended. [skip]
    counts the code units of the last match that are still to be passed. *)
Fixpoint matchAllUrls (skip : nat) (s : jsstring) : list jsstring :=
  match skip with
  | S k =>
      match s with
      | _ :: s' => matchAllUrls k s'
      | [] => []
      end
  | O =>
      match urlAt s with
      | Some (u, rest) =>
          u :: match s with
               | _ :: s' => matchAllUrls (List.length s' - List.length rest) s'
               | [] => []
               end
      | None =>
          match s with
          | _ :: s' => matchAllUrls 0 s'
          | [] => []
          end
      end
  end.

(** [extractURLs]. *)
Definition extractURLs (results : jsstring) (count : nat) : list jsstring :=
  firstn count (matchAllUrls 0 results).

(** [scrapeMultiple]: [Promise.allSettled] keeps the failures apart, and
    each becomes a line of its own. *)
Definition scrapeMultiple (scrapeURL : jsstring -> Result jsstring)
    (urls : list jsstring) : list jsstring :=
  map (fun url =>
         match scrapeURL url with
         | Ok value => js "Source: " ++ url ++ nl ++ js "Content: " ++ value
         | Err _ => js "[Failed to scrape " ++ url ++ js "]"
         end) urls.

(** [formatDeepResults]. *)
Definition formatDeepResults (deepContent : list jsstring) : jsstring :=
  js "Here is a comprehensive summary based on multiple sources:" ++ nl ++ nl
  ++ join (nl ++ nl ++ js "---" ++ nl ++ nl) deepContent.

(** [ResearchService.deepResearch], with the two functions of the web
    search service it calls: the messages it hands to [onProgress], then
    its result. *)
Definition researchDeep (performWebSearch : jsstring -> Result jsstring)
    (scrapeURL : jsstring -> Result jsstring) (query : jsstring)
  : list jsstring * Result Research :=
  match performWebSearch query with
  | Err e => ([js "Searching for initial sources..."], Err e)
  | Ok searchResults =>
      let urls := extractURLs searchResults 5 in
      ([js "Searching for initial sources...";
        js "Analyzing top sources...";
        js "Putting it all together..."],
       Ok {| answer := formatDeepResults (scrapeMultiple scrapeURL urls);
             sources := urls |})
  end.

(* ================================================================== *)
(** ** The layout: routes *)
(* ================================================================== *)

(** [s.split('/')], for any separator: the segments between the
    separators, the empty ones too. *)
Fixpoint splitOn (sep : N) (s : jsstring) : list jsstring :=
  match s with
  | [] => [[]]
  | c :: s' =>
      if (c =? sep)%N then [] :: splitOn sep s'
      else match splitOn sep s' with
           | x :: l => (c :: x) :: l
           | [] => [[c]]
           end
  end.

(** [s.endsWith('/')]. *)
Definition endsWithSlash (s : jsstring) : bool :=
  match rev s with
  | c :: _ => (c =? 47)%N
  | [] => false
  end.

(** [cleanPath.split('/').filter(Boolean)]. *)
Definition pathParts (pathname : jsstring) : list jsstring :=
  let cleanPath :=
    if endsWithSlash pathname && (1 <? List.length pathname)
    then removelast pathname
    else pathname in
  filter truthy (splitOn 47 cleanPath).

Inductive View : Type := view_root | view_chat | view_settings.
Inductive HubView : Type :=
  | hub_projects | hub_marketplace | hub_messages | hub_discover.

(** What the route memo returns; a field it leaves out is [None] (or
    [false]). *)
Record Route : Type := {
  r_view : View;
  r_hubView : option HubView;
  r_chatId : option jsstring;
  r_isRoot : bool
}.

Definition rootRoute : Route :=
  {| r_view := view_root; r_hubView := None; r_chatId := None;
     r_isRoot := true |}.

Definition hubRoute (h : HubView) : Route :=
  {| r_view := view_chat; r_hubView := Some h; r_chatId := None;
     r_isRoot := false |}.

Definition chatRoute (id : option jsstring) : Route :=
  {| r_view := view_chat; r_hubView := None; r_chatId := id;
     r_isRoot := false |}.

(** The route memo of the layout. *)
Definition parseRoute (pathname : jsstring) : Route :=
  let parts := pathParts pathname in
  match parts with
  | [] => rootRoute
  | p0 :: _ =>
      if jseq p0 (js "settings")
      then {| r_view := view_settings; r_hubView := None; r_chatId := None;
              r_isRoot := false |}
      else if jseq p0 (js "autonomous-chat") then chatRoute (Some (js "new"))
      else if jseq p0 (js "cocreator-hub") then hubRoute hub_projects
      else if jseq p0 (js "projects") then hubRoute hub_projects
      else if jseq p0 (js "marketplace") then hubRoute hub_marketplace
      else if jseq p0 (js "messages") then hubRoute hub_messages
      else if jseq p0 (js "discover") then hubRoute hub_discover
      else if jseq p0 (js "c") then chatRoute (nth_error parts 1)
      else if jseq p0 (js "p") && (3 <=? List.length parts)
              && match nth_error parts 2 with
                 | Some p2 => jseq p2 (js "c")
                 | None => false
                 end
      then chatRoute (nth_error parts 3)
      else rootRoute
  end.

Inductive WorkspaceMode : Type := autonomous | cocreator.

(** The state of the layout the routing touches. *)
Record Layout : Type := {
  pathname : jsstring;
  workspaceMode : WorkspaceMode;
  activeChat : option Chat
}.

(** [navigate(path)], as far as the state goes. *)
Definition navigate (path : jsstring) (l : Layout) : Layout :=
  {| pathname := path;
     workspaceMode := workspaceMode l;
     activeChat := activeChat l |}.

(** [handleSelectChatFromSidebar]. *)
Definition handleSelectChatFromSidebar (chat : Chat) (l : Layout) : Layout :=
  navigate
    (if truthy (c_project_id chat)
     then js "/p/" ++ c_project_id chat ++ js "/c/" ++ c_id chat
     else js "/c/" ++ c_id chat)
    l.

(** The effect that brings the state in line with the route. *)
Definition syncRoute (allChats : list Chat) (l : Layout) : Layout :=
  let r := parseRoute (pathname l) in
  if r_isRoot r then
    navigate (match workspaceMode l with
              | autonomous => js "/autonomous-chat"
              | cocreator => js "/projects"
              end) l
  else if match r_chatId r with
          | Some id => jseq id (js "new")
          | None => false
          end
  then {| pathname := pathname l; workspaceMode := autonomous;
          activeChat := None |}
  else match r_hubView r with
       | Some _ =>
           {| pathname := pathname l; workspaceMode := cocreator;
              activeChat := None |}
       | None =>
           if match r_chatId r with
              | Some id => truthy id
              | None => false
              end
           then
             match find (fun c =>
                           match r_chatId r with
                           | Some id => jseq (c_id c) id
                           | None => false
                           end) allChats with
             | Some chatToSelect =>
                 if negb match activeChat l with
                         | Some a => jseq (c_id chatToSelect) (c_id a)
                         | None => false
                         end
                 then {| pathname := pathname l;
                         workspaceMode :=
                           if truthy (c_project_id chatToSelect)
                           then cocreator else autonomous;
                         activeChat := Some chatToSelect |}
                 else l
             | None => l
             end
           else
             match r_view r with
             | view_settings =>
                 {| pathname := pathname l;
                    workspaceMode := workspaceMode l;
                    activeChat := None |}
             | _ => l
             end
       end.

(* ================================================================== *)
(** ** The message view: [parseMessageContent] *)
(* ================================================================== *)

(** [[\s\S]*?] followed by [close], at the front of [s]: what follows the
    first [close]. *)
Fixpoint afterClose (close s : jsstring) : option jsstring :=
  match literal false close s with
  | Some rest => Some rest
  | None =>
      match s with
      | _ :: s' => afterClose close s'
      | [] => None
      end
  end.

(** [([\s\S]*?)(?:close|$)] at the front of [s]: group 1, which ends at the
    first [close], or at the end of [s] when there is none. *)
Fixpoint untilClose (close s : jsstring) : jsstring :=
  match literal false close s with
  | Some _ => []
  | None =>
      match s with
      | c :: s' => c :: untilClose close s'
      | [] => []
      end
  end.

(** [s.match(/open([\s\S]*?)(?:close|$)/)]: group 1 of the leftmost
    match. *)
Definition openCapture (open close s : jsstring) : option jsstring :=
  firstMatch (fun s => match literal false open s with
                       | Some r => Some (untilClose close r)
                       | None => None
                       end) s.

(** [/open[\s\S]*?close/] at the front of [s]: what follows the match. *)
Definition closedBlock (open close s : jsstring) : option jsstring :=
  match literal false open s with
  | Some r => afterClose close r
  | None => None
  end.

(** [/open[\s\S]*/] at the front of [s]: the match runs to the end. *)
Definition openBlock (open s : jsstring) : option jsstring :=
  match literal false open s with
  | Some _ => Some []
  | None => None
  end.

(** [s.replace(re, '')] for a pattern with the [g] flag that matches no
    empty text: [m] tells what follows a match at the front. The matches are
    taken from left to right, each search starting where the match before
    ended; [skip] counts the code units of the last match that are still to
    be passed. *)
Fixpoint removeAll (m : jsstring -> option jsstring) (skip : nat)
    (s : jsstring) : jsstring :=
  match skip with
  | S k =>
      match s with
      | _ :: s' => removeAll m k s'
      | [] => []
      end
  | O =>
      match s with
      | c :: s' =>
          match m s with
          | Some rest => removeAll m (List.length s' - List.length rest) s'
          | None => c :: removeAll m 0 s'
          end
      | [] => []
      end
  end.

(** [\w]. *)
Definition isWordChar (c : N) : bool :=
  (((48 <=? c) && (c <=? 57)) || ((65 <=? c) && (c <=? 90)) || (c =? 95)
   || ((97 <=? c) && (c <=? 122)))%N.

Fixpoint dropWord (s : jsstring) : jsstring :=
  match s with
  | c :: s' => if isWordChar c then dropWord s' else s
  | [] => []
  end.

(** [s.replace(/^```\w*\n?/, '')]. *)
Definition stripFenceStart (s : jsstring) : jsstring :=
  match literal false (js "```") s with
  | Some r =>
      match dropWord r with
      | c :: r' => if (c =? 10)%N then r' else c :: r'
      | [] => []
      end
  | None => s
  end.

(** [s.replace(/```$/, '')]. *)
Definition stripFenceEnd (s : jsstring) : jsstring :=
  match literal false (js "```") (rev s) with
  | Some r => rev r
  | None => s
  end.

(** What [parseMessageContent] returns; [null] is [None]. *)
Record Parsed : Type := {
  thinking : option jsstring;
  canvas : option jsstring;
  clean : jsstring
}.

Definition parseMessageContent (content : jsstring) : Parsed :=
  if negb (truthy content)
  then {| thinking := None; canvas := None; clean := [] |}
  else
    let thinkMatch := openCapture (js "<THINK>") (js "</THINK>") content in
    let canvasMatch := openCapture (js "<CANVAS>") (js "</CANVAS>") content in
    let canvas0 := option_map trim canvasMatch in
    {| thinking := option_map trim thinkMatch;
       canvas :=
         match canvas0 with
         | Some c =>
             if truthy c
             then Some (trim (stripFenceEnd (stripFenceStart c)))
             else canvas0
         | None => None
         end;
       clean :=
         trim
           (removeAll (closedBlock (js "<DEEP>") (js "</DEEP>")) 0
           (removeAll (closedBlock (js "<STUDY>") (js "</STUDY>")) 0
           (removeAll (closedBlock (js "<PROJECT>") (js "</PROJECT>")) 0
           (removeAll (closedBlock (js "<SEARCH>") (js "</SEARCH>")) 0
           (removeAll (closedBlock (js "<IMAGE>") (js "</IMAGE>")) 0
           (removeAll (closedBlock (js "<MEMORY>") (js "</MEMORY>")) 0
           (removeAll (openBlock (js "<CANVAS>")) 0
           (removeAll (closedBlock (js "<CANVAS>") (js "</CANVAS>")) 0
           (removeAll (openBlock (js "<THINK>")) 0
           (removeAll (closedBlock (js "<THINK>") (js "</THINK>")) 0
              content)))))))))) |}.

(* ================================================================== *)
(** ** The vocabulary of the statements *)
(* ================================================================== *)

(** A pattern none of whose later characters matches its first one cannot
    match across the point where a copy of itself begins. *)
Definition borderless (ci : bool) (p : jsstring) : bool :=
  match p with
  | p0 :: ptl => forallb (fun x => negb (ceq ci x p0)) ptl
  | [] => false
  end.

(** [st'] comes after [st] in a turn: the same [loopCount], and the
    accumulated text of [st] with something (possibly nothing) appended. *)
Definition grows (st st' : TurnState) : Prop :=
  loopCount st' = loopCount st
  /\ exists t, finalResponseText st' = finalResponseText st ++ t.

(** The accumulated text after each executor invocation of a run. *)
Definition texts (r : Run) : list jsstring :=
  map (fun i => finalResponseText (stateOf (snd i))) (invocations r).

(** Each text of the list is the one before it (at first [t]) with something
    appended. *)
Fixpoint appendOnlyFrom (t : jsstring) (l : list jsstring) : Prop :=
  match l with
  | [] => True
  | u :: l' => (exists s, u = t ++ s) /\ appendOnlyFrom u l'
  end.

(** The state the last invocation left, [st] when there was none. *)
Fixpoint lastState (st : TurnState) (l : list (TurnState * Outcome))
  : TurnState :=
  match l with
  | [] => st
  | i :: l' => lastState (stateOf (snd i)) l'
  end.

(** The actions whose executor always ends the turn. *)
Definition terminal (a : RouterAction) : bool :=
  match a with SIMPLE => false | _ => true end.

(** Whether the text holds the opening tag that routes to [a]. *)
Definition hasTag (a : RouterAction) (t : jsstring) : bool :=
  match a with
  | SIMPLE => false
  | DEEP_SEARCH =>
      includes false (js "<DEEP>") t || includes true (js "<SEARCH>deep") t
  | SEARCH => includes false (js "<SEARCH>") t
  | THINK => includes false (js "<THINK>") t
  | IMAGE => includes false (js "<IMAGE>") t
  | PROJECT => includes false (js "<PROJECT>") t
  | CANVAS => includes false (js "<CANVAS>") t
  | STUDY => includes false (js "<STUDY>") t
  end.

(** An executor that asks for a re-route every time. *)
Definition alwaysContinue (st : TurnState) : Outcome :=
  Continue (streamText (js "<THINK>") st).

(** A record held before the fetch counts as pending for the chat [chatId]
    when it belongs to that chat and no fetched record has its id. *)
Definition pending (chatId : jsstring) (history : list Message) (p : Message)
  : bool :=
  jseq (msg_chat_id p) chatId
  && negb (existsb (fun h => jseq (msg_id h) (msg_id p)) history).


(** Whether reading the attachments of a call fails. *)
Definition attachmentsFail (fs : option (list FileInput)) : bool :=
  if noFiles fs then false
  else match readAll (match fs with Some l => l | None => [] end) with
       | Err _ => true
       | Ok _ => false
       end.

(** Whether a call got past the guard and the latch. *)
Definition entered (e : Entry) : bool :=
  match e with Entered _ _ => true | Refused => false end.


(** *** Scenarios of the hook *)

(** A hook at rest, an environment in which every collaborator answers, an
    attachment that cannot be read, and two chats. *)
Definition idle : Hook :=
  {| isSendingRef := false; hook_messages := []; isLoading := false;
     toasts := []; releaseTimers := 0 |}.

Definition answering : HookEnv :=
  {| ready := true;
     nowTempAi := 1700000000000;
     nowTempUser := 1700000000000;
     nowFailedSave := fun _ => 1700000004321%N;
     stringifyAttachments := fun l => join (js ",") l;
     addMessage := fun m => Err (ThrownError (js "network down"));
     runAgent :=
       ([js "Hello"; js " there"],
        Ok {| messages :=
                [ {| am_project_id := js "p1"; am_chat_id := js "chat-A";
                     am_sender := ai; am_text := js "Hello there";
                     am_image_base64 := None; am_imageStatus := None;
                     am_metadata := noMetadata |} ];
              updatedPlan := None |});
     isImageStartEvent := fun _ => false;
     updateMessagePlan := Ok tt |}.

(** The agent streams its answer and returns a message without text of its
    own; no save goes through. *)
Definition unsaved : HookEnv :=
  {| ready := true;
     nowTempAi := 1700000000000;
     nowTempUser := 1700000000000;
     nowFailedSave := fun _ => 1700000004321%N;
     stringifyAttachments := fun l => join (js ",") l;
     addMessage := fun m => Err (ThrownError (js "network down"));
     runAgent :=
       ([js "Hello"; js " there"],
        Ok {| messages :=
                [ {| am_project_id := js "p1"; am_chat_id := js "chat-A";
                     am_sender := ai; am_text := [];
                     am_image_base64 := None; am_imageStatus := None;
                     am_metadata := noMetadata |} ];
              updatedPlan := None |});
     isImageStartEvent := fun _ => false;
     updateMessagePlan := Ok tt |}.

Definition unreadable : FileInput :=
  {| file_type := js "image/png";
     file_read := Err (ThrownError (js "NotReadableError")) |}.

Definition chatA : Chat := {| c_id := js "chat-A"; c_project_id := js "p1" |}.
Definition chatB : Chat := {| c_id := js "chat-B"; c_project_id := js "p1" |}.

(** The placeholder ids of a call. *)
Definition tempAiId (E : HookEnv) : jsstring :=
  js "temp-ai-" ++ decimal (nowTempAi E).
Definition tempUserId (E : HookEnv) : jsstring :=
  js "temp-user-" ++ decimal (nowTempUser E).

(** [currentText] once the agent has streamed [emitted]: every chunk that is
    not the image-start event, in order. *)
Definition streamedText (E : HookEnv) (emitted : list jsstring) : jsstring :=
  fold_left (fun t c => if isImageStartEvent E c then t else t ++ c)
            emitted [].

(** What identifies a record in the view and what it shows. *)
Definition core (m : Message) : jsstring * jsstring * Sender * jsstring :=
  (msg_id m, msg_text m, msg_sender m, msg_chat_id m).

Definition saveWarning : jsstring * jsstring :=
  (js "Failed to save AI response to history, but here it is.", js "error").

(** *** Scenarios of the agent *)

(** A stream that delivers one chunk of text and ends. *)
Definition says (t : jsstring) : Stream :=
  {| chunks := [ {| chunk_text := Some t; chunk_grounding := None |} ];
     failure := None |}.

(** A stream that delivers one chunk of text and then fails. *)
Definition breaksAfter (t : jsstring) (e : Thrown) : Stream :=
  {| chunks := [ {| chunk_text := Some t; chunk_grounding := None |} ];
     failure := Some e |}.

Definition silent : Stream := {| chunks := []; failure := None |}.

(** Collaborators of a turn that the classifier starts on SIMPLE: what the
    SIMPLE stream and the THINK stream do and what the image backend
    answers; the other collaborators answer without text. *)
Definition collaborators (simple think : Stream) (image : Result jsstring)
  : Collaborators :=
  {| route := Ok {| action := SIMPLE; parameters_prompt := None |};
     getContext := Ok tt;
     generateContentStream :=
       fun a _ => match a with
                  | SIMPLE => simple
                  | THINK => think
                  | _ => silent
                  end;
     generateContent := fun _ => Ok [];
     deepResearch := fun _ => ([], Ok {| answer := []; sources := [] |});
     incrementThinkingCount := Ok tt;
     generateImage := fun _ => image;
     imageStartEvent := fun t => js "{type:image_generation_start}";
     getUserFriendlyError := thrownMessage |}.

Definition ask (p : jsstring) : AgentInput :=
  {| prompt := p; files := []; project_id := js "p1"; chat_id := js "c1" |}.

(** Scenario B of the specification: the SIMPLE answer asks for an image and
    the image backend delivers. *)
Definition drawCat : Collaborators :=
  collaborators (says (js "I'll generate that image! <IMAGE>a cute cat</IMAGE>"))
                silent (Ok (js "iVBORw0KGgo=")).

(** The SIMPLE answer asks to think, and the THINK stream fails after its
    first chunk. *)
Definition quotaHit : Collaborators :=
  collaborators (says (js "Hi <THINK>"))
                (breaksAfter (js "Let me see") (ThrownError (js "quota exceeded")))
                (Ok []).

(** The SIMPLE answer asks for an image and the image backend fails. *)
Definition noImage : Collaborators :=
  collaborators (says (js "Sure! <IMAGE>a cat</IMAGE>"))
                silent (Err (ThrownError (js "quota exceeded"))).

(** *** The view after a send *)

(** No record of the list has the id [i]. *)
Definition absent (i : jsstring) (l : list Message) : bool :=
  forallb (fun m => negb (jseq (msg_id m) i)) l.














(** *** Answers of the agent *)

(** The text of a stream: the texts of its chunks, in order. *)
Definition answerOf (cs : list Chunk) : jsstring :=
  List.concat (map (fun c => match chunkText c with
                             | Some t => t
                             | None => []
                             end) cs).

(** No [<] stands in the text. *)
Definition tagFree (t : jsstring) : bool :=
  forallb (fun c => negb (c =? 60)%N) t.

(** The collaborators [C] with a classifier that answers [a]. *)
Definition routed (a : RouterAction) (C : Collaborators) : Collaborators :=
  {| route := Ok {| action := a; parameters_prompt := None |};
     getContext := getContext C;
     generateContentStream := generateContentStream C;
     generateContent := generateContent C;
     deepResearch := deepResearch C;
     incrementThinkingCount := incrementThinkingCount C;
     generateImage := generateImage C;
     imageStartEvent := imageStartEvent C;
     getUserFriendlyError := getUserFriendlyError C |}.

(** A SIMPLE answer of more than fifty characters without a tag. *)
Definition chatty : Collaborators :=
  collaborators
    (says (js "The capital of France is Paris, on the river Seine."))
    silent (Ok []).

(** *** Research *)

(** No white space stands in the text. *)
Definition spaceFree (t : jsstring) : bool :=
  forallb (fun c => negb (isWhiteSpace c)) t.

(** The text begins with [http://] or [https://], in any letter case, and
    goes on after it. *)
Definition hasScheme (u : jsstring) : bool :=
  match literal true (js "http://") u, literal true (js "https://") u with
  | Some (_ :: _), _ => true
  | _, Some (_ :: _) => true
  | _, _ => false
  end.

(** A web search that answers with two sources, and a scraper that fails on
    every page. *)
Definition twoSources (query : jsstring) : Result jsstring :=
  Ok (js "Source: https://a.example/" ++ query ++ js " - first" ++ nl
      ++ js "URL:http://b.example/x second").

Definition offline (url : jsstring) : Result jsstring :=
  Err (ThrownError (js "fetch failed")).

(** The collaborators [C] with the research service on top of a web search
    and a scraper. *)
Definition researching (performWebSearch scrapeURL : jsstring -> Result jsstring)
    (C : Collaborators) : Collaborators :=
  {| route := route C;
     getContext := getContext C;
     generateContentStream := generateContentStream C;
     generateContent := generateContent C;
     deepResearch := researchDeep performWebSearch scrapeURL;
     incrementThinkingCount := incrementThinkingCount C;
     generateImage := generateImage C;
     imageStartEvent := imageStartEvent C;
     getUserFriendlyError := getUserFriendlyError C |}.

(** *** Routes *)

(** A text that can stand as one segment of a path: not empty, and without
    a slash. *)
Definition segment (s : jsstring) : bool :=
  truthy s && forallb (fun c => negb (c =? 47)%N) s.

(** A layout freshly loaded at the root path. *)
Definition atRoot (m : WorkspaceMode) : Layout :=
  {| pathname := js "/"; workspaceMode := m; activeChat := None |}.

(** *** The markers the message view hides *)

Inductive Marker : Type :=
  | mk_THINK | mk_CANVAS | mk_MEMORY | mk_IMAGE | mk_SEARCH | mk_PROJECT
  | mk_STUDY | mk_DEEP.

Definition openTag (m : Marker) : jsstring :=
  match m with
  | mk_THINK => js "<THINK>" | mk_CANVAS => js "<CANVAS>"
  | mk_MEMORY => js "<MEMORY>" | mk_IMAGE => js "<IMAGE>"
  | mk_SEARCH => js "<SEARCH>" | mk_PROJECT => js "<PROJECT>"
  | mk_STUDY => js "<STUDY>" | mk_DEEP => js "<DEEP>"
  end.

Definition closeTag (m : Marker) : jsstring :=
  match m with
  | mk_THINK => js "</THINK>" | mk_CANVAS => js "</CANVAS>"
  | mk_MEMORY => js "</MEMORY>" | mk_IMAGE => js "</IMAGE>"
  | mk_SEARCH => js "</SEARCH>" | mk_PROJECT => js "</PROJECT>"
  | mk_STUDY => js "</STUDY>" | mk_DEEP => js "</DEEP>"
  end.

(** The tags without their [<]. *)
Definition openName (m : Marker) : jsstring := tl (openTag m).
Definition closeName (m : Marker) : jsstring := tl (closeTag m).

(** Whether the text begins with [<]. *)
Definition headLt (s : jsstring) : bool :=
  match s with c :: _ => (c =? 60)%N | [] => false end.

(** A pattern that matches only where a [<] stands. *)
Definition startsAtLt {A} (m : jsstring -> option A) : Prop :=
  forall s, headLt s = false -> m s = None.


(* ================================================================== *)
(** * Properties *)
(* ================================================================== *)

(** ** The patterns *)

Module PatternFacts.

Lemma ceq_refl ci a : ceq ci a a = true.
Proof. unfold ceq. destruct ci; apply N.eqb_refl. Qed.

Lemma literal_app ci p r : literal ci p (p ++ r) = Some r.
Proof.
  induction p as [|a p IH]; simpl; [reflexivity|].
  now rewrite ceq_refl.
Qed.

(** What [literal] returns is what follows the matched front. *)
Lemma literal_suffix ci p : forall s r,
  literal ci p s = Some r -> exists f, s = f ++ r /\ List.length f = List.length p.
Proof.
  induction p as [|a p IH]; simpl; intros s r H.
  - inversion H; subst. now exists [].
  - destruct s as [|b s]; [discriminate|].
    destruct (ceq ci a b); [|discriminate].
    destruct (IH _ _ H) as (f & -> & Hl).
    exists (b :: f). simpl. now rewrite Hl.
Qed.

Lemma literal_extend ci p : forall s r t,
  literal ci p s = Some r -> literal ci p (s ++ t) = Some (r ++ t).
Proof.
  induction p as [|a p IH]; simpl; intros s r t H.
  - now inversion H.
  - destruct s as [|b s]; [discriminate|]. simpl.
    destruct (ceq ci a b); [|discriminate]. now apply IH.
Qed.

Lemma literal_inside ci p0 tl : forall q p' r,
  forallb (fun x => negb (ceq ci x p0)) p' = true ->
  literal ci p' (q ++ p0 :: tl) = Some r ->
  exists r', literal ci p' q = Some r'.
Proof.
  induction q as [|c q IH]; intros p' r Hp H.
  - destruct p' as [|x p']; [now exists []|].
    simpl in *. apply andb_prop in Hp as [Hx _].
    destruct (ceq ci x p0); discriminate.
  - destruct p' as [|x p']; [now eexists|].
    simpl in *. apply andb_prop in Hp as [_ Hp].
    destruct (ceq ci x c); [|discriminate]. eauto.
Qed.

Lemma literal_straddle ci p q rest r :
  borderless ci p = true -> q <> [] ->
  literal ci p (q ++ p ++ rest) = Some r ->
  exists r', literal ci p q = Some r'.
Proof.
  destruct p as [|p0 ptl]; [discriminate|]. simpl. intros Hb Hq H.
  destruct q as [|c q]; [congruence|]. simpl in *.
  destruct (ceq ci p0 c); [|discriminate].
  eapply literal_inside; eauto.
Qed.

Lemma includes_split ci p : forall s1 s2,
  includes ci p (s1 ++ s2) = false -> literal ci p s2 = None.
Proof.
  induction s1 as [|c s1 IH]; simpl; intros s2 H.
  - destruct s2; simpl in H; destruct (literal ci p _); congruence.
  - destruct (literal ci p (c :: s1 ++ s2)); [discriminate|]. auto.
Qed.

Lemma includes_front ci p : forall s1 s2,
  includes ci p (s1 ++ s2) = false -> includes ci p s1 = false.
Proof.
  induction s1 as [|c s1 IH]; simpl; intros s2 H.
  - destruct (literal ci p []) eqn:E; [|reflexivity].
    apply literal_extend with (t := s2) in E. simpl in E.
    destruct s2; simpl in H; rewrite E in H; discriminate.
  - destruct (literal ci p (c :: s1)) eqn:E.
    + apply literal_extend with (t := s2) in E. simpl in E.
      now rewrite E in H.
    + destruct (literal ci p (c :: s1 ++ s2)); [discriminate|]. eauto.
Qed.

Lemma includes_back ci p : forall s1 s2,
  includes ci p (s1 ++ s2) = false -> includes ci p s2 = false.
Proof.
  induction s1 as [|c s1 IH]; simpl; intros s2 H; [assumption|].
  destruct (literal ci p (c :: s1 ++ s2)); [discriminate|]. auto.
Qed.

(** No match of [p] begins inside [q] when [q] is followed by [p]. *)
Lemma no_early_literal ci p q1 q2 rest :
  borderless ci p = true -> includes ci p (q1 ++ q2) = false -> q2 <> [] ->
  literal ci p (q2 ++ p ++ rest) = None.
Proof.
  intros Hb Hi Hq.
  destruct (literal ci p (q2 ++ p ++ rest)) eqn:E; [|reflexivity].
  destruct (literal_straddle _ _ _ _ _ Hb Hq E) as [r' Hr'].
  apply includes_split in Hi. congruence.
Qed.

Lemma firstMatch_here {A} (m : jsstring -> option A) s x :
  m s = Some x -> firstMatch m s = Some x.
Proof. intros H. destruct s; simpl; now rewrite H. Qed.

Lemma firstMatch_skip {A} (m : jsstring -> option A) suf : forall pre,
  (forall p1 p2, pre = p1 ++ p2 -> p2 <> [] -> m (p2 ++ suf) = None) ->
  firstMatch m (pre ++ suf) = firstMatch m suf.
Proof.
  induction pre as [|c pre IH]; intros H; [reflexivity|].
  assert (E : m (c :: pre ++ suf) = None)
    by (apply (H [] (c :: pre)); [reflexivity | discriminate]).
  simpl. rewrite E.
  apply IH. intros p1 p2 -> Hp. now apply (H (c :: p1) p2).
Qed.

Lemma firstMatch_found {A} (m : jsstring -> option A) suf x : forall pre,
  m suf = Some x -> exists y, firstMatch m (pre ++ suf) = Some y.
Proof.
  induction pre as [|c pre IH]; intros H.
  - exists x. now apply firstMatch_here.
  - simpl. destruct (m (c :: pre ++ suf)); eauto.
Qed.

Lemma firstMatch_origin {A} (m : jsstring -> option A) x : forall s,
  firstMatch m s = Some x -> exists s1 s2, s = s1 ++ s2 /\ m s2 = Some x.
Proof.
  induction s as [|c s IH]; simpl; intros H.
  - destruct (m []) eqn:E; [|discriminate]. exists [], []. now inversion H; subst.
  - destruct (m (c :: s)) eqn:E.
    + exists [], (c :: s). now inversion H; subst.
    + destruct (IH H) as (s1 & s2 & -> & Hm). now exists (c :: s1), s2.
Qed.

Lemma firstMatch_none {A} (m : jsstring -> option A) : forall s,
  (forall s1 s2, s = s1 ++ s2 -> m s2 = None) -> firstMatch m s = None.
Proof.
  induction s as [|c s IH]; intros H; simpl.
  - now rewrite (H [] [] eq_refl).
  - rewrite (H [] (c :: s) eq_refl). apply IH.
    intros s1 s2 ->. now apply (H (c :: s1) s2).
Qed.

Lemma lazyDotThen_here ci close s r :
  literal ci close s = Some r -> lazyDotThen ci close s = Some [].
Proof. intros H. destruct s; simpl; now rewrite H. Qed.

(** The lazy star stops at the first [close]: with none inside [q] and no
    line terminator in [q], the group is [q]. *)
Lemma lazyDotThen_exact ci close post : forall q,
  borderless ci close = true ->
  includes ci close q = false ->
  noLineTerminator q = true ->
  lazyDotThen ci close (q ++ close ++ post) = Some q.
Proof.
  intros q Hb. induction q as [|c q IH]; intros Hi Hn.
  - simpl. eapply lazyDotThen_here, literal_app.
  - change ((c :: q) ++ close ++ post) with (c :: q ++ close ++ post).
    assert (E : literal ci close ((c :: q) ++ close ++ post) = None)
      by (apply no_early_literal with (q1 := []); auto; discriminate).
    simpl in E |- *. rewrite E.
    simpl in Hn. apply andb_prop in Hn as [Hc Hn].
    apply negb_true_iff in Hc. rewrite Hc.
    rewrite IH; auto.
    change (c :: q) with ([c] ++ q) in Hi. now apply includes_back in Hi.
Qed.

(** With no line terminator in [q] the lazy star finds some group. *)
Lemma lazyDotThen_some ci close post : forall q,
  noLineTerminator q = true ->
  exists x, lazyDotThen ci close (q ++ close ++ post) = Some x.
Proof.
  induction q as [|c q IH]; intros Hn.
  - exists []. simpl. eapply lazyDotThen_here, literal_app.
  - simpl in Hn. apply andb_prop in Hn as [Hc Hn].
    apply negb_true_iff in Hc. destruct (IH Hn) as [x Hx].
    simpl. destruct (literal ci close (c :: q ++ close ++ post)); [eauto|].
    rewrite Hc, Hx. simpl. eauto.
Qed.

(** A group of the lazy star means that [close] occurs. *)
Lemma lazyDotThen_includes ci close : forall s x,
  lazyDotThen ci close s = Some x -> includes ci close s = true.
Proof.
  induction s as [|c s IH]; simpl; intros x H.
  - destruct (literal ci close []); [reflexivity|discriminate].
  - destruct (literal ci close (c :: s)); [reflexivity|].
    destruct (isLineTerminator c); [discriminate|].
    destruct (lazyDotThen ci close s) eqn:E; [|discriminate]. eauto.
Qed.

Lemma includes_grow ci p : forall s1 s2,
  includes ci p s2 = true -> includes ci p (s1 ++ s2) = true.
Proof.
  intros s1 s2 H. destruct (includes ci p (s1 ++ s2)) eqn:E; [reflexivity|].
  apply includes_back in E. congruence.
Qed.

Lemma spacesThen_all {A} (k : jsstring -> option A) r x : forall ws,
  allWhiteSpace ws = true -> headIsSpace r = false -> k r = Some x ->
  spacesThen k (ws ++ r) = Some x.
Proof.
  induction ws as [|c ws IH]; intros Hw Hr Hk.
  - destruct r as [|c r]; simpl in *; [assumption|]. now rewrite Hr.
  - simpl in *. apply andb_prop in Hw as [Hc Hw]. rewrite Hc.
    now rewrite IH.
Qed.

Lemma spacesThen_some {A} (k : jsstring -> option A) r x :
  k r = Some x -> forall ws,
  allWhiteSpace ws = true -> exists y, spacesThen k (ws ++ r) = Some y.
Proof.
  intros Hk. induction ws as [|c ws IH]; intros Hw.
  - destruct r as [|c r]; simpl; [eauto|].
    destruct (isWhiteSpace c); [|eauto].
    destruct (spacesThen k r); eauto.
  - simpl in *. apply andb_prop in Hw as [Hc Hw]. rewrite Hc.
    destruct (IH Hw) as [y Hy]. rewrite Hy. eauto.
Qed.

(** [matchTag] on a text whose first [open] is followed by [q] and [close]. *)
Lemma tag_exact ci open close pre q post :
  borderless ci open = true -> borderless ci close = true ->
  includes ci open pre = false ->
  includes ci close q = false ->
  noLineTerminator q = true ->
  firstMatch (tagAt ci open close) (pre ++ open ++ q ++ close ++ post)
  = Some q.
Proof.
  intros Ho Hc Hpre Hq Hn.
  rewrite firstMatch_skip.
  - apply firstMatch_here. unfold tagAt.
    now rewrite literal_app, lazyDotThen_exact.
  - intros p1 p2 -> Hp. unfold tagAt.
    now rewrite (no_early_literal ci open p1 p2).
Qed.

(** Without [close] in the text no closed tag matches. *)
Lemma tag_needs_close ci open close s :
  includes ci close s = false ->
  firstMatch (tagAt ci open close) s = None.
Proof.
  intros H. apply firstMatch_none. intros s1 s2 ->. unfold tagAt.
  destruct (literal ci open s2) as [r|] eqn:E; [|reflexivity].
  destruct (lazyDotThen ci close r) eqn:L; [|reflexivity].
  apply lazyDotThen_includes in L.
  destruct (literal_suffix _ _ _ _ E) as (f & -> & _).
  rewrite app_assoc in H.
  rewrite (includes_grow ci close (s1 ++ f) r L) in H. discriminate.
Qed.

Lemma includes_here ci p s r : literal ci p s = Some r -> includes ci p s = true.
Proof. intros H. destruct s; simpl; now rewrite H. Qed.

Lemma firstMatch_next {A} (m : jsstring -> option A) c s :
  m (c :: s) = None -> firstMatch m (c :: s) = firstMatch m s.
Proof. intros H. simpl. now rewrite H. Qed.

(** A line terminator before any [close] stops the lazy star. *)
Lemma lazyDotThen_blocked ci close lt rest : forall q,
  forallb (fun x => negb (ceq ci x lt)) close = true ->
  includes ci close q = false ->
  isLineTerminator lt = true ->
  lazyDotThen ci close (q ++ lt :: rest) = None.
Proof.
  intros q Hc. induction q as [|c q IH]; intros Hi Hl.
  - simpl. destruct (literal ci close (lt :: rest)) eqn:E.
    + destruct (literal_inside ci lt rest [] close _ Hc E) as [r' E'].
      apply includes_split with (s1 := []) in Hi. simpl in Hi. congruence.
    + now rewrite Hl.
  - simpl. destruct (literal ci close (c :: q ++ lt :: rest)) eqn:E.
    + destruct (literal_inside ci lt rest (c :: q) close _ Hc E) as [r' E'].
      apply includes_split with (s1 := []) in Hi. simpl in Hi. congruence.
    + destruct (isLineTerminator c); [reflexivity|].
      rewrite IH; auto.
      change (c :: q) with ([c] ++ q) in Hi. now apply includes_back in Hi.
Qed.

Lemma lineTerminator_cases lt :
  isLineTerminator lt = true ->
  lt = 10%N \/ lt = 13%N \/ lt = 8232%N \/ lt = 8233%N.
Proof.
  unfold isLineTerminator. intros H.
  repeat (apply orb_true_iff in H as [H|H]);
    apply N.eqb_eq in H; auto.
Qed.

End PatternFacts.

(** ** Tag detection *)

Example tagDetection_image :
  tagDetection (js "I'll generate that image! <IMAGE>a cute cat</IMAGE>")
               (js "draw a cute cat")
  = Some (IMAGE, js "a cute cat").
Proof. vm_compute. reflexivity. Qed.

Example tagDetection_deep_cue :
  tagDetection (js "<SEARCH>Deep  rust async</SEARCH> <SEARCH>x</SEARCH>")
               (js "p")
  = Some (DEEP_SEARCH, js "rust async").
Proof. vm_compute. reflexivity. Qed.

Example tagDetection_bare_think :
  tagDetection (js "Hmm. <THINK>") (js "why is the sky blue")
  = Some (THINK, js "why is the sky blue").
Proof. vm_compute. reflexivity. Qed.

Example tagDetection_none :
  tagDetection (js "Paris :)") (js "capital of France?") = None.
Proof. vm_compute. reflexivity. Qed.

Section TagDetection.

Import PatternFacts.

Lemma deepCueAt_marker ws q post :
  truthy ws = true -> allWhiteSpace ws = true ->
  headIsSpace q = false ->
  includes true (js "</SEARCH>") q = false ->
  noLineTerminator q = true ->
  deepCueAt (js "<SEARCH>deep" ++ ws ++ q ++ js "</SEARCH>" ++ post) = Some q.
Proof.
  intros Ht Hw Hh Hi Hn. unfold deepCueAt. rewrite literal_app.
  destruct ws as [|c ws]; [discriminate|].
  simpl in Hw. apply andb_prop in Hw as [Hc Hw].
  change ((c :: ws) ++ q ++ js "</SEARCH>" ++ post)
    with (c :: ws ++ q ++ js "</SEARCH>" ++ post).
  unfold spacesPlusThen. rewrite Hc.
  apply spacesThen_all; auto.
  - destruct q; [reflexivity | assumption].
  - now apply lazyDotThen_exact.
Qed.

Lemma deepCueAt_marker_some ws q post :
  truthy ws = true -> allWhiteSpace ws = true ->
  noLineTerminator q = true ->
  exists x,
    deepCueAt (js "<SEARCH>deep" ++ ws ++ q ++ js "</SEARCH>" ++ post)
    = Some x.
Proof.
  intros Ht Hw Hn. unfold deepCueAt. rewrite literal_app.
  destruct ws as [|c ws]; [discriminate|].
  simpl in Hw. apply andb_prop in Hw as [Hc Hw].
  change ((c :: ws) ++ q ++ js "</SEARCH>" ++ post)
    with (c :: ws ++ q ++ js "</SEARCH>" ++ post).
  unfold spacesPlusThen. rewrite Hc.
  destruct (lazyDotThen_some true (js "</SEARCH>") post q Hn) as [x Hx].
  eapply spacesThen_some; eauto.
Qed.

Lemma matchDeepCue_first pre ws q post :
  includes true (js "<SEARCH>deep") pre = false ->
  truthy ws = true -> allWhiteSpace ws = true ->
  headIsSpace q = false ->
  includes true (js "</SEARCH>") q = false ->
  noLineTerminator q = true ->
  matchDeepCue (pre ++ js "<SEARCH>deep" ++ ws ++ q ++ js "</SEARCH>" ++ post)
  = Some q.
Proof.
  intros Hpre Ht Hw Hh Hi Hn. unfold matchDeepCue.
  rewrite firstMatch_skip.
  - apply firstMatch_here. now apply deepCueAt_marker.
  - intros p1 p2 -> Hp. unfold deepCueAt.
    now rewrite (no_early_literal true (js "<SEARCH>deep") p1 p2).
Qed.

Lemma tagDetection_deep g prompt p :
  deepMatch g = Some p -> tagDetection g prompt = Some (DEEP_SEARCH, p).
Proof. intros H. unfold tagDetection. now rewrite H. Qed.

Lemma tagDetection_think g prompt m :
  deepMatch g = None -> searchMatch g = None -> thinkMatch g = Some m ->
  tagDetection g prompt = Some (THINK, thinkPayload m prompt).
Proof. intros Hd Hs Ht. unfold tagDetection. now rewrite Hd, Hs, Ht. Qed.

Lemma matchBare_found open : forall g,
  includes false open g = true -> matchBare open g = Some tt.
Proof.
  unfold matchBare. induction g as [|c g IH]; simpl; intros H.
  - now destruct (literal false open []).
  - destruct (literal false open (c :: g)); auto.
Qed.

(** A reasoning marker that is the only one of the text and whose payload
    runs into a line terminator before its closing tag is not matched by
    the closed pattern. *)
Lemma think_broken_line pre q1 lt rest :
  isLineTerminator lt = true ->
  includes false (js "<THINK>") pre = false ->
  includes false (js "</THINK>") q1 = false ->
  includes false (js "<THINK>") (q1 ++ lt :: rest) = false ->
  matchTag (js "<THINK>") (js "</THINK>")
           (pre ++ js "<THINK>" ++ q1 ++ lt :: rest) = None.
Proof.
  intros Hl Hpre Hq Hrest. unfold matchTag.
  rewrite firstMatch_skip.
  2:{ intros p1 p2 -> Hp. unfold tagAt.
      now rewrite (no_early_literal false (js "<THINK>") p1 p2). }
  assert (B : lazyDotThen false (js "</THINK>") (q1 ++ lt :: rest) = None).
  { apply lazyDotThen_blocked; auto.
    destruct (lineTerminator_cases lt Hl) as [E|[E|[E|E]]]; rewrite E;
      reflexivity. }
  change (js "<THINK>" ++ q1 ++ lt :: rest)
    with (60 :: 84 :: 72 :: 73 :: 78 :: 75 :: 62 :: q1 ++ lt :: rest)%N.
  rewrite firstMatch_next.
  2:{ change (60 :: 84 :: 72 :: 73 :: 78 :: 75 :: 62 :: q1 ++ lt :: rest)%N
        with (js "<THINK>" ++ q1 ++ lt :: rest).
      unfold tagAt. now rewrite literal_app. }
  do 6 (rewrite firstMatch_next by reflexivity).
  apply firstMatch_none. intros s1 s2 E. unfold tagAt.
  rewrite E in Hrest. now rewrite (includes_split _ _ _ _ Hrest).
Qed.

End TagDetection.

(** C2, as the code has it. A text that holds a search marker opening with
    the deep-research cue ([<SEARCH>deep], then white space [ws], then the
    rest [q] on one line, then [</SEARCH>]) is routed to DEEP_SEARCH and
    never to SEARCH, whatever stands before and after the marker (plain
    search markers included). The payload is the group of a [<DEEP>] marker
    when the text has one, as that pattern is tried first; without one, and
    when the cued marker is the first that opens with the cue, the payload
    is [q], the rest of the marker's payload after the cue. *)
Theorem deep_cue_before_search (pre ws q post prompt : jsstring) :
  truthy ws = true -> allWhiteSpace ws = true -> noLineTerminator q = true ->
  let g := pre ++ js "<SEARCH>deep" ++ ws ++ q ++ js "</SEARCH>" ++ post in
  (exists p, tagDetection g prompt = Some (DEEP_SEARCH, p))
  /\ (forall d, matchTag (js "<DEEP>") (js "</DEEP>") g = Some d ->
        tagDetection g prompt = Some (DEEP_SEARCH, d))
  /\ (matchTag (js "<DEEP>") (js "</DEEP>") g = None ->
      includes true (js "<SEARCH>deep") pre = false ->
      headIsSpace q = false ->
      includes true (js "</SEARCH>") q = false ->
      tagDetection g prompt = Some (DEEP_SEARCH, q)).
Proof.
  intros Ht Hw Hn g. repeat split.
  - destruct (matchTag (js "<DEEP>") (js "</DEEP>") g) as [d|] eqn:D.
    + exists d. apply tagDetection_deep. unfold deepMatch. now rewrite D.
    + destruct (deepCueAt_marker_some ws q post Ht Hw Hn) as [x Hx].
      destruct (PatternFacts.firstMatch_found deepCueAt _ x pre Hx) as [y Hy].
      exists y. apply tagDetection_deep. unfold deepMatch. rewrite D.
      exact Hy.
  - intros d D. apply tagDetection_deep. unfold deepMatch. now rewrite D.
  - intros D Hpre Hh Hi. apply tagDetection_deep. unfold deepMatch.
    rewrite D. simpl. now apply matchDeepCue_first.
Qed.

Lemma deep_cue_before_search_witness :
  tagDetection
    (js "<SEARCH>cats</SEARCH> <SEARCH>deep rust async</SEARCH> <SEARCH>x</SEARCH>")
    (js "tell me about rust")
  = Some (DEEP_SEARCH, js "rust async").
Proof.
  exact (proj2 (proj2
    (deep_cue_before_search (js "<SEARCH>cats</SEARCH> ") (js " ")
       (js "rust async") (js " <SEARCH>x</SEARCH>") (js "tell me about rust")
       eq_refl eq_refl eq_refl))
    eq_refl eq_refl eq_refl eq_refl).
Defined.

(** C2 as stated fails on two texts that hold both a deep-cued search marker
    and a plain one: with a [<DEEP>] marker in the text the payload is that
    marker's, not the rest after the cue; and when the payload of the cued
    marker runs over a line break, neither pattern sees that marker and the
    plain search marker is selected. *)
Lemma deep_cue_counterexample :
  tagDetection
    (js "<DEEP>moon</DEEP> <SEARCH>deep tides</SEARCH> <SEARCH>sun</SEARCH>")
    (js "p")
  = Some (DEEP_SEARCH, js "moon")
  /\ tagDetection
       (js "<SEARCH>deep tides" ++ nl
        ++ js "and waves</SEARCH> <SEARCH>sun</SEARCH>")
       (js "p")
     = Some (SEARCH, js "sun").
Proof. split; vm_compute; reflexivity. Qed.

(** C9, as the code has it, for a text in which no deep-research or search
    marker is recognised (those are tried first). A text with an opening
    reasoning tag and no closing tag is routed to THINK with the prompt of
    the turn. A text whose first reasoning marker is closed, with its
    payload [q] on one line, is routed to THINK with [q] trimmed, or with
    the prompt of the turn when [q] is empty. A text whose only reasoning
    marker has a line terminator between its opening tag and the first
    closing tag is routed to THINK with the prompt of the turn. *)
Theorem think_payload_default (g prompt : jsstring) :
  deepMatch g = None -> searchMatch g = None ->
  (includes false (js "<THINK>") g = true ->
   includes false (js "</THINK>") g = false ->
   tagDetection g prompt = Some (THINK, prompt))
  /\ (forall pre q post,
        g = pre ++ js "<THINK>" ++ q ++ js "</THINK>" ++ post ->
        includes false (js "<THINK>") pre = false ->
        includes false (js "</THINK>") q = false ->
        noLineTerminator q = true ->
        tagDetection g prompt
        = Some (THINK, if truthy q then trim q else prompt))
  /\ (forall pre q1 lt rest,
        g = pre ++ js "<THINK>" ++ q1 ++ lt :: rest ->
        isLineTerminator lt = true ->
        includes false (js "<THINK>") pre = false ->
        includes false (js "</THINK>") q1 = false ->
        includes false (js "<THINK>") (q1 ++ lt :: rest) = false ->
        tagDetection g prompt = Some (THINK, prompt)).
Proof.
  intros Hd Hs. split; [|split].
  - intros Ho Hc.
    rewrite (tagDetection_think g prompt None Hd Hs); [reflexivity|].
    unfold thinkMatch, matchTag.
    rewrite PatternFacts.tag_needs_close by assumption. simpl.
    now rewrite matchBare_found.
  - intros pre q post -> Hpre Hq Hn.
    rewrite (tagDetection_think _ prompt (Some q) Hd Hs); [reflexivity|].
    unfold thinkMatch, matchTag.
    now rewrite PatternFacts.tag_exact.
  - intros pre q1 lt rest -> Hl Hpre Hq Hrest.
    rewrite (tagDetection_think _ prompt None Hd Hs); [reflexivity|].
    unfold thinkMatch. rewrite think_broken_line by assumption. simpl.
    rewrite matchBare_found; [reflexivity|].
    apply PatternFacts.includes_grow.
    eapply PatternFacts.includes_here. reflexivity.
Qed.

Lemma think_payload_default_witness :
  tagDetection (js "Let me think. <THINK>") (js "why is the sky blue")
  = Some (THINK, js "why is the sky blue")
  /\ tagDetection (js "Sure. <THINK>  count the primes </THINK>")
                  (js "how many primes below 100")
     = Some (THINK, js "count the primes").
Proof.
  split.
  - exact (proj1
      (think_payload_default (js "Let me think. <THINK>")
         (js "why is the sky blue") eq_refl eq_refl) eq_refl eq_refl).
  - exact (proj1 (proj2
      (think_payload_default (js "Sure. <THINK>  count the primes </THINK>")
         (js "how many primes below 100") eq_refl eq_refl))
      (js "Sure. ") (js "  count the primes ") [] eq_refl eq_refl eq_refl
      eq_refl).
Defined.

(** C9 as stated fails on two texts: a closed reasoning marker whose payload
    runs over a line break is not seen by the closed pattern, only its
    opening tag is, and the prompt of the turn is used in place of the
    trimmed payload; and with a search marker in the text the unterminated
    reasoning tag is not the one selected. *)
Lemma think_payload_counterexample :
  tagDetection (js "<THINK>" ++ nl ++ js "compare both plans" ++ nl
                ++ js "</THINK>")
               (js "which plan is cheaper")
  = Some (THINK, js "which plan is cheaper")
  /\ trim (nl ++ js "compare both plans" ++ nl) = js "compare both plans"
  /\ tagDetection (js "<SEARCH>plan prices</SEARCH> <THINK>")
                  (js "which plan is cheaper")
     = Some (SEARCH, js "plan prices").
Proof. repeat split; vm_compute; reflexivity. Qed.

(** ** The routing loop *)

Module LoopFacts.

Lemma grows_refl st : grows st st.
Proof. split; [reflexivity|]. exists []. now rewrite app_nil_r. Qed.

Lemma grows_trans st1 st2 st3 : grows st1 st2 -> grows st2 st3 -> grows st1 st3.
Proof.
  intros [L1 [t1 T1]] [L2 [t2 T2]]. split; [congruence|].
  exists (t1 ++ t2). now rewrite T2, T1, app_assoc.
Qed.

Ltac same_text :=
  split; [reflexivity | exists []; simpl; now rewrite app_nil_r].

Lemma grows_emit c st : grows st (emit c st).
Proof. same_text. Qed.

Lemma grows_appendText t st : grows st (appendText t st).
Proof. split; [reflexivity|]. now exists t. Qed.

Lemma grows_streamText t st : grows st (streamText t st).
Proof. split; [reflexivity|]. now exists t. Qed.

Lemma grows_pushGrounding gs st : grows st (pushGrounding gs st).
Proof. same_text. Qed.

Lemma grows_proposeMemory p st : grows st (proposeMemory p st).
Proof. same_text. Qed.

Lemma grows_reroute a p st : grows st (reroute a p st).
Proof. same_text. Qed.

Create HintDb grows.

#[local] Hint Resolve grows_refl grows_emit grows_appendText grows_streamText
  grows_pushGrounding grows_proposeMemory grows_reroute : grows.

Lemma grows_fold {A} (f : TurnState -> A -> TurnState) :
  (forall st a, grows st (f st a)) ->
  forall l st, grows st (fold_left f l st).
Proof.
  intros Hf. induction l as [|a l IH]; intros st; simpl.
  - apply grows_refl.
  - eapply grows_trans; [apply Hf | apply IH].
Qed.

Lemma grows_plainChunk st c : grows st (plainChunk st c).
Proof. unfold plainChunk. destruct (chunkText c); auto with grows. Qed.

Lemma grows_searchChunk st c : grows st (searchChunk st c).
Proof.
  unfold searchChunk. destruct (chunk_grounding c).
  - eapply grows_trans; [apply grows_plainChunk | apply grows_pushGrounding].
  - apply grows_plainChunk.
Qed.

Lemma simpleChunk_step g st c :
  exists t,
    fst (simpleChunk (g, st) c) = g ++ t
    /\ finalResponseText (snd (simpleChunk (g, st) c))
       = finalResponseText st ++ t
    /\ loopCount (snd (simpleChunk (g, st) c)) = loopCount st.
Proof.
  unfold simpleChunk. simpl. destruct (chunkText c) as [t|].
  - exists t. destruct (chunk_grounding c); auto.
  - exists []. now rewrite !app_nil_r.
Qed.

(** The SIMPLE stream appends the same text to [generatedThisLoop] and to
    the accumulated text. *)
Lemma simpleChunk_fold : forall l g st,
  exists t,
    fst (fold_left simpleChunk l (g, st)) = g ++ t
    /\ finalResponseText (snd (fold_left simpleChunk l (g, st)))
       = finalResponseText st ++ t
    /\ loopCount (snd (fold_left simpleChunk l (g, st))) = loopCount st.
Proof.
  induction l as [|c l IH]; intros g st; simpl.
  - exists []. now rewrite !app_nil_r.
  - destruct (simpleChunk_step g st c) as (t & E1 & E2 & E3).
    destruct (simpleChunk (g, st) c) as [g1 st1]. simpl in E1, E2, E3.
    destruct (IH g1 st1) as (u & F1 & F2 & F3).
    exists (t ++ u). rewrite F1, F2, F3, E1, E2, E3.
    now rewrite !app_assoc.
Qed.

Lemma simpleChunk_fold_pair l g st g1 st1 :
  fold_left simpleChunk l (g, st) = (g1, st1) ->
  exists t,
    g1 = g ++ t
    /\ finalResponseText st1 = finalResponseText st ++ t
    /\ loopCount st1 = loopCount st.
Proof.
  intros F. destruct (simpleChunk_fold l g st) as (t & E1 & E2 & E3).
  rewrite F in E1, E2, E3. eauto.
Qed.

Lemma grows_afterStream inp s st0 st :
  grows st0 st -> grows st0 (stateOf (afterStream inp s st)).
Proof. unfold afterStream, finish. now destruct (failure s). Qed.

(** Every executor leaves [loopCount] alone and only appends to the
    accumulated text, however it ends. *)
Lemma execute_grows C inp st : grows st (stateOf (execute C inp st)).
Proof.
  unfold execute. destruct (currentAction st).
  - (* SIMPLE *)
    unfold executeSIMPLE. destruct (readFiles (files inp)); [apply grows_refl|].
    destruct (fold_left simpleChunk _ ([], st)) as [g st1] eqn:F.
    destruct (simpleChunk_fold_pair _ _ _ _ _ F) as (t & E1 & E2 & E3).
    assert (G : grows st st1) by (split; [exact E3 | exists t; exact E2]).
    destruct (failure _); [exact G|].
    destruct (tagDetection g (prompt inp)) as [[a p]|]; simpl.
    + eapply grows_trans; [exact G | apply grows_reroute].
    + destruct (50 <? List.length g); [|exact G].
      eapply grows_trans; [exact G | apply grows_proposeMemory].
  - (* SEARCH *)
    unfold executeSEARCH. apply grows_afterStream.
    eapply grows_trans; [apply grows_emit|].
    apply grows_fold. apply grows_searchChunk.
  - (* DEEP_SEARCH *)
    unfold executeDEEP_SEARCH.
    destruct (deepResearch C _) as [progress result].
    assert (G : grows st
      (fold_left (fun s msg => emit (nl ++ js "*" ++ msg ++ js "*") s) progress
         (emit (nl ++ nl ++ js "Deep Researching...") st))).
    { eapply grows_trans; [apply grows_emit|].
      apply grows_fold. intros; apply grows_emit. }
    destruct result as [r|e]; simpl; [|exact G].
    eapply grows_trans; [exact G|].
    eapply grows_trans; [apply grows_appendText | apply grows_emit].
  - (* THINK *)
    unfold executeTHINK. destruct (incrementThinkingCount C).
    + apply grows_afterStream.
      eapply grows_trans; [apply grows_emit|].
      apply grows_fold. apply grows_plainChunk.
    + apply grows_emit.
  - (* IMAGE *)
    unfold executeIMAGE. destruct (generateImage C _); simpl.
    + apply grows_emit.
    + eapply grows_trans; [apply grows_emit | apply grows_streamText].
  - (* PROJECT *)
    unfold executePROJECT. destruct (generateContent C _); simpl.
    + eapply grows_trans; [apply grows_emit | apply grows_streamText].
    + apply grows_emit.
  - (* CANVAS *)
    unfold executeCANVAS. apply grows_afterStream.
    apply grows_fold. apply grows_plainChunk.
  - (* STUDY *)
    unfold executeSTUDY. apply grows_afterStream.
    eapply grows_trans; [apply grows_emit|].
    apply grows_fold. apply grows_plainChunk.
Qed.

End LoopFacts.

Section LoopBound.

Variable exec : TurnState -> Outcome.

Lemma whileLoop_done fuel st :
  (loopCount st <? MAX_LOOPS) = false ->
  whileLoop exec fuel st = Some {| invocations := []; ending := Exhausted st |}.
Proof. intros H. destruct fuel; simpl; now rewrite H. Qed.


Hypothesis exec_keeps : forall st, loopCount (stateOf (exec st)) = loopCount st.

(** The loop stops within [MAX_LOOPS - loopCount] invocations; when it
    stops because the count is used up, it has made exactly that many. *)
Lemma whileLoop_enough : forall n st,
  MAX_LOOPS - loopCount st = n ->
  exists run,
    (forall fuel, n <= fuel -> whileLoop exec fuel st = Some run)
    /\ List.length (invocations run) <= n
    /\ (forall st', ending run = Exhausted st' ->
          List.length (invocations run) = n
          /\ st' = lastState st (invocations run)).
Proof.
  induction n as [|n IH]; intros st Hn.
  - assert (E : (loopCount st <? MAX_LOOPS) = false)
      by (apply Nat.ltb_ge; lia).
    exists {| invocations := []; ending := Exhausted st |}. repeat split.
    + intros fuel _. now apply whileLoop_done.
    + simpl. lia.
    + simpl in *. congruence.
  - assert (E : (loopCount st <? MAX_LOOPS) = true)
      by (apply Nat.ltb_lt; lia).
    pose proof (exec_keeps (incrLoopCount st)) as K.
    destruct (exec (incrLoopCount st)) as [m st2|st2|e st2] eqn:X.
    + exists {| invocations := [(incrLoopCount st, Return m st2)];
                ending := Returned m |}.
      repeat split; simpl; try lia; try discriminate.
      intros [|fuel] Hf; [lia|]. simpl. now rewrite E, X.
    + simpl in K.
      destruct (IH st2) as (r & Hr & Hl & Hx); [lia|].
      exists {| invocations := (incrLoopCount st, Continue st2) :: invocations r;
                ending := ending r |}.
      repeat split; simpl; try lia.
      * intros [|fuel] Hf; [lia|]. simpl. rewrite E, X.
        now rewrite (Hr fuel) by lia.
      * destruct (Hx _ H). lia.
      * now destruct (Hx _ H).
    + exists {| invocations := [(incrLoopCount st, Throw e st2)];
                ending := Caught e |}.
      repeat split; simpl; try lia; try discriminate.
      intros [|fuel] Hf; [lia|]. simpl. now rewrite E, X.
Qed.

End LoopBound.

(** A turn always ends: with [MAX_LOOPS] units of fuel or more the model
    gives the same run. *)
Lemma turn_returns (C : Collaborators) (inp : AgentInput) :
  exists run, forall fuel, MAX_LOOPS <= fuel -> turn C inp fuel = Some run.
Proof.
  unfold turn. destruct (route C) as [routing|e].
  - destruct (getContext C) as [u|e].
    + destruct (whileLoop_enough (execute C inp)
                  (fun st => proj1 (LoopFacts.execute_grows C inp st))
                  MAX_LOOPS (initialState inp routing) eq_refl)
        as (run & Hf & _).
      now exists run.
    + now eexists.
  - now eexists.
Qed.


(** C1. The routing loop, whatever its body does short of touching
    [loopCount] (no executor does), ends within [MAX_LOOPS] = 2 executor
    invocations, be it that the body asks for a re-route every time; when it
    ends because the count is used up, it has made exactly [MAX_LOOPS]
    invocations and the turn yields the text accumulated by the last of
    them. So does every turn of [runAutonomousAgent]: it returns a result
    after at most [MAX_LOOPS] executor invocations. *)
Theorem routing_loop_bounded :
  MAX_LOOPS = 2
  /\ (forall exec,
     (forall st, loopCount (stateOf (exec st)) = loopCount st) ->
     forall st0, loopCount st0 = 0 ->
     exists run,
       (forall fuel, MAX_LOOPS <= fuel -> whileLoop exec fuel st0 = Some run)
       /\ List.length (invocations run) <= MAX_LOOPS
       /\ (forall st, ending run = Exhausted st ->
             List.length (invocations run) = MAX_LOOPS
             /\ st = lastState st0 (invocations run)
             /\ forall C inp,
                  exists m, messages (resultOf C inp run) = [m]
                            /\ am_text m = finalResponseText st))
  /\ (forall C inp,
        exists run,
          (forall fuel, MAX_LOOPS <= fuel -> turn C inp fuel = Some run)
          /\ runAutonomousAgent C inp = Some (resultOf C inp run)
          /\ List.length (invocations run) <= MAX_LOOPS
          /\ (forall st, ending run = Exhausted st ->
                exists m, messages (resultOf C inp run) = [m]
                          /\ am_text m = finalResponseText st)).
Proof.
  assert (G : forall exec,
     (forall st, loopCount (stateOf (exec st)) = loopCount st) ->
     forall st0, loopCount st0 = 0 ->
     exists run,
       (forall fuel, MAX_LOOPS <= fuel -> whileLoop exec fuel st0 = Some run)
       /\ List.length (invocations run) <= MAX_LOOPS
       /\ (forall st, ending run = Exhausted st ->
             List.length (invocations run) = MAX_LOOPS
             /\ st = lastState st0 (invocations run)
             /\ forall C inp,
                  exists m, messages (resultOf C inp run) = [m]
                            /\ am_text m = finalResponseText st)).
  { intros exec Hk st0 H0.
    destruct (whileLoop_enough exec Hk MAX_LOOPS st0) as (run & Hf & Hl & Hx).
    - rewrite H0. reflexivity.
    - exists run. repeat split; auto.
      + now destruct (Hx _ H).
      + now destruct (Hx _ H).
      + intros C inp. unfold resultOf. rewrite H. eexists. split; reflexivity. }
  split; [reflexivity|]. split; [exact G|].
  intros C inp. unfold runAutonomousAgent, turn.
  destruct (route C) as [routing|e].
  - destruct (getContext C) as [u|e].
    + destruct (G (execute C inp)
                  (fun st => proj1 (LoopFacts.execute_grows C inp st))
                  (initialState inp routing) eq_refl)
        as (run & Hf & Hl & Hx).
      exists run. repeat split; auto.
      * rewrite (Hf MAX_LOOPS) by lia. reflexivity.
      * intros st E. destruct (Hx _ E) as (_ & _ & Hm). apply Hm.
    + exists {| invocations := []; ending := Caught e |}.
      repeat split; simpl; try reflexivity; try discriminate.
      unfold MAX_LOOPS; lia.
  - exists {| invocations := []; ending := Caught e |}.
    repeat split; simpl; try reflexivity; try discriminate.
    unfold MAX_LOOPS; lia.
Qed.

Lemma routing_loop_bounded_witness :
  exists run,
    whileLoop alwaysContinue MAX_LOOPS
      (initialState (ask (js "why"))
         {| action := SIMPLE; parameters_prompt := None |})
    = Some run
    /\ List.length (invocations run) <= MAX_LOOPS.
Proof.
  destruct (proj1 (proj2 routing_loop_bounded) alwaysContinue (fun _ => eq_refl)
              (initialState (ask (js "why"))
                 {| action := SIMPLE; parameters_prompt := None |}) eq_refl)
    as (run & Hf & Hl & _).
  exists run. split; [apply Hf, le_n | exact Hl].
Defined.

(** A body that asks for a re-route every time is stopped after two
    invocations, with what they accumulated. *)
Example alwaysContinue_exhausts :
  option_map (fun r => (texts r,
                        match ending r with
                        | Exhausted st => Some (finalResponseText st)
                        | _ => None
                        end))
    (whileLoop alwaysContinue MAX_LOOPS
       (initialState (ask (js "why"))
          {| action := SIMPLE; parameters_prompt := None |}))
  = Some ([js "<THINK>"; js "<THINK><THINK>"], Some (js "<THINK><THINK>")).
Proof. vm_compute. reflexivity. Qed.


(** A turn in which the image backend fails: the result is the text the
    SIMPLE handler streamed, tag included, with the note appended; nothing
    reaches the [catch] of [runAutonomousAgent]. *)
Example image_failure_inline :
  option_map (fun r => map (fun m => (am_text m, am_image_base64 m))
                           (messages r))
             (runAutonomousAgent noImage (ask (js "draw a cat")))
  = Some [(js "Sure! <IMAGE>a cat</IMAGE>" ++ nl ++ nl
           ++ js "(Image generation failed: quota exceeded)", None)].
Proof. vm_compute. reflexivity. Qed.


(** ** Accumulated text *)

Module TextFacts.

Import LoopFacts PatternFacts.

Lemma whileLoop_append_only C inp : forall fuel st run,
  whileLoop (execute C inp) fuel st = Some run ->
  appendOnlyFrom (finalResponseText st) (texts run).
Proof.
  induction fuel as [|fuel IH]; intros st run H; simpl in H;
    destruct (loopCount st <? MAX_LOOPS); try discriminate;
    try (inversion H; subst; exact I).
  pose proof (execute_grows C inp (incrLoopCount st)) as [_ [t G]].
  destruct (execute C inp (incrLoopCount st)) as [m st2|st2|e st2].
  - inversion H; subst. simpl in *. split; [now exists t | exact I].
  - destruct (whileLoop (execute C inp) fuel st2) as [r|] eqn:W; [|discriminate].
    inversion H; subst. unfold texts. simpl in *.
    split; [now exists t | now apply IH].
  - inversion H; subst. simpl in *. split; [now exists t | exact I].
Qed.

(** A message an executor returns carries the accumulated text. *)
Lemma execute_return_text C inp st m st' :
  execute C inp st = Return m st' -> am_text m = finalResponseText st'.
Proof.
  unfold execute.
  destruct (currentAction st);
    unfold executeSIMPLE, executeSEARCH, executeDEEP_SEARCH, executeTHINK,
      executeIMAGE, executeCANVAS, executePROJECT, executeSTUDY,
      afterStream, finish;
    repeat match goal with
      | |- context [match ?x with _ => _ end] => destruct x eqn:?
      end;
    intros H; inversion H; subst; reflexivity.
Qed.

(** Only the SIMPLE executor asks to continue: it found a tag in the text
    it generated and appended to the accumulated text. *)
Lemma execute_continue C inp st st1 :
  execute C inp st = Continue st1 ->
  exists g a p,
    tagDetection g (prompt inp) = Some (a, p)
    /\ finalResponseText st1 = finalResponseText st ++ g
    /\ currentAction st1 = a /\ currentPrompt st1 = p.
Proof.
  unfold execute.
  destruct (currentAction st);
    unfold executeSEARCH, executeDEEP_SEARCH, executeTHINK,
      executeIMAGE, executeCANVAS, executePROJECT, executeSTUDY,
      afterStream, finish;
    try solve [
      repeat match goal with
        | |- context [match ?x with _ => _ end] => destruct x eqn:?
        end; discriminate ].
  unfold executeSIMPLE, finish.
  destruct (readFiles (files inp)); [discriminate|].
  destruct (fold_left simpleChunk _ ([], st)) as [g st0] eqn:F.
  destruct (simpleChunk_fold_pair _ _ _ _ _ F) as (t & E1 & E2 & _).
  destruct (failure _); [discriminate|].
  destruct (tagDetection g (prompt inp)) as [[a p]|] eqn:T; [|discriminate].
  intros H. inversion H; subst. exists t, a, p. simpl. auto.
Qed.

Lemma includes_append ci p s t :
  includes ci p s = true -> includes ci p (s ++ t) = true.
Proof.
  intros H. destruct (includes ci p (s ++ t)) eqn:E; [reflexivity|].
  apply includes_front in E. congruence.
Qed.

Lemma matchTag_includes open close g x :
  matchTag open close g = Some x -> includes false open g = true.
Proof.
  intros H. apply firstMatch_origin in H as (s1 & s2 & -> & H).
  unfold tagAt in H. destruct (literal false open s2) eqn:L; [|discriminate].
  apply includes_grow. eapply includes_here; eauto.
Qed.

Lemma matchDeepCue_includes g x :
  matchDeepCue g = Some x -> includes true (js "<SEARCH>deep") g = true.
Proof.
  intros H. apply firstMatch_origin in H as (s1 & s2 & -> & H).
  unfold deepCueAt in H.
  destruct (literal true (js "<SEARCH>deep") s2) eqn:L; [|discriminate].
  apply includes_grow. eapply includes_here; eauto.
Qed.

Lemma matchBare_includes open g x :
  matchBare open g = Some x -> includes false open g = true.
Proof.
  intros H. apply firstMatch_origin in H as (s1 & s2 & -> & H).
  destruct (literal false open s2) eqn:L; [|discriminate].
  apply includes_grow. eapply includes_here; eauto.
Qed.

(** A detected tag stands in the text. *)
Lemma tagDetection_hasTag g prompt a p :
  tagDetection g prompt = Some (a, p) -> hasTag a g = true.
Proof.
  unfold tagDetection.
  destruct (deepMatch g) eqn:D.
  { intros H; inversion H; subst. simpl. unfold deepMatch, orElse in D.
    destruct (matchTag (js "<DEEP>") (js "</DEEP>") g) eqn:M.
    - now rewrite (matchTag_includes _ _ _ _ M).
    - rewrite (matchDeepCue_includes _ _ D). apply orb_true_r. }
  destruct (searchMatch g) eqn:S_.
  { intros H; inversion H; subst. exact (matchTag_includes _ _ _ _ S_). }
  destruct (thinkMatch g) eqn:T.
  { intros H; inversion H; subst. simpl. unfold thinkMatch, orElse in T.
    destruct (matchTag (js "<THINK>") (js "</THINK>") g) eqn:M.
    - exact (matchTag_includes _ _ _ _ M).
    - simpl in T. destruct (matchBare (js "<THINK>") g) eqn:B; [|discriminate].
      exact (matchBare_includes _ _ _ B). }
  destruct (imageMatch g) eqn:I_.
  { intros H; inversion H; subst. exact (matchTag_includes _ _ _ _ I_). }
  destruct (projectMatch g) eqn:P.
  { intros H; inversion H; subst. exact (matchTag_includes _ _ _ _ P). }
  destruct (canvasMatch g) eqn:C_.
  { intros H; inversion H; subst. exact (matchTag_includes _ _ _ _ C_). }
  destruct (studyMatch g) eqn:Y.
  { intros H; inversion H; subst. exact (matchTag_includes _ _ _ _ Y). }
  discriminate.
Qed.

Lemma hasTag_truthy a t : hasTag a t = true -> truthy t = true.
Proof. destruct t; [|reflexivity]. now destruct a. Qed.

Lemma hasTag_append a s t : hasTag a s = true -> hasTag a (s ++ t) = true.
Proof.
  destruct a; simpl; try discriminate; try apply includes_append.
  intros H. apply orb_true_iff in H as [H|H];
    apply (includes_append _ _ _ t) in H; rewrite H;
    [reflexivity | apply orb_true_r].
Qed.

(** The first invocation of a run, when it asked to continue. *)
Lemma whileLoop_first exec : forall fuel st run s s1,
  whileLoop exec fuel st = Some run ->
  nth_error (invocations run) 0 = Some (s, Continue s1) ->
  s = incrLoopCount st /\ exec s = Continue s1
  /\ exists fuel' run',
       whileLoop exec fuel' s1 = Some run' /\ ending run = ending run'.
Proof.
  intros [|fuel] st run s s1 H H0; simpl in H;
    destruct (loopCount st <? MAX_LOOPS); try discriminate;
    try (inversion H; subst; discriminate).
  destruct (exec (incrLoopCount st)) as [m st2|st2|e st2] eqn:X.
  - inversion H; subst. discriminate.
  - destruct (whileLoop exec fuel st2) as [r|] eqn:W; [|discriminate].
    inversion H; subst. simpl in H0. inversion H0; subst.
    repeat split; auto. now exists fuel, r.
  - inversion H; subst. discriminate.
Qed.

(** The message an executor returns at the end of a run holds the text
    accumulated when the run (or the rest of it) began. *)
Lemma whileLoop_returned_text C inp : forall fuel st run m,
  whileLoop (execute C inp) fuel st = Some run ->
  ending run = Returned m ->
  exists rest, am_text m = finalResponseText st ++ rest.
Proof.
  induction fuel as [|fuel IH]; intros st run m H He; simpl in H;
    destruct (loopCount st <? MAX_LOOPS); try discriminate;
    try (inversion H; subst; discriminate).
  pose proof (execute_grows C inp (incrLoopCount st)) as [_ [t G]].
  destruct (execute C inp (incrLoopCount st)) as [m2 st2|st2|e st2] eqn:X.
  - inversion H; subst. simpl in He. inversion He; subst.
    apply execute_return_text in X. simpl in G. exists t. now rewrite X, G.
  - destruct (whileLoop (execute C inp) fuel st2) as [r|] eqn:W; [|discriminate].
    inversion H; subst. simpl in He, G.
    destruct (IH _ _ _ W He) as [rest R].
    exists (t ++ rest). now rewrite R, G, app_assoc.
  - inversion H; subst. discriminate.
Qed.

(** A tag never routes back to SIMPLE. *)
Lemma tagDetection_terminal g prompt a p :
  tagDetection g prompt = Some (a, p) -> terminal a = true.
Proof.
  unfold tagDetection.
  repeat match goal with
    | |- context [match ?x with _ => _ end] => destruct x
    end;
    intros H; inversion H; reflexivity.
Qed.

(** The seven actions other than SIMPLE end the turn. *)
Lemma execute_ends C inp st :
  terminal (currentAction st) = true ->
  (exists m st', execute C inp st = Return m st')
  \/ (exists e st', execute C inp st = Throw e st').
Proof.
  unfold execute.
  destruct (currentAction st); [discriminate| | | | | | |]; intros _;
    unfold executeSEARCH, executeDEEP_SEARCH, executeTHINK,
      executeIMAGE, executeCANVAS, executePROJECT, executeSTUDY,
      afterStream, finish;
    repeat match goal with
      | |- context [match ?x with _ => _ end] => destruct x eqn:?
      end; eauto.
Qed.

(** In [runAutonomousAgent] the loop never runs out: the executor a tag
    re-routes to returns or throws. *)
Lemma turn_never_exhausted C inp run :
  turn C inp MAX_LOOPS = Some run ->
  (exists m, ending run = Returned m) \/ (exists e, ending run = Caught e).
Proof.
  unfold turn.
  destruct (route C) as [routing|e]; [destruct (getContext C) as [u|e]|].
  2,3: intros T; inversion T; subst; simpl; eauto.
  simpl.
  destruct (execute C inp (incrLoopCount (initialState inp routing)))
    as [m1 s1|s1|e1 s1] eqn:X1.
  1,3: intros T; inversion T; subst; simpl; eauto.
  pose proof (proj1 (execute_grows C inp
                       (incrLoopCount (initialState inp routing)))) as K.
  rewrite X1 in K. simpl in K. rewrite K. simpl.
  destruct (execute_continue _ _ _ _ X1) as (g & a & p & Tg & _ & Ha & _).
  apply tagDetection_terminal in Tg.
  assert (Hs : terminal (currentAction (incrLoopCount s1)) = true)
    by (simpl; now rewrite Ha).
  destruct (execute_ends C inp _ Hs) as [(m & s2 & X2)|(e & s2 & X2)];
    rewrite X2; intros T; inversion T; subst; simpl; eauto.
Qed.

(** Every text of an append-only list extends the text it starts from. *)
Lemma appendOnlyFrom_In : forall l t,
  appendOnlyFrom t l -> forall u, In u l -> exists rest, u = t ++ rest.
Proof.
  induction l as [|x l IH]; intros t A u Hu; [destruct Hu|].
  destruct A as [[s0 Hx] A]. destruct Hu as [<-|Hu].
  - now exists s0.
  - destruct (IH _ A _ Hu) as [rest R]. exists (s0 ++ rest).
    now rewrite R, Hx, app_assoc.
Qed.

End TextFacts.

(** C6, as the code has it. Within one turn the accumulated text only
    grows: the text after each executor invocation is the text after the
    one before it (at first the empty text) with something appended, which
    may be nothing. *)
Theorem accumulated_text_append_only (C : Collaborators) (inp : AgentInput) :
  exists run,
    turn C inp MAX_LOOPS = Some run
    /\ appendOnlyFrom [] (texts run).
Proof.
  destruct (turn_returns C inp) as (run & Hf).
  exists run. pose proof (Hf MAX_LOOPS (le_n _)) as T.
  split; [exact T|]. unfold turn in T.
  destruct (route C) as [routing|e]; [destruct (getContext C)|].
  - exact (TextFacts.whileLoop_append_only C inp _ _ _ T).
  - inversion T. exact I.
  - inversion T. exact I.
Qed.

(** C6 as stated fails on scenario B: the image step that follows the
    SIMPLE step appends nothing, so the text after the second iteration is
    the text after the first, not a strict extension of it. *)
Lemma accumulated_text_counterexample :
  option_map texts (turn drawCat (ask (js "draw a cute cat")) MAX_LOOPS)
  = Some [js "I'll generate that image! <IMAGE>a cute cat</IMAGE>";
          js "I'll generate that image! <IMAGE>a cute cat</IMAGE>"].
Proof. vm_compute. reflexivity. Qed.

(** C10, as the code has it. When the SIMPLE handler finds a tag and
    re-routes, the tag markup is never removed from the accumulated text:
    the text after every later invocation begins with everything the SIMPLE
    handler streamed, opening tag included. The turn then ends in one of two
    ways. Either the executor it re-routes to returns its result: the text
    of that result begins with everything the SIMPLE handler streamed, the
    opening tag that caused the re-route stands in it, and this text, tags
    and all, is the text of the record the chat hook hands to [addMessage].
    Or that executor throws: the result is the message of the [catch]
    block, whose text is "An error occurred: " followed by the user-facing
    message of the failure, and this is the text handed to [addMessage],
    whatever was accumulated. The loop never runs out after a re-route. *)
Theorem tags_stay_in_text (C : Collaborators) (inp : AgentInput)
    (run : Run) (st st1 : TurnState) :
  turn C inp MAX_LOOPS = Some run ->
  nth_error (invocations run) 0 = Some (st, Continue st1) ->
  exists a p,
    tagDetection (finalResponseText st1) (prompt inp) = Some (a, p)
    /\ currentAction st1 = a /\ currentPrompt st1 = p
    /\ hasTag a (finalResponseText st1) = true
    /\ (forall t, In t (texts run) ->
          hasTag a t = true /\ exists rest, t = finalResponseText st1 ++ rest)
    /\ match ending run with
       | Returned m =>
           (exists rest, am_text m = finalResponseText st1 ++ rest)
           /\ hasTag a (am_text m) = true
           /\ forall chat currentText,
                msg_text (aiDraft chat m currentText) = am_text m
       | Caught e =>
           messages (resultOf C inp run) = [errorMessage C inp e]
           /\ forall chat currentText,
                msg_text (aiDraft chat (errorMessage C inp e) currentText)
                = js "An error occurred: " ++ getUserFriendlyError C e
       | Exhausted _ => False
       end.
Proof.
  intros T H0.
  pose proof (TextFacts.turn_never_exhausted C inp run T) as Hend.
  unfold turn in T.
  destruct (route C) as [routing|e]; [destruct (getContext C) as [u|e]|];
    try (inversion T; subst; discriminate).
  pose proof (TextFacts.whileLoop_append_only _ _ _ _ _ T) as AO.
  destruct (TextFacts.whileLoop_first _ _ _ _ _ _ T H0)
    as (-> & X & fuel' & run' & W & E).
  destruct (TextFacts.execute_continue _ _ _ _ X)
    as (g & a & p & Tg & Tx & Ha & Hp).
  simpl in Tx. subst g.
  assert (Hg : hasTag a (finalResponseText st1) = true)
    by (eapply TextFacts.tagDetection_hasTag; eauto).
  exists a, p.
  split; [exact Tg|]. split; [exact Ha|]. split; [exact Hp|].
  split; [exact Hg|]. split.
  - intros t Ht. unfold texts in Ht, AO.
    destruct (invocations run) as [|i0 inv]; [discriminate|].
    simpl in H0. inversion H0; subst i0.
    simpl in AO, Ht. destruct AO as [_ AO].
    destruct Ht as [<-|Ht].
    + split; [exact Hg|]. exists []. now rewrite app_nil_r.
    + destruct (TextFacts.appendOnlyFrom_In _ _ AO _ Ht) as [rest R].
      split; [|now exists rest].
      rewrite R. now apply TextFacts.hasTag_append.
  - destruct (ending run) as [m|stx|e] eqn:En.
    + destruct (TextFacts.whileLoop_returned_text _ _ _ _ _ _ W (eq_sym E))
        as [rest R].
      assert (Hm : hasTag a (am_text m) = true)
        by (rewrite R; now apply TextFacts.hasTag_append).
      split; [now exists rest|]. split; [exact Hm|].
      intros chat currentText. unfold aiDraft, finalContent. simpl.
      now rewrite (TextFacts.hasTag_truthy _ _ Hm).
    + destruct Hend as [[m Hm]|[e He]]; discriminate.
    + split; [unfold resultOf; now rewrite En|].
      intros chat currentText. reflexivity.
Qed.

Lemma tags_stay_in_text_witness :
  exists a p,
    tagDetection (js "I'll generate that image! <IMAGE>a cute cat</IMAGE>")
                 (js "draw a cute cat") = Some (a, p)
    /\ IMAGE = a /\ js "a cute cat" = p
    /\ hasTag a (js "I'll generate that image! <IMAGE>a cute cat</IMAGE>")
       = true
    /\ (forall t,
          In t [js "I'll generate that image! <IMAGE>a cute cat</IMAGE>";
                js "I'll generate that image! <IMAGE>a cute cat</IMAGE>"] ->
          hasTag a t = true
          /\ exists rest,
               t = js "I'll generate that image! <IMAGE>a cute cat</IMAGE>"
                   ++ rest)
    /\ (exists rest,
          js "I'll generate that image! <IMAGE>a cute cat</IMAGE>"
          = js "I'll generate that image! <IMAGE>a cute cat</IMAGE>" ++ rest)
    /\ hasTag a (js "I'll generate that image! <IMAGE>a cute cat</IMAGE>")
       = true
    /\ forall chat currentText,
         msg_text
           (aiDraft chat
              {| am_project_id := js "p1"; am_chat_id := js "c1";
                 am_sender := ai;
                 am_text :=
                   js "I'll generate that image! <IMAGE>a cute cat</IMAGE>";
                 am_image_base64 := Some (js "iVBORw0KGgo=");
                 am_imageStatus := Some (js "complete");
                 am_metadata := noMetadata |} currentText)
         = js "I'll generate that image! <IMAGE>a cute cat</IMAGE>".
Proof.
  exact (tags_stay_in_text drawCat (ask (js "draw a cute cat")) _ _ _
           eq_refl eq_refl).
Defined.

(** C10 as stated fails when the executor the tag re-routes to throws: the
    SIMPLE handler streamed "Hi <THINK>", which routes to THINK, and the
    THINK stream fails. The accumulated text holds the tag, but the result
    is the error message alone, and that is the text handed to
    [addMessage]: no tag stands in the persisted text. *)
Lemma tags_stay_in_text_counterexample :
  tagDetection (js "Hi <THINK>") (js "hello") = Some (THINK, js "hello")
  /\ option_map texts (turn quotaHit (ask (js "hello")) MAX_LOOPS)
     = Some [js "Hi <THINK>"; js "Hi <THINK>Let me see"]
  /\ option_map
       (fun r => map (fun m => (am_text m, hasTag THINK (am_text m),
                                msg_text (aiDraft chatA m
                                            (js "Hi <THINK>Let me see"))))
                     (messages r))
       (runAutonomousAgent quotaHit (ask (js "hello")))
     = Some [(js "An error occurred: quota exceeded", false,
              js "An error occurred: quota exceeded")].
Proof. repeat split; vm_compute; reflexivity. Qed.

(** ** History refetch *)

Module HookFacts.

Lemma jseq_refl a : jseq a a = true.
Proof. induction a as [|x a IH]; simpl; [reflexivity|]. now rewrite N.eqb_refl. Qed.

Lemma jseq_eq : forall a b, jseq a b = true -> a = b.
Proof.
  induction a as [|x a IH]; destruct b as [|y b]; simpl; intros H;
    try discriminate; [reflexivity|].
  apply andb_prop in H as [H1 H2]. apply N.eqb_eq in H1. f_equal; auto.
Qed.

Lemma js_inj : forall s t, js s = js t -> s = t.
Proof.
  intros s t H. unfold js in H.
  rewrite <- (string_of_list_ascii_of_string s).
  rewrite <- (string_of_list_ascii_of_string t).
  f_equal. revert H.
  generalize (list_ascii_of_string s) (list_ascii_of_string t).
  intros l. induction l as [|a l IH]; intros [|b l0]; simpl; intros H;
    try discriminate; [reflexivity|].
  inversion H as [[H1 H2]]. f_equal; [|now apply IH].
  rewrite <- (ascii_N_embedding a), <- (ascii_N_embedding b). now rewrite H1.
Qed.

(** Two numbers with the same decimal digits are the same number. *)
Lemma decimal_inj : forall m n, decimal m = decimal n -> m = n.
Proof.
  intros m n H. unfold decimal in H. apply js_inj in H.
  assert (U : N.to_uint m = N.to_uint n).
  { pose proof (NilEmpty.usu (N.to_uint m)) as A.
    pose proof (NilEmpty.usu (N.to_uint n)) as B.
    rewrite H in A. rewrite A in B. now inversion B. }
  rewrite <- (DecimalN.Unsigned.of_to m), <- (DecimalN.Unsigned.of_to n).
  now rewrite U.
Qed.

Lemma streamed_concat (E : HookEnv) : forall emitted t0,
  (forall c, In c emitted -> isImageStartEvent E c = false) ->
  fold_left (fun t c => if isImageStartEvent E c then t else t ++ c)
            emitted t0
  = t0 ++ List.concat emitted.
Proof.
  induction emitted as [|c l IH]; intros t0 H; simpl.
  - now rewrite app_nil_r.
  - rewrite (H c (or_introl eq_refl)).
    rewrite IH by (intros c' Hc'; apply H; now right).
    now rewrite <- app_assoc.
Qed.

End HookFacts.

(** C8, as the code has it. After a history refetch for the chat [chatId]
    that succeeds while that chat is still the active one, the message view
    is the fetched history followed by exactly those previously held records
    that belong to [chatId] and whose id has no counterpart in the fetched
    history, in the order they were held; so no such pending record is
    erased by the fetch. A failed fetch leaves the view as it was. *)
Theorem refetch_keeps_pending (chatId : jsstring)
    (history prev : list Message) :
  smartMerge chatId history prev
  = history ++ filter (pending chatId history) prev
  /\ (forall p, In p (smartMerge chatId history prev) <->
                In p history \/ (In p prev /\ pending chatId history p = true))
  /\ (forall h,
        hook_messages
          (fetchMessages (Some chatId) true (Ok history) (Some chatId) h)
        = smartMerge chatId history (hook_messages h))
  /\ (forall h e,
        hook_messages
          (fetchMessages (Some chatId) true (Err e) (Some chatId) h)
        = hook_messages h).
Proof.
  assert (E : smartMerge chatId history prev
              = history ++ filter (pending chatId history) prev).
  { unfold smartMerge. fold (pending chatId history).
    destruct (filter (pending chatId history) prev) eqn:F; simpl.
    - now rewrite app_nil_r.
    - reflexivity. }
  split; [exact E|]. split; [|split].
  - intros p. rewrite E, in_app_iff, filter_In. tauto.
  - intros h. unfold fetchMessages. rewrite HookFacts.jseq_refl.
    now destruct (isSendingRef h).
  - intros h e. unfold fetchMessages. now destruct (isSendingRef h).
Qed.

(** C8 as stated fails for a held record of another chat: after a switch
    from chat A to chat B the view still holds a pending record of chat A;
    the fetch for chat B, whose history has no counterpart of its id, drops
    it. *)
Lemma refetch_counterexample :
  let pendingOfA :=
    {| msg_id := js "temp-user-1700000000000";
       msg_project_id := js "p1";
       msg_chat_id := js "chat-A";
       msg_sender := user;
       msg_text := js "hello";
       msg_image_base64 := None;
       msg_imageStatus := None;
       msg_plan := None;
       msg_metadata := noMetadata |} in
  existsb (fun h => jseq (msg_id h) (msg_id pendingOfA)) [] = false
  /\ smartMerge (js "chat-B") [] [pendingOfA] = [].
Proof. split; reflexivity. Qed.

(** ** The send-in-progress latch *)

Module LatchFacts.


Lemma enterSend_entered E text fs chat h c h1 :
  enterSend E text fs chat h = Entered c h1 ->
  isSendingRef h = false /\ h1 = setSending true h /\ chat = Some c.
Proof.
  unfold enterSend. destruct chat as [c0|]; [|discriminate].
  destruct (_ || _); [discriminate|].
  destruct (isSendingRef h); [discriminate|].
  intros H. now inversion H.
Qed.












End LatchFacts.





(** The release callback such a call leaves behind is pending when the next
    call gets past the latch; it runs at the first suspension point of that
    call and opens its latch while it is still in flight, and a third
    submission arriving then gets past the latch. *)
Example stale_release_callback :
  let h1 :=
    fst (handleSendMessage answering (js "look") (Some [unreadable])
           (Some chatA) idle) in
  let flight :=
    fst (handleSendMessageAmid (fun k => if k =? 0 then 1 else 0) answering
           (js "second") None (Some chatA) h1) in
  releaseTimers h1 = 1
  /\ entered (enterSend answering (js "second") None (Some chatA) h1) = true
  /\ map isSendingRef (seen flight) = [false; false; false; false; false]
  /\ map (fun s => entered (enterSend answering (js "third") None
                              (Some chatA) s)) (seen flight)
     = [true; true; true; true; true].
Proof. repeat split; vm_compute; reflexivity. Qed.




(** ** A save that fails *)

Module SaveFacts.

Lemma onStreamChunk_text E tempId : forall l t h,
  fst (fold_left (onStreamChunk E tempId) l (t, h))
  = fold_left (fun t c => if isImageStartEvent E c then t else t ++ c) l t.
Proof.
  induction l as [|c l IH]; intros t h; simpl; [reflexivity|].
  destruct (isImageStartEvent E c); now rewrite IH.
Qed.

Lemma onStreamChunk_text_pair E tempId l t h t' h' :
  fold_left (onStreamChunk E tempId) l (t, h) = (t', h') ->
  t' = fold_left (fun t c => if isImageStartEvent E c then t else t ++ c) l t.
Proof.
  intros F. pose proof (onStreamChunk_text E tempId l t h) as T.
  now rewrite F in T.
Qed.

Lemma onStreamChunk_toasts E tempId : forall l t h,
  toasts (snd (fold_left (onStreamChunk E tempId) l (t, h))) = toasts h.
Proof.
  induction l as [|c l IH]; intros t h; simpl; [reflexivity|].
  destruct (isImageStartEvent E c); now rewrite IH.
Qed.

(** The loop over the agent's messages only adds to [savedAiMessages] and
    to the toasts. *)
Lemma saveAiMessages_mono E chat ct : forall l i saved h,
  (forall x, In x saved ->
             In x (fst (saveAiMessages E chat ct i l (saved, h))))
  /\ (forall t, In t (toasts h) ->
                In t (toasts (snd (saveAiMessages E chat ct i l (saved, h))))).
Proof.
  induction l as [|m l IH]; intros i saved h; simpl; [auto|].
  destruct (addMessage E (aiDraft chat m ct)) as [s|e].
  - destruct (IH (S i) (saved ++ [s]) h) as [A B]. split; [|exact B].
    intros x Hx. apply A, in_or_app. now left.
  - destruct (IH (S i) (saved ++ [fallbackMsg chat m ct (nowFailedSave E i)])
                (addToast (fst saveWarning) (snd saveWarning) h)) as [A B].
    split.
    + intros x Hx. apply A, in_or_app. now left.
    + intros t Ht. apply B. simpl. apply in_or_app. now left.
Qed.

(** A message whose save fails leaves its fallback record and a warning. *)
Lemma saveAiMessages_fallback E chat ct mc e : forall l k i saved h,
  nth_error l k = Some mc ->
  addMessage E (aiDraft chat mc ct) = Err e ->
  In (fallbackMsg chat mc ct (nowFailedSave E (i + k)))
     (fst (saveAiMessages E chat ct i l (saved, h)))
  /\ In saveWarning (toasts (snd (saveAiMessages E chat ct i l (saved, h)))).
Proof.
  induction l as [|m l IH]; intros k i saved h Hk He.
  - destruct k; discriminate.
  - destruct k as [|k]; simpl in Hk.
    + inversion Hk; subst m. simpl. rewrite He. rewrite Nat.add_0_r.
      destruct (saveAiMessages_mono E chat ct l (S i)
                  (saved ++ [fallbackMsg chat mc ct (nowFailedSave E i)])
                  (addToast (fst saveWarning) (snd saveWarning) h)) as [A B].
      split.
      * apply A, in_or_app. right. now left.
      * apply B. simpl. apply in_or_app. right. now left.
    + simpl. replace (i + S k) with (S i + k) by lia.
      destruct (addMessage E (aiDraft chat m ct)); now apply IH.
Qed.

Lemma mapAt_core i f l m :
  (forall x, core (f x) = core x) -> In m l ->
  exists m', In m' (mapAt i f l) /\ core m' = core m.
Proof.
  intros Hf Hm. unfold mapAt.
  exists (if jseq (msg_id m) i then f m else m). split.
  - apply in_map_iff. now exists m.
  - destruct (jseq (msg_id m) i); auto.
Qed.

Lemma mapAt_other i f l m :
  jseq (msg_id m) i = false -> In m l -> In m (mapAt i f l).
Proof.
  intros Hi Hm. unfold mapAt. apply in_map_iff. exists m.
  now rewrite Hi.
Qed.

Lemma splice1_items i items l m : In m items -> In m (splice1 i items l).
Proof.
  intros H. unfold splice1. apply in_or_app. right.
  apply in_or_app. now left.
Qed.

(** The reconciliation keeps every saved or fallback record, with its id,
    text, sender and chat. *)
Lemma reconcile_keeps tempId saved plan' prev m :
  In m saved ->
  exists m', In m' (reconcile tempId saved plan' prev) /\ core m' = core m.
Proof.
  intros Hm. unfold reconcile.
  destruct (findIndex tempId prev) as [i|].
  - assert (P : exists m',
              In m' (match plan' with
                     | Some u => mapAt (messageId u) (withPlan (plan u))
                                       (splice1 i saved prev)
                     | None => splice1 i saved prev
                     end) /\ core m' = core m).
    { destruct plan' as [u|].
      - apply mapAt_core; [reflexivity | now apply splice1_items].
      - exists m. split; [now apply splice1_items | reflexivity]. }
    now destruct (0 <? List.length saved).
  - exists m. split; [|reflexivity]. apply in_or_app. now right.
Qed.

Lemma fallback_not_temp E chat mc ct now :
  jseq (msg_id (fallbackMsg chat mc ct now)) (tempAiId E) = false
  /\ jseq (msg_id (fallbackMsg chat mc ct now)) (tempUserId E) = false.
Proof. split; reflexivity. Qed.

End SaveFacts.

Lemma tryBlock_fallback (E : HookEnv) (text : jsstring)
    (fs : option (list FileInput)) (chat : Chat) (h : Hook)
    (emitted : list jsstring) (agentResult : AgentExecutionResult)
    (i : nat) (mc : AgentMessage) (e : Thrown) :
  attachmentsFail fs = false ->
  runAgent E = (emitted, Ok agentResult) ->
  nth_error (messages agentResult) i = Some mc ->
  addMessage E (aiDraft chat mc (streamedText E emitted)) = Err e ->
  (exists fb,
     In fb (hook_messages (fst (tryBlock E text fs chat h)))
     /\ core fb
        = core (fallbackMsg chat mc (streamedText E emitted)
                            (nowFailedSave E i)))
  /\ In saveWarning (toasts (fst (tryBlock E text fs chat h))).
Proof.
  intros Ha Hr Hn He. unfold tryBlock. unfold attachmentsFail in Ha.
  destruct (if noFiles fs then Ok [] else readAll _) as [b|e0] eqn:R.
  2:{ destruct (noFiles fs); [discriminate|]. rewrite R in Ha. discriminate. }
  rewrite Hr.
  match goal with
  | |- context [fold_left (onStreamChunk E ?t) emitted ([], ?h2)] =>
      destruct (fold_left (onStreamChunk E t) emitted ([], h2))
        as [currentText h3] eqn:F
  end.
  apply SaveFacts.onStreamChunk_text_pair in F.
  fold (streamedText E emitted) in F. subst currentText.
  destruct (SaveFacts.saveAiMessages_fallback E chat (streamedText E emitted)
              mc e (messages agentResult) i 0 [] h3 Hn He) as [S1 S2].
  destruct (saveAiMessages E chat (streamedText E emitted) 0
              (messages agentResult) ([], h3)) as [saved h4] eqn:F2.
  simpl in S1, S2.
  match goal with
  | |- context [reconcile ?t saved (updatedPlan agentResult)] =>
      destruct (SaveFacts.reconcile_keeps t saved (updatedPlan agentResult)
                  (hook_messages h4) _ S1) as (m' & M1 & M2)
  end.
  destruct (updatedPlan agentResult) as [u|];
    [destruct (updateMessagePlan E) as [o|e1]|].
  - split; [exists m'; split; [exact M1 | exact M2] | exact S2].
  - split.
    + exists m'. split; [|exact M2]. simpl.
      apply SaveFacts.mapAt_other; [|exact M1].
      assert (I : msg_id m'
                  = msg_id (fallbackMsg chat mc (streamedText E emitted)
                                        (nowFailedSave E i)))
        by (unfold core in M2; congruence).
      rewrite I. reflexivity.
    + simpl. apply in_or_app. now left.
  - split; [exists m'; split; [exact M1 | exact M2] | exact S2].
Qed.

(** C7. When the save of a message of the agent throws, [handleSendMessage]
    still returns, and the message view it leaves holds an assistant record
    of the chat with the full text of that message: its own text, or, when
    it has none, everything that was streamed (the chunks in order, the
    image-start events left out). The record stands under a local id minted
    at the failure, [failed-save-] followed by the digits of the clock
    reading taken then: it is neither of the two placeholder ids of the
    call, and it differs from the id minted at any other clock reading.
    The warning toast was issued. *)
Theorem failed_save_is_kept (E : HookEnv) (text : jsstring)
    (fs : option (list FileInput)) (chat : Chat) (h : Hook)
    (emitted : list jsstring) (agentResult : AgentExecutionResult)
    (i : nat) (mc : AgentMessage) (e : Thrown) :
  entered (enterSend E text fs (Some chat) h) = true ->
  attachmentsFail fs = false ->
  runAgent E = (emitted, Ok agentResult) ->
  nth_error (messages agentResult) i = Some mc ->
  addMessage E (aiDraft chat mc (streamedText E emitted)) = Err e ->
  exists after result,
    handleSendMessage E text fs (Some chat) h = (after, result)
    /\ (exists fb,
          In fb (hook_messages after)
          /\ msg_id fb = js "failed-save-" ++ decimal (nowFailedSave E i)
          /\ msg_text fb
             = (if truthy (am_text mc) then am_text mc
                else streamedText E emitted)
          /\ msg_sender fb = ai
          /\ msg_chat_id fb = c_id chat
          /\ jseq (msg_id fb) (tempAiId E) = false
          /\ jseq (msg_id fb) (tempUserId E) = false
          /\ forall t, t <> nowFailedSave E i ->
               jseq (js "failed-save-" ++ decimal t) (msg_id fb) = false)
    /\ ((forall c, In c emitted -> isImageStartEvent E c = false) ->
        streamedText E emitted = List.concat emitted)
    /\ In saveWarning (toasts after).
Proof.
  intros Hen Ha Hr Hn He.
  destruct (enterSend E text fs (Some chat) h) as [|c h1] eqn:En;
    [discriminate|].
  destruct (LatchFacts.enterSend_entered _ _ _ _ _ _ _ En) as (_ & -> & Hc).
  inversion Hc; subst c.
  destruct (tryBlock_fallback E text fs chat (setSending true h) emitted
              agentResult i mc e Ha Hr Hn He) as [(fb & F1 & F2) W].
  assert (P : msg_id fb = js "failed-save-" ++ decimal (nowFailedSave E i)
              /\ msg_text fb
                 = (if truthy (am_text mc) then am_text mc
                    else streamedText E emitted)
              /\ msg_sender fb = ai /\ msg_chat_id fb = c_id chat).
  { unfold core in F2. injection F2 as I T S_ Ch.
    split; [exact I|]. split; [exact T|]. split; [exact S_ | exact Ch]. }
  destruct P as (I & T & S_ & Ch).
  destruct (SaveFacts.fallback_not_temp E chat mc (streamedText E emitted)
              (nowFailedSave E i)) as [N1 N2].
  change (msg_id (fallbackMsg chat mc (streamedText E emitted)
                              (nowFailedSave E i)))
    with (js "failed-save-" ++ decimal (nowFailedSave E i)) in N1, N2.
  rewrite <- I in N1, N2.
  unfold handleSendMessage. rewrite En. unfold finallyBlock.
  eexists _, _. split; [reflexivity|].
  split; [|split; [|exact W]].
  - exists fb. split; [exact F1|].
    split; [exact I|]. split; [exact T|]. split; [exact S_|].
    split; [exact Ch|]. split; [exact N1|]. split; [exact N2|].
    intros t Ht. rewrite I.
    destruct (jseq (js "failed-save-" ++ decimal t)
                   (js "failed-save-" ++ decimal (nowFailedSave E i))) eqn:J;
      [|reflexivity].
    apply HookFacts.jseq_eq in J. apply app_inv_head in J.
    apply HookFacts.decimal_inj in J. contradiction.
  - intros Hev. unfold streamedText.
    now rewrite (HookFacts.streamed_concat E emitted [] Hev).
Qed.

Lemma failed_save_is_kept_witness :
  (exists after result,
     handleSendMessage unsaved (js "hi") None (Some chatA) idle
     = (after, result)
     /\ (exists fb,
           In fb (hook_messages after)
           /\ msg_id fb = js "failed-save-1700000004321"
           /\ msg_text fb = js "Hello there"
           /\ msg_sender fb = ai
           /\ msg_chat_id fb = js "chat-A"
           /\ jseq (msg_id fb) (js "temp-ai-1700000000000") = false
           /\ jseq (msg_id fb) (js "temp-user-1700000000000") = false
           /\ forall t, t <> 1700000004321%N ->
                jseq (js "failed-save-" ++ decimal t) (msg_id fb) = false)
     /\ ((forall c, In c [js "Hello"; js " there"] -> false = false) ->
         js "Hello there" = js "Hello" ++ js " there" ++ [])
     /\ In saveWarning (toasts after))
  /\ (exists after result,
        handleSendMessage answering (js "hi") None (Some chatA) idle
        = (after, result)
        /\ (exists fb,
              In fb (hook_messages after)
              /\ msg_id fb = js "failed-save-1700000004321"
              /\ msg_text fb = js "Hello there"
              /\ msg_sender fb = ai
              /\ msg_chat_id fb = js "chat-A"
              /\ jseq (msg_id fb) (js "temp-ai-1700000000000") = false
              /\ jseq (msg_id fb) (js "temp-user-1700000000000") = false
              /\ forall t, t <> 1700000004321%N ->
                   jseq (js "failed-save-" ++ decimal t) (msg_id fb) = false)
        /\ ((forall c, In c [js "Hello"; js " there"] -> false = false) ->
            js "Hello there" = js "Hello" ++ js " there" ++ [])
        /\ In saveWarning (toasts after)).
Proof.
  split.
  - exact (failed_save_is_kept unsaved (js "hi") None chatA idle _ _ 0 _ _
             eq_refl eq_refl eq_refl eq_refl eq_refl).
  - exact (failed_save_is_kept answering (js "hi") None chatA idle _ _ 0 _ _
             eq_refl eq_refl eq_refl eq_refl eq_refl).
Defined.

(* ================================================================== *)
(** * Further properties of the chat hook *)
(* ================================================================== *)

Module ViewFacts.










Lemma findIndex_absent i : forall l, absent i l = true -> findIndex i l = None.
Proof.
  induction l as [|m l IH]; simpl; intros H; [reflexivity|].
  apply andb_prop in H as [Hm Hl]. apply negb_true_iff in Hm.
  rewrite Hm. now rewrite IH.
Qed.




End ViewFacts.

Module SendFacts.



(** The two placeholder ids of a call never coincide. *)
Lemma temp_ids_differ E : jseq (tempUserId E) (tempAiId E) = false.
Proof. reflexivity. Qed.



End SendFacts.





(** ** Refetch and guard *)

Module GuardFacts.

Lemma trimStart_blank : forall s,
  truthy (trimStart s) = negb (allWhiteSpace s).
Proof.
  induction s as [|c s IH]; simpl; [reflexivity|].
  destruct (isWhiteSpace c); [exact IH | reflexivity].
Qed.

Lemma allWhiteSpace_rev s : allWhiteSpace (rev s) = allWhiteSpace s.
Proof.
  unfold allWhiteSpace. induction s as [|c s IH]; simpl; [reflexivity|].
  rewrite forallb_app, IH. simpl. rewrite andb_true_r. apply andb_comm.
Qed.

Lemma truthy_rev (s : jsstring) : truthy (rev s) = truthy s.
Proof.
  destruct s as [|c s]; simpl; [reflexivity|].
  now destruct (rev s).
Qed.

Lemma allWhiteSpace_trimStart : forall s,
  allWhiteSpace (trimStart s) = allWhiteSpace s.
Proof.
  induction s as [|c s IH]; simpl; [reflexivity|].
  destruct (isWhiteSpace c) eqn:W; simpl; [exact IH | now rewrite W].
Qed.

(** [trim] leaves nothing exactly of the texts made of white space. *)
Lemma trim_blank s : truthy (trim s) = negb (allWhiteSpace s).
Proof.
  unfold trim, trimEnd.
  now rewrite truthy_rev, trimStart_blank, allWhiteSpace_rev,
    allWhiteSpace_trimStart.
Qed.


End GuardFacts.

(** A refetch that returns the same history again changes nothing more: the
    smart merge of a view that was already merged with this history is that
    view. *)
Theorem smartMerge_idempotent (chatId : jsstring)
    (history prev : list Message) :
  smartMerge chatId history (smartMerge chatId history prev)
  = smartMerge chatId history prev.
Proof.
  assert (E : forall l, smartMerge chatId history l
                        = history ++ filter (pending chatId history) l).
  { intros l. unfold smartMerge. fold (pending chatId history).
    destruct (filter (pending chatId history) l); simpl;
      [now rewrite app_nil_r | reflexivity]. }
  rewrite !E. f_equal. rewrite filter_app.
  assert (H1 : forall l,
             (forall x, In x l -> In x history) ->
             filter (pending chatId history) l = []).
  { induction l as [|x l IH]; intros Hl; simpl; [reflexivity|].
    assert (P : pending chatId history x = false).
    { unfold pending. apply andb_false_intro2. apply negb_false_iff.
      apply existsb_exists. exists x.
      split; [apply Hl; now left | apply HookFacts.jseq_refl]. }
    rewrite P. apply IH. intros y Hy. apply Hl. now right. }
  rewrite (H1 history (fun x Hx => Hx)). simpl.
  induction prev as [|p prev IH]; simpl; [reflexivity|].
  destruct (pending chatId history p) eqn:P; simpl.
  - rewrite P. now f_equal.
  - exact IH.
Qed.


(** A text of white space only without an attachment is never sent: the call
    returns the empty result and changes nothing, whatever the state of the
    hook. *)
Theorem blank_submission_refused (E : HookEnv) (text : jsstring)
    (fs : option (list FileInput)) (chat : option Chat) (h : Hook) :
  allWhiteSpace text = true ->
  noFiles fs = true ->
  handleSendMessage E text fs chat h = (h, emptyResult).
Proof.
  intros W F. unfold handleSendMessage, enterSend.
  destruct chat as [c|]; [|reflexivity].
  now rewrite GuardFacts.trim_blank, W, F.
Qed.

Lemma blank_submission_refused_witness :
  handleSendMessage answering (js "  ") None (Some chatA) idle
  = (idle, emptyResult).
Proof.
  exact (blank_submission_refused answering (js "  ") None (Some chatA) idle
           eq_refl eq_refl).
Defined.


(* ================================================================== *)
(** * Further properties of the agent *)
(* ================================================================== *)

Module AnswerFacts.

Lemma canonicalize_lt c : canonicalize c = 60%N -> c = 60%N.
Proof.
  unfold canonicalize.
  destruct ((97 <=? c) && (c <=? 122))%N eqn:R; [|auto].
  apply andb_prop in R as [R1 R2].
  apply N.leb_le in R1. apply N.leb_le in R2. lia.
Qed.

(** A pattern that begins with [<] matches at no text that is free of it. *)
Lemma literal_tagFree ci p s :
  tagFree s = true -> literal ci (60%N :: p) s = None.
Proof.
  destruct s as [|b s]; simpl; [reflexivity|]. intros H.
  apply andb_prop in H as [H _]. apply negb_true_iff in H.
  assert (Cq : ceq ci 60 b = false).
  { unfold ceq. destruct ci.
    - apply N.eqb_neq. intros E. symmetry in E.
      change (canonicalize 60) with 60%N in E.
      apply canonicalize_lt in E. apply N.eqb_neq in H. congruence.
    - rewrite N.eqb_sym. exact H. }
  now rewrite Cq.
Qed.

Lemma tagFree_suffix s1 s2 : tagFree (s1 ++ s2) = true -> tagFree s2 = true.
Proof.
  unfold tagFree. rewrite forallb_app. intros H.
  now apply andb_prop in H as [_ H].
Qed.

Lemma firstMatch_tagFree {A} (m : jsstring -> option A) g :
  (forall s, tagFree s = true -> m s = None) ->
  tagFree g = true -> firstMatch m g = None.
Proof.
  intros Hm Hg. apply PatternFacts.firstMatch_none.
  intros s1 s2 ->. apply Hm. now apply tagFree_suffix in Hg.
Qed.

Lemma matchTag_tagFree open close g :
  tagFree g = true -> matchTag (60%N :: open) close g = None.
Proof.
  intros Hg. unfold matchTag. apply firstMatch_tagFree; [|exact Hg].
  intros s Hs. unfold tagAt. now rewrite literal_tagFree.
Qed.

(** Without a [<] in what the SIMPLE handler generated, no tag is found. *)
Lemma tagDetection_tagFree g prompt :
  tagFree g = true -> tagDetection g prompt = None.
Proof.
  intros Hg. unfold tagDetection, deepMatch, searchMatch, thinkMatch,
    imageMatch, projectMatch, canvasMatch, studyMatch.
  change (js "<DEEP>") with (60%N :: js "DEEP>").
  change (js "<SEARCH>") with (60%N :: js "SEARCH>").
  change (js "<THINK>") with (60%N :: js "THINK>").
  change (js "<IMAGE>") with (60%N :: js "IMAGE>").
  change (js "<PROJECT>") with (60%N :: js "PROJECT>").
  change (js "<CANVAS>") with (60%N :: js "CANVAS>").
  change (js "<STUDY>") with (60%N :: js "STUDY>").
  rewrite !(matchTag_tagFree _ _ _ Hg).
  assert (D : matchDeepCue g = None).
  { unfold matchDeepCue. apply firstMatch_tagFree; [|exact Hg].
    intros s Hs. unfold deepCueAt.
    change (js "<SEARCH>deep") with (60%N :: js "SEARCH>deep").
    now rewrite literal_tagFree. }
  assert (B : matchBare (60%N :: js "THINK>") g = None).
  { unfold matchBare. apply firstMatch_tagFree; [|exact Hg].
    intros s Hs. now rewrite literal_tagFree. }
  rewrite D, B. reflexivity.
Qed.

(** The SIMPLE stream: what it generates, and what it leaves alone. *)
Lemma simpleChunk_answer : forall l g st g1 st1,
  fold_left simpleChunk l (g, st) = (g1, st1) ->
  g1 = g ++ answerOf l
  /\ finalResponseText st1 = finalResponseText st ++ answerOf l
  /\ memoryToCreate (metadataPayload st1) = memoryToCreate (metadataPayload st)
  /\ loopCount st1 = loopCount st.
Proof.
  induction l as [|c l IH]; intros g st g1 st1 F.
  - simpl in F. inversion F; subst. unfold answerOf. simpl.
    now rewrite !app_nil_r.
  - change (fold_left simpleChunk (c :: l) (g, st))
      with (fold_left simpleChunk l (simpleChunk (g, st) c)) in F.
    unfold answerOf. cbn [map List.concat]. fold (answerOf l).
    unfold simpleChunk in F at 2. cbn [fst snd] in F.
    destruct (chunkText c) as [t|].
    + apply IH in F. destruct F as (-> & T & M & K).
      rewrite T, M, K.
      destruct (chunk_grounding c); simpl; rewrite !app_assoc; auto.
    + apply IH in F. destruct F as (-> & T & M & K). auto.
Qed.

End AnswerFacts.

(** A SIMPLE answer without a [<] is never re-routed: the turn is one
    invocation, and the result is one message of the assistant whose text
    is the text of the stream, chunk after chunk, without an image; it
    carries the memory directive for the prompt exactly when the text is
    longer than fifty code units. *)
Theorem plain_answer_is_returned (C : Collaborators) (inp : AgentInput)
    (routing : Routing) (u : unit) :
  route C = Ok routing ->
  action routing = SIMPLE ->
  getContext C = Ok u ->
  readFiles (files inp) = None ->
  failure (generateContentStream C SIMPLE (prompt inp)) = None ->
  tagFree (answerOf (chunks (generateContentStream C SIMPLE (prompt inp))))
  = true ->
  exists m,
    runAutonomousAgent C inp = Some {| messages := [m]; updatedPlan := None |}
    /\ am_text m
       = answerOf (chunks (generateContentStream C SIMPLE (prompt inp)))
    /\ am_sender m = ai
    /\ am_image_base64 m = None
    /\ memoryToCreate (am_metadata m)
       = (if 50 <? List.length (am_text m)
          then Some [ {| layer := js "outer_personal";
                         key := js "last_topic";
                         value := prompt inp |} ]
          else None)
    /\ option_map (fun r => List.length (invocations r))
                  (turn C inp MAX_LOOPS) = Some 1.
Proof.
  intros Hr Ha Hc Hf Hs Ht.
  set (answer := answerOf (chunks (generateContentStream C SIMPLE (prompt inp))))
    in *.
  assert (W : exists st1,
             finalResponseText st1 = answer
             /\ memoryToCreate (metadataPayload st1) = None
             /\ whileLoop (execute C inp) MAX_LOOPS (initialState inp routing)
                = Some {| invocations :=
                            [(incrLoopCount (initialState inp routing),
                              finish inp
                                (if 50 <? List.length answer
                                 then proposeMemory (prompt inp) st1
                                 else st1))];
                          ending :=
                            Returned
                              (resultMessage inp
                                 (if 50 <? List.length answer
                                  then proposeMemory (prompt inp) st1
                                  else st1)) |}).
  { cbn [whileLoop MAX_LOOPS initialState loopCount Nat.ltb Nat.leb].
    unfold execute. cbn [currentAction incrLoopCount initialState].
    rewrite Ha. unfold executeSIMPLE. rewrite Hf.
    cbn [currentPrompt incrLoopCount initialState]. rewrite Hs.
    destruct (fold_left simpleChunk
                (chunks (generateContentStream C SIMPLE (prompt inp))) _)
      as [g st1] eqn:F.
    apply AnswerFacts.simpleChunk_answer in F.
    destruct F as (G & T & M & _). cbn in G, T, M. subst g.
    fold answer. fold answer in T.
    rewrite (AnswerFacts.tagDetection_tagFree _ _ Ht).
    exists st1. split; [exact T|]. split; [exact M|]. reflexivity. }
  destruct W as (st1 & T & M & W).
  unfold runAutonomousAgent, turn. rewrite Hr, Hc, W.
  eexists. split; [reflexivity|].
  cbn [ending invocations option_map List.length am_text am_sender
       am_image_base64 am_metadata resultMessage].
  destruct (50 <? List.length answer) eqn:L;
    cbn [finalResponseText proposeMemory setMetadata metadataPayload
         memoryToCreate];
    rewrite T, L; repeat split; try reflexivity; exact M.
Qed.

Lemma plain_answer_is_returned_witness :
  exists m,
    runAutonomousAgent chatty (ask (js "capital of France?"))
    = Some {| messages := [m]; updatedPlan := None |}
    /\ am_text m = js "The capital of France is Paris, on the river Seine."
    /\ am_sender m = ai
    /\ am_image_base64 m = None
    /\ memoryToCreate (am_metadata m)
       = Some [ {| layer := js "outer_personal";
                   key := js "last_topic";
                   value := js "capital of France?" |} ]
    /\ option_map (fun r => List.length (invocations r))
                  (turn chatty (ask (js "capital of France?")) MAX_LOOPS)
       = Some 1.
Proof.
  destruct (plain_answer_is_returned chatty (ask (js "capital of France?"))
              _ tt eq_refl eq_refl eq_refl eq_refl eq_refl eq_refl)
    as (m & R & T & S_ & I & M & K).
  exists m. rewrite T in M.
  split; [exact R|]. split; [exact T|]. split; [exact S_|].
  split; [exact I|]. split; [exact M | exact K].
Defined.

(** An action of the classifier other than SIMPLE runs its executor once
    and ends the turn, whatever that executor generates: tags in its text
    are not looked for. The executor is entered with the prompt of the turn
    and no text. *)
Theorem classified_action_runs_once (C : Collaborators) (inp : AgentInput)
    (routing : Routing) (u : unit) :
  route C = Ok routing ->
  getContext C = Ok u ->
  terminal (action routing) = true ->
  exists st o,
    turn C inp MAX_LOOPS
    = Some {| invocations := [(st, o)];
              ending := match o with
                        | Return m _ => Returned m
                        | Throw e _ => Caught e
                        | Continue s => Exhausted s
                        end |}
    /\ o = execute C inp st
    /\ (forall s, o = Continue s -> False)
    /\ currentAction st = action routing
    /\ currentPrompt st = prompt inp
    /\ finalResponseText st = []
    /\ loopCount st = 1.
Proof.
  intros Hr Hc Ht. unfold turn. rewrite Hr, Hc.
  cbn [whileLoop MAX_LOOPS initialState loopCount Nat.ltb Nat.leb].
  destruct (TextFacts.execute_ends C inp
              (incrLoopCount (initialState inp routing)) Ht)
    as [(m & s2 & X)|(e & s2 & X)]; rewrite X.
  - exists (incrLoopCount (initialState inp routing)), (Return m s2).
    split; [reflexivity|]. split; [now rewrite X|].
    split; [intros s; discriminate|]. repeat split.
  - exists (incrLoopCount (initialState inp routing)), (Throw e s2).
    split; [reflexivity|]. split; [now rewrite X|].
    split; [intros s; discriminate|]. repeat split.
Qed.

Lemma classified_action_runs_once_witness :
  exists st o,
    turn (routed THINK quotaHit) (ask (js "why?")) MAX_LOOPS
    = Some {| invocations := [(st, o)];
              ending := match o with
                        | Return m _ => Returned m
                        | Throw e _ => Caught e
                        | Continue s => Exhausted s
                        end |}
    /\ o = execute (routed THINK quotaHit) (ask (js "why?")) st
    /\ (forall s, o = Continue s -> False)
    /\ currentAction st = THINK
    /\ currentPrompt st = js "why?"
    /\ finalResponseText st = []
    /\ loopCount st = 1.
Proof.
  exact (classified_action_runs_once (routed THINK quotaHit)
           (ask (js "why?")) _ tt eq_refl eq_refl eq_refl).
Defined.

(* ================================================================== *)
(** * The research service *)
(* ================================================================== *)

Module ResearchFacts.

Lemma nonSpaces_spec : forall s u r,
  nonSpaces s = (u, r) -> s = u ++ r /\ spaceFree u = true.
Proof.
  induction s as [|c s IH]; simpl; intros u r H.
  - inversion H; subst. now split.
  - destruct (isWhiteSpace c) eqn:W.
    + inversion H; subst. now split.
    + destruct (nonSpaces s) as [u' r'] eqn:N. inversion H; subst.
      destruct (IH _ _ eq_refl) as [E F]. split; [now rewrite E at 1|].
      simpl. now rewrite W, F.
Qed.

Lemma spacesThen_origin {A} (k : jsstring -> option A) x : forall s,
  spacesThen k s = Some x ->
  exists ws r, s = ws ++ r /\ allWhiteSpace ws = true /\ k r = Some x.
Proof.
  induction s as [|c s IH]; simpl; intros H.
  - now exists [], [].
  - destruct (isWhiteSpace c) eqn:W.
    + destruct (spacesThen k s) as [y|] eqn:S_.
      * inversion H; subst y.
        destruct (IH eq_refl) as (ws & r & E & Hw & Hk).
        exists (c :: ws), r. rewrite E. simpl. rewrite W. auto.
      * now exists [], (c :: s).
    + now exists [], (c :: s).
Qed.

(** What [literal] accepts at the front of [s], it accepts in front of any
    other text. *)
Lemma literal_front ci p : forall s r,
  literal ci p s = Some r ->
  exists f, s = f ++ r /\ forall t, literal ci p (f ++ t) = Some t.
Proof.
  induction p as [|a p IH]; simpl; intros s r H.
  - inversion H; subst. now exists [].
  - destruct s as [|b s]; [discriminate|].
    destruct (ceq ci a b) eqn:Cq; [|discriminate].
    destruct (IH _ _ H) as (f & E & F).
    exists (b :: f). split; [now rewrite E|].
    intros t. simpl. now rewrite Cq.
Qed.

Lemma literal_seq ci p q : forall s,
  literal ci (p ++ q) s
  = match literal ci p s with
    | Some r => literal ci q r
    | None => None
    end.
Proof.
  induction p as [|a p IH]; simpl; intros s; [reflexivity|].
  destruct s as [|b s]; [reflexivity|].
  destruct (ceq ci a b); [apply IH | reflexivity].
Qed.

Lemma firstn_front {A} (f r : list A) :
  firstn (List.length (f ++ r) - List.length r) (f ++ r) = f.
Proof.
  rewrite length_app, Nat.add_sub.
  rewrite firstn_app, Nat.sub_diag, firstn_all. simpl. apply app_nil_r.
Qed.

Ltac to_numbers :=
  repeat match goal with
    | H : (_ || _)%bool = true |- _ => apply orb_true_iff in H as [H|H]
    | H : (_ && _)%bool = true |- _ => apply andb_prop in H as [? ?]
    | H : (_ && _)%bool = false |- _ => apply andb_false_iff in H as [H|H]
    | H : (_ <=? _)%N = true |- _ => apply N.leb_le in H
    | H : (_ <=? _)%N = false |- _ => apply N.leb_gt in H
    | H : (_ =? _)%N = true |- _ => apply N.eqb_eq in H
    end.

(** A letter case of a pattern character that is no white space is no white
    space either. *)
Lemma ceq_space a c :
  ceq true a c = true -> isWhiteSpace a = false -> isWhiteSpace c = false.
Proof.
  intros Cq Ha. destruct (isWhiteSpace c) eqn:Wc; [exfalso|reflexivity].
  unfold ceq, canonicalize in Cq.
  destruct ((97 <=? a) && (a <=? 122))%N eqn:Ra;
    destruct ((97 <=? c) && (c <=? 122))%N eqn:Rc;
    apply N.eqb_eq in Cq;
    try (subst c; congruence);
    unfold isWhiteSpace in Wc; to_numbers; lia.
Qed.

Lemma literal_spaceFree p : forall f,
  literal true p f = Some [] -> spaceFree p = true -> spaceFree f = true.
Proof.
  induction p as [|a p IH]; intros f F Hp.
  - simpl in F. now inversion F.
  - destruct f as [|c f]; [simpl in F; discriminate|].
    cbn [literal] in F. simpl in Hp.
    apply andb_prop in Hp as [Ha Hp]. apply negb_true_iff in Ha.
    destruct (ceq true a c) eqn:Cq; [|discriminate].
    simpl. rewrite (IH _ F Hp), andb_true_r.
    apply negb_true_iff. now apply (ceq_space a c).
Qed.

(** What [urlBody] matches: a front of [s] that begins with one of the two
    schemes, goes on after it, and holds no white space. *)
Lemma urlBody_spec s u rest :
  urlBody s = Some (u, rest) ->
  s = u ++ rest /\ hasScheme u = true /\ spaceFree u = true.
Proof.
  unfold urlBody.
  destruct (literal true (js "http") s) as [r|] eqn:L1; [|discriminate].
  assert (Sch : forall r2,
            orElse match literal true (js "s") r with
                   | Some r1 => literal true (js "://") r1
                   | None => None
                   end (literal true (js "://") r) = Some r2 ->
            literal true (js "http://") s = Some r2
            \/ literal true (js "https://") s = Some r2).
  { intros r2 H.
    change (js "http://") with (js "http" ++ js "://").
    change (js "https://") with (js "http" ++ js "s" ++ js "://").
    rewrite !literal_seq, L1, literal_seq.
    unfold orElse in H.
    destruct (literal true (js "s") r) as [r1|].
    - destruct (literal true (js "://") r1); [right | left]; exact H.
    - left. exact H. }
  destruct (orElse _ _) as [r2|]; [|discriminate].
  specialize (Sch r2 eq_refl).
  destruct (nonSpaces r2) as [b rest'] eqn:N.
  destruct (truthy b) eqn:Tb; [|discriminate].
  intros H. inversion H; subst rest'. clear H.
  destruct (nonSpaces_spec _ _ _ N) as [E2 Fb].
  assert (P : forall p, literal true p s = Some r2 ->
              spaceFree p = true ->
              exists f, s = f ++ b ++ rest
                        /\ literal true p (f ++ b) = Some b
                        /\ spaceFree f = true).
  { intros p Lp Hp. destruct (literal_front _ _ _ _ Lp) as (f & E & F).
    exists f. split; [now rewrite E2 in E|]. split; [apply F|].
    specialize (F []). rewrite app_nil_r in F.
    now apply (literal_spaceFree p). }
  destruct Sch as [Lp|Lp];
    (destruct (P _ Lp eq_refl) as (f & E & F & Hf);
     rewrite E; rewrite app_assoc; rewrite firstn_front;
     split; [reflexivity|]; split;
     [ unfold hasScheme; rewrite F;
       destruct b; [discriminate|];
       try reflexivity; now destruct (literal true (js "http://") _) as [[|? ?]|]
     | unfold spaceFree in *; rewrite forallb_app, Hf, Fb; reflexivity ]).
Qed.

Lemma urlAt_spec s u rest :
  urlAt s = Some (u, rest) ->
  exists pre, s = pre ++ u ++ rest
              /\ hasScheme u = true /\ spaceFree u = true.
Proof.
  unfold urlAt.
  assert (K : forall key,
            match literal true key s with
            | Some r => spacesThen urlBody r
            | None => None
            end = Some (u, rest) ->
            exists pre, s = pre ++ u ++ rest
                        /\ hasScheme u = true /\ spaceFree u = true).
  { intros key H.
    destruct (literal true key s) as [r|] eqn:L; [|discriminate].
    destruct (PatternFacts.literal_suffix _ _ _ _ L) as (f & E & _).
    destruct (spacesThen_origin _ _ _ H) as (ws & r' & E' & _ & B).
    destruct (urlBody_spec _ _ _ B) as (E'' & Hs & Hf).
    exists (f ++ ws). rewrite E, E', E'', <- app_assoc. auto. }
  destruct (match literal true (js "URL:") s with
            | Some r => spacesThen urlBody r
            | None => None
            end) as [x|] eqn:U; simpl.
  - intros H. inversion H; subst x. now apply (K (js "URL:")).
  - intros H. now apply (K (js "Source:")).
Qed.

Lemma matchAllUrls_origin u : forall s skip,
  In u (matchAllUrls skip s) ->
  exists s1 s2 rest, s = s1 ++ s2 /\ urlAt s2 = Some (u, rest).
Proof.
  induction s as [|c s IH]; intros skip H.
  - destruct skip; simpl in H; destruct H.
  - destruct skip as [|k]; cbn [matchAllUrls] in H.
    + destruct (urlAt (c :: s)) as [[u0 rest]|] eqn:U.
      * destruct H as [<-|H]; [now exists [], (c :: s), rest|].
        destruct (IH _ H) as (s1 & s2 & r & E & Hu).
        exists (c :: s1), s2, r. now rewrite E.
      * destruct (IH _ H) as (s1 & s2 & r & E & Hu).
        exists (c :: s1), s2, r. now rewrite E.
    + destruct (IH _ H) as (s1 & s2 & r & E & Hu).
      exists (c :: s1), s2, r. now rewrite E.
Qed.

End ResearchFacts.

Lemma extractURLs_bound results count :
  List.length (extractURLs results count) <= count.
Proof. unfold extractURLs. apply firstn_le_length. Qed.

(** [extractURLs] returns at most [count] addresses, and each of them
    begins with [http://] or [https://] (in any letter case), goes on
    after the scheme, holds no white space, and stands in the search
    results as it is. *)
Theorem extractURLs_wellformed (results : jsstring) (count : nat) :
  List.length (extractURLs results count) <= count
  /\ forall u, In u (extractURLs results count) ->
       hasScheme u = true
       /\ spaceFree u = true
       /\ includes false u results = true.
Proof.
  unfold extractURLs. split; [apply firstn_le_length|].
  intros u Hu.
  assert (Hin : In u (matchAllUrls 0 results)).
  { clear - Hu. revert Hu. generalize (matchAllUrls 0 results).
    induction count as [|n IH]; intros l Hu; [destruct Hu|].
    destruct l as [|x l]; [destruct Hu|]. simpl in Hu.
    destruct Hu as [<-|Hu]; [now left | right; now apply IH]. }
  destruct (ResearchFacts.matchAllUrls_origin _ _ _ Hin)
    as (s1 & s2 & rest & E & U).
  destruct (ResearchFacts.urlAt_spec _ _ _ U) as (pre & E2 & Hs & Hf).
  split; [exact Hs|]. split; [exact Hf|].
  rewrite E, E2. apply PatternFacts.includes_grow.
  apply PatternFacts.includes_grow.
  eapply PatternFacts.includes_here. apply PatternFacts.literal_app.
Qed.

(** A turn the classifier sends to DEEP_SEARCH, with the research service on
    top of a web search and a scraper. When the web search answers, the turn
    returns whatever the scraper does (a page that cannot be scraped becomes
    a line of the answer): the text is a blank line, the summary of the at
    most five addresses found in the search results, and the list of these
    addresses; the three progress messages were streamed in order between
    the opening notice and the research text. When the web search fails,
    only the first progress message was streamed and the turn ends with the
    message of the [catch] block. *)
Theorem deep_research_turn (C : Collaborators) (inp : AgentInput)
    (routing : Routing) (u : unit)
    (performWebSearch scrapeURL : jsstring -> Result jsstring) :
  route C = Ok routing ->
  action routing = DEEP_SEARCH ->
  getContext C = Ok u ->
  let C' := researching performWebSearch scrapeURL C in
  match performWebSearch (prompt inp) with
  | Ok results =>
      let urls := extractURLs results 5 in
      let researchText :=
        formatDeepResults (scrapeMultiple scrapeURL urls)
        ++ nl ++ nl ++ js "**Sources:**" ++ nl ++ join nl urls in
      List.length urls <= 5
      /\ List.length (scrapeMultiple scrapeURL urls) = List.length urls
      /\ (exists m,
            runAutonomousAgent C' inp
            = Some {| messages := [m]; updatedPlan := None |}
            /\ am_text m = nl ++ nl ++ researchText
            /\ am_image_base64 m = None)
      /\ option_map (fun r => map (fun i => streamed (stateOf (snd i)))
                                  (invocations r))
                    (turn C' inp MAX_LOOPS)
         = Some [[nl ++ nl ++ js "Deep Researching...";
                  nl ++ js "*Searching for initial sources...*";
                  nl ++ js "*Analyzing top sources...*";
                  nl ++ js "*Putting it all together...*";
                  researchText]]
  | Err e =>
      runAutonomousAgent C' inp
      = Some {| messages := [errorMessage C inp e]; updatedPlan := None |}
      /\ option_map (fun r => map (fun i => streamed (stateOf (snd i)))
                                  (invocations r))
                    (turn C' inp MAX_LOOPS)
         = Some [[nl ++ nl ++ js "Deep Researching...";
                  nl ++ js "*Searching for initial sources...*"]]
  end.
Proof.
  intros Hr Ha Hc C'.
  assert (T : turn C' inp MAX_LOOPS
              = Some (let st := incrLoopCount (initialState inp routing) in
                      match executeDEEP_SEARCH C' inp st with
                      | Return m st2 =>
                          {| invocations := [(st, Return m st2)];
                             ending := Returned m |}
                      | Throw e st2 =>
                          {| invocations := [(st, Throw e st2)];
                             ending := Caught e |}
                      | Continue st2 =>
                          {| invocations := [(st, Continue st2)];
                             ending := Exhausted st2 |}
                      end)).
  { unfold turn. subst C'. cbn [route getContext researching].
    rewrite Hr, Hc.
    cbn [whileLoop MAX_LOOPS initialState loopCount Nat.ltb Nat.leb].
    unfold execute. cbn [currentAction incrLoopCount initialState].
    rewrite Ha.
    destruct (executeDEEP_SEARCH _ inp _) as [m s2|s2|e s2] eqn:X;
      try reflexivity.
    exfalso. revert X. unfold executeDEEP_SEARCH, finish.
    destruct (deepResearch _ _) as [pr [r|e]]; discriminate. }
  unfold runAutonomousAgent. rewrite T. clear T.
  unfold executeDEEP_SEARCH. subst C'. cbn [deepResearch researching].
  cbn [currentPrompt emit incrLoopCount initialState].
  unfold researchDeep.
  destruct (performWebSearch (prompt inp)) as [results|e].
  - cbn zeta. split; [apply extractURLs_bound|].
    split; [apply length_map|].
    split; [eexists; split; [reflexivity|]; split; reflexivity|].
    reflexivity.
  - split; reflexivity.
Qed.

Lemma deep_research_turn_witness :
  exists m,
    runAutonomousAgent
      (researching twoSources offline (routed DEEP_SEARCH drawCat))
      (ask (js "cats"))
    = Some {| messages := [m]; updatedPlan := None |}
    /\ am_text m
       = nl ++ nl
         ++ js "Here is a comprehensive summary based on multiple sources:"
         ++ nl ++ nl ++ js "[Failed to scrape https://a.example/cats]"
         ++ nl ++ nl ++ js "---" ++ nl ++ nl
         ++ js "[Failed to scrape http://b.example/x]"
         ++ nl ++ nl ++ js "**Sources:**" ++ nl
         ++ js "https://a.example/cats" ++ nl ++ js "http://b.example/x".
Proof.
  destruct (deep_research_turn (routed DEEP_SEARCH drawCat) (ask (js "cats"))
              _ tt twoSources offline eq_refl eq_refl eq_refl)
    as (_ & _ & (m & R & T & _) & _).
  exists m. split; [exact R | exact T].
Defined.

(* ================================================================== *)
(** * Routes *)
(* ================================================================== *)

Module RouteFacts.

Lemma splitOn_segment sep : forall a,
  forallb (fun c => negb (c =? sep)%N) a = true -> splitOn sep a = [a].
Proof.
  induction a as [|c a IH]; simpl; intros H; [reflexivity|].
  apply andb_prop in H as [Hc Ha]. apply negb_true_iff in Hc.
  now rewrite Hc, (IH Ha).
Qed.

Lemma splitOn_cons sep : forall a b,
  forallb (fun c => negb (c =? sep)%N) a = true ->
  splitOn sep (a ++ sep :: b) = a :: splitOn sep b.
Proof.
  induction a as [|c a IH]; simpl; intros b H.
  - now rewrite N.eqb_refl.
  - apply andb_prop in H as [Hc Ha]. apply negb_true_iff in Hc.
    now rewrite Hc, (IH _ Ha).
Qed.

(** [split] always returns a segment. *)
Lemma splitOn_some sep : forall s, splitOn sep s <> [].
Proof.
  induction s as [|c s IH]; simpl; [discriminate|].
  destruct (c =? sep)%N; [discriminate|].
  destruct (splitOn sep s); discriminate.
Qed.

Lemma splitOn_trailing sep : forall q,
  splitOn sep (q ++ [sep]) = splitOn sep q ++ [[]].
Proof.
  induction q as [|c q IH]; simpl.
  - now rewrite N.eqb_refl.
  - destruct (c =? sep)%N; rewrite IH; [reflexivity|].
    pose proof (splitOn_some sep q) as Hq.
    destruct (splitOn sep q); [contradiction | reflexivity].
Qed.

Lemma endsWithSlash_app s c :
  endsWithSlash (s ++ [c]) = (c =? 47)%N.
Proof. unfold endsWithSlash. now rewrite rev_app_distr. Qed.

(** A path that ends with a segment is left as it is. *)
Lemma pathParts_plain s :
  endsWithSlash s = false -> pathParts s = filter truthy (splitOn 47 s).
Proof. intros H. unfold pathParts. now rewrite H. Qed.

Lemma endsWithSlash_segment pre a :
  segment a = true -> endsWithSlash (pre ++ a) = false.
Proof.
  unfold segment. intros H. apply andb_prop in H as [T F].
  destruct (exists_last (l := a)) as (a' & c & ->);
    [now destruct a|].
  rewrite app_assoc, endsWithSlash_app.
  rewrite forallb_app in F. apply andb_prop in F as [_ F]. simpl in F.
  apply andb_prop in F as [F _]. now apply negb_true_iff in F.
Qed.

Lemma segment_free a :
  segment a = true -> forallb (fun c => negb (c =? 47)%N) a = true.
Proof. unfold segment. intros H. now apply andb_prop in H as [_ H]. Qed.

Lemma segment_truthy a : segment a = true -> truthy a = true.
Proof. unfold segment. intros H. now apply andb_prop in H as [H _]. Qed.

(** The segments of the two paths of a chat. *)
Lemma pathParts_chat id :
  segment id = true -> pathParts (js "/c/" ++ id) = [js "c"; id].
Proof.
  intros H. rewrite pathParts_plain by now apply endsWithSlash_segment.
  change (js "/c/" ++ id) with ([] ++ 47%N :: (js "c" ++ 47%N :: id)).
  rewrite splitOn_cons by reflexivity.
  rewrite splitOn_cons by reflexivity.
  rewrite splitOn_segment by now apply segment_free.
  simpl. now rewrite (segment_truthy _ H).
Qed.

Lemma pathParts_project_chat pid id :
  segment pid = true -> segment id = true ->
  pathParts (js "/p/" ++ pid ++ js "/c/" ++ id) = [js "p"; pid; js "c"; id].
Proof.
  intros Hp H.
  rewrite pathParts_plain.
  2:{ rewrite !app_assoc. now apply endsWithSlash_segment. }
  change (js "/p/" ++ pid ++ js "/c/" ++ id)
    with ([] ++ 47%N :: (js "p" ++ 47%N :: (pid ++ 47%N
            :: (js "c" ++ 47%N :: id)))).
  rewrite splitOn_cons by reflexivity.
  rewrite splitOn_cons by reflexivity.
  rewrite splitOn_cons by now apply segment_free.
  rewrite splitOn_cons by reflexivity.
  rewrite splitOn_segment by now apply segment_free.
  simpl. now rewrite (segment_truthy _ H), (segment_truthy _ Hp).
Qed.

Lemma find_id id : forall (allChats : list Chat) chat,
  In chat allChats -> c_id chat = id ->
  exists c, find (fun c => jseq (c_id c) id) allChats = Some c /\ c_id c = id.
Proof.
  induction allChats as [|x l IH]; intros chat Hin E; [destruct Hin|].
  simpl. destruct (jseq (c_id x) id) eqn:J.
  - exists x. split; [reflexivity | now apply HookFacts.jseq_eq].
  - destruct Hin as [->|Hin]; [|now apply (IH chat)].
    rewrite E, HookFacts.jseq_refl in J. discriminate.
Qed.

End RouteFacts.

(** A slash at the end of a path changes nothing: the path and the path
    with a slash after it are the same route. *)
Theorem trailing_slash_ignored (p : jsstring) :
  parseRoute (p ++ js "/") = parseRoute p.
Proof.
  assert (E : pathParts (p ++ js "/") = pathParts p).
  { change (js "/") with [47%N]. unfold pathParts.
    rewrite RouteFacts.endsWithSlash_app, N.eqb_refl, length_app.
    simpl List.length. rewrite removelast_last.
    destruct p as [|c p]; [reflexivity|].
    replace (1 <? List.length (c :: p) + 1) with true
      by (symmetry; apply Nat.ltb_lt; simpl; lia).
    cbn [andb].
    destruct (endsWithSlash (c :: p)) eqn:S_; [|reflexivity].
    destruct (exists_last (l := c :: p)) as (q & d & Eq); [discriminate|].
    rewrite Eq in *. rewrite RouteFacts.endsWithSlash_app in S_.
    apply N.eqb_eq in S_. subst d.
    rewrite RouteFacts.splitOn_trailing, filter_app. simpl.
    rewrite app_nil_r.
    destruct (1 <? List.length (q ++ [47%N])) eqn:L; cbn [andb].
    - now rewrite removelast_last.
    - rewrite RouteFacts.splitOn_trailing, filter_app. simpl.
      now rewrite app_nil_r. }
  unfold parseRoute. now rewrite E.
Qed.

(** Selecting a chat in the sidebar leads to that chat: the path the
    selection navigates to is the route of a chat with this id, and when the
    effect has run a chat with this id is the active one, the first of the
    known chats that has it. The ids are one path segment each, and the id
    of the chat is not the word [new], which stands for a chat yet to be
    made. *)
Theorem selected_chat_becomes_active (allChats : list Chat) (chat : Chat)
    (l : Layout) :
  In chat allChats ->
  segment (c_id chat) = true ->
  jseq (c_id chat) (js "new") = false ->
  (truthy (c_project_id chat) = true -> segment (c_project_id chat) = true) ->
  let l1 := handleSelectChatFromSidebar chat l in
  parseRoute (pathname l1) = chatRoute (Some (c_id chat))
  /\ pathname (syncRoute allChats l1) = pathname l1
  /\ exists a,
       activeChat (syncRoute allChats l1) = Some a
       /\ c_id a = c_id chat
       /\ (activeChat (syncRoute allChats l1) = activeChat l
           \/ (find (fun c => jseq (c_id c) (c_id chat)) allChats = Some a
               /\ workspaceMode (syncRoute allChats l1)
                  = if truthy (c_project_id a) then cocreator
                    else autonomous)).
Proof.
  intros Hin Hs Hn Hp l1.
  assert (R : parseRoute (pathname l1) = chatRoute (Some (c_id chat))).
  { subst l1. unfold handleSelectChatFromSidebar, navigate. cbn [pathname].
    unfold parseRoute.
    destruct (truthy (c_project_id chat)) eqn:T.
    - now rewrite (RouteFacts.pathParts_project_chat _ _ (Hp eq_refl) Hs).
    - now rewrite (RouteFacts.pathParts_chat _ Hs). }
  split; [exact R|].
  destruct (RouteFacts.find_id (c_id chat) allChats chat Hin eq_refl)
    as (c & F & Ec).
  unfold syncRoute. rewrite R.
  cbn [r_isRoot r_chatId r_hubView r_view chatRoute]. rewrite Hn.
  rewrite (RouteFacts.segment_truthy _ Hs), F.
  destruct (activeChat l1) as [a|] eqn:A.
  - destruct (jseq (c_id c) (c_id a)) eqn:J; cbn [negb].
    + split; [reflexivity|]. exists a. rewrite A.
      split; [reflexivity|]. split.
      * apply HookFacts.jseq_eq in J. congruence.
      * left. symmetry. exact A.
    + split; [reflexivity|]. exists c. cbn [activeChat workspaceMode].
      split; [reflexivity|]. split; [exact Ec|]. right. now split.
  - cbn [negb]. split; [reflexivity|]. exists c.
    cbn [activeChat workspaceMode].
    split; [reflexivity|]. split; [exact Ec|]. right. now split.
Qed.

Lemma selected_chat_becomes_active_witness :
  parseRoute (js "/p/p1/c/chat-B") = chatRoute (Some (js "chat-B"))
  /\ activeChat
       (syncRoute [chatA; chatB]
          (handleSelectChatFromSidebar chatB (atRoot autonomous)))
     = Some chatB
  /\ workspaceMode
       (syncRoute [chatA; chatB]
          (handleSelectChatFromSidebar chatB (atRoot autonomous)))
     = cocreator.
Proof.
  destruct (selected_chat_becomes_active [chatA; chatB] chatB
              (atRoot autonomous) (or_intror (or_introl eq_refl))
              eq_refl eq_refl (fun _ => eq_refl))
    as (R & _ & _).
  split; [exact R|]. split; reflexivity.
Defined.

(** A root or unknown path is redirected by the workspace mode, and the
    redirect does not come back to the root: the next run of the effect
    leaves the mode as it was, without an active chat, and from then on
    the effect changes nothing. *)
Theorem root_redirect_keeps_mode (allChats : list Chat) (l : Layout) :
  r_isRoot (parseRoute (pathname l)) = true ->
  let l1 := syncRoute allChats l in
  let l2 := syncRoute allChats l1 in
  r_isRoot (parseRoute (pathname l1)) = false
  /\ workspaceMode l1 = workspaceMode l
  /\ activeChat l1 = activeChat l
  /\ workspaceMode l2 = workspaceMode l
  /\ activeChat l2 = None
  /\ syncRoute allChats l2 = l2.
Proof.
  intros H l1 l2.
  assert (E1 : l1 = navigate (match workspaceMode l with
                              | autonomous => js "/autonomous-chat"
                              | cocreator => js "/projects"
                              end) l)
    by (subst l1; unfold syncRoute; now rewrite H).
  assert (A : parseRoute (js "/autonomous-chat") = chatRoute (Some (js "new")))
    by (vm_compute; reflexivity).
  assert (P : parseRoute (js "/projects") = hubRoute hub_projects)
    by (vm_compute; reflexivity).
  subst l2. rewrite E1. clear E1 l1.
  destruct (workspaceMode l) eqn:M; unfold syncRoute, navigate;
    cbn [pathname workspaceMode activeChat]; rewrite ?A, ?P;
    cbn [r_isRoot r_chatId r_hubView r_view chatRoute hubRoute pathname
         workspaceMode activeChat];
    rewrite ?A, ?P;
    cbn [r_isRoot r_chatId r_hubView r_view chatRoute hubRoute jseq];
    repeat split; try reflexivity; try exact M.
Qed.

Lemma root_redirect_keeps_mode_witness :
  pathname (syncRoute [chatA] (atRoot cocreator)) = js "/projects"
  /\ workspaceMode (syncRoute [chatA] (syncRoute [chatA] (atRoot cocreator)))
     = cocreator.
Proof.
  destruct (root_redirect_keeps_mode [chatA] (atRoot cocreator) eq_refl)
    as (_ & _ & _ & M & _).
  split; [reflexivity | exact M].
Defined.

(* ================================================================== *)
(** * The message view *)
(* ================================================================== *)

Module ViewTagFacts.

Lemma literal_headLt p s :
  headLt s = false -> literal false (60%N :: p) s = None.
Proof.
  intros H. destruct s as [|c s]; [reflexivity|].
  cbn [literal]. unfold ceq. cbn [headLt] in H.
  rewrite N.eqb_sym, H. reflexivity.
Qed.

Lemma closedBlock_lt o c : startsAtLt (closedBlock (60%N :: o) c).
Proof. intros s H. unfold closedBlock. now rewrite literal_headLt. Qed.

Lemma openBlock_lt o : startsAtLt (openBlock (60%N :: o)).
Proof. intros s H. unfold openBlock. now rewrite literal_headLt. Qed.

Lemma capture_lt o c :
  startsAtLt (fun s => match literal false (60%N :: o) s with
                       | Some r => Some (untilClose c r)
                       | None => None
                       end).
Proof. intros s H. now rewrite literal_headLt. Qed.

Lemma tagFree_head a b :
  tagFree a = true -> headLt b = false -> headLt (a ++ b) = false.
Proof.
  destruct a as [|c a]; simpl; [auto|]. intros H _.
  apply andb_prop in H as [H _]. now apply negb_true_iff in H.
Qed.

Lemma tagFree_app a b : tagFree (a ++ b) = tagFree a && tagFree b.
Proof. unfold tagFree. apply forallb_app. Qed.

Lemma removeAll_free m : startsAtLt m -> forall a b,
  tagFree a = true -> removeAll m 0 (a ++ b) = a ++ removeAll m 0 b.
Proof.
  intros Hm. induction a as [|c a IH]; intros b H; [reflexivity|].
  simpl in H. apply andb_prop in H as [Hc Ha]. apply negb_true_iff in Hc.
  cbn [app removeAll]. rewrite (Hm (c :: a ++ b)) by exact Hc.
  now rewrite IH.
Qed.

Lemma removeAll_nil m : removeAll m 0 [] = [].
Proof. reflexivity. Qed.

Lemma removeAll_tagFree m s :
  startsAtLt m -> tagFree s = true -> removeAll m 0 s = s.
Proof.
  intros Hm H. rewrite <- (app_nil_r s) at 1.
  rewrite (removeAll_free m Hm) by exact H.
  now rewrite removeAll_nil, app_nil_r.
Qed.

Lemma removeAll_miss m c s :
  m (c :: s) = None -> removeAll m 0 (c :: s) = c :: removeAll m 0 s.
Proof. intros H. cbn [removeAll]. now rewrite H. Qed.

Lemma removeAll_skip m : forall a b,
  removeAll m (List.length a) (a ++ b) = removeAll m 0 b.
Proof. induction a as [|c a IH]; intros b; [reflexivity | apply IH]. Qed.

Lemma removeAll_hit m c a rest :
  m (c :: a ++ rest) = Some rest ->
  removeAll m 0 (c :: a ++ rest) = removeAll m 0 rest.
Proof.
  intros H. cbn [removeAll]. rewrite H.
  rewrite length_app, Nat.add_sub. apply removeAll_skip.
Qed.

(** A pass over a text with one marker that the pattern does not match. *)
Lemma pass_miss m pre oname payload cname post :
  startsAtLt m ->
  tagFree pre = true -> tagFree oname = true -> tagFree payload = true ->
  tagFree cname = true -> tagFree post = true ->
  m (60%N :: oname ++ payload ++ 60%N :: cname ++ post) = None ->
  m (60%N :: cname ++ post) = None ->
  removeAll m 0 (pre ++ 60%N :: oname ++ payload ++ 60%N :: cname ++ post)
  = pre ++ 60%N :: oname ++ payload ++ 60%N :: cname ++ post.
Proof.
  intros Hm Hpre Ho Hpay Hc Hpost M1 M2.
  rewrite (removeAll_free m Hm) by exact Hpre. f_equal.
  rewrite removeAll_miss by exact M1. f_equal.
  rewrite app_assoc, (removeAll_free m Hm)
    by (rewrite tagFree_app, Ho, Hpay; reflexivity).
  rewrite removeAll_miss by exact M2.
  rewrite (removeAll_tagFree m (cname ++ post) Hm)
    by (rewrite tagFree_app, Hc, Hpost; reflexivity).
  now rewrite <- app_assoc.
Qed.

(** A pass over a text with one marker that the pattern matches. *)
Lemma pass_hit m pre oname payload cname post :
  startsAtLt m ->
  tagFree pre = true -> tagFree post = true ->
  m (60%N :: oname ++ payload ++ 60%N :: cname ++ post) = Some post ->
  removeAll m 0 (pre ++ 60%N :: oname ++ payload ++ 60%N :: cname ++ post)
  = pre ++ post.
Proof.
  intros Hm Hpre Hpost M.
  rewrite (removeAll_free m Hm) by exact Hpre. f_equal.
  replace (oname ++ payload ++ 60%N :: cname ++ post)
    with ((oname ++ payload ++ 60%N :: cname) ++ post) in *
    by (rewrite <- !app_assoc; reflexivity).
  rewrite removeAll_hit by exact M.
  now apply removeAll_tagFree.
Qed.

Lemma afterClose_free cname post : forall payload,
  tagFree payload = true ->
  afterClose (60%N :: cname) (payload ++ 60%N :: cname ++ post)
  = Some post.
Proof.
  induction payload as [|c p IH]; intros H.
  - cbn [app afterClose].
    change (60%N :: cname ++ post) with ((60%N :: cname) ++ post).
    now rewrite PatternFacts.literal_app.
  - simpl in H. apply andb_prop in H as [Hc Hp]. apply negb_true_iff in Hc.
    cbn [app afterClose]. rewrite literal_headLt by exact Hc. now apply IH.
Qed.

Lemma untilClose_free cname post : forall payload,
  tagFree payload = true ->
  untilClose (60%N :: cname) (payload ++ 60%N :: cname ++ post) = payload.
Proof.
  induction payload as [|c p IH]; intros H.
  - cbn [app untilClose].
    change (60%N :: cname ++ post) with ((60%N :: cname) ++ post).
    now rewrite PatternFacts.literal_app.
  - simpl in H. apply andb_prop in H as [Hc Hp]. apply negb_true_iff in Hc.
    cbn [app untilClose]. rewrite literal_headLt by exact Hc.
    now rewrite IH.
Qed.

Lemma closedBlock_hit oname cname payload post :
  tagFree payload = true ->
  closedBlock (60%N :: oname) (60%N :: cname)
    (60%N :: oname ++ payload ++ 60%N :: cname ++ post) = Some post.
Proof.
  intros H. unfold closedBlock.
  change (60%N :: oname ++ payload ++ 60%N :: cname ++ post)
    with ((60%N :: oname) ++ payload ++ 60%N :: cname ++ post).
  rewrite PatternFacts.literal_app. now apply afterClose_free.
Qed.

Lemma firstMatch_free {A} (k : jsstring -> option A) :
  startsAtLt k -> forall a b,
  tagFree a = true -> firstMatch k (a ++ b) = firstMatch k b.
Proof.
  intros Hk. induction a as [|c a IH]; intros b H; [reflexivity|].
  simpl in H. apply andb_prop in H as [Hc Ha]. apply negb_true_iff in Hc.
  cbn [app]. rewrite PatternFacts.firstMatch_next by (apply Hk; exact Hc).
  now apply IH.
Qed.

Lemma firstMatch_end {A} (k : jsstring -> option A) s :
  startsAtLt k -> tagFree s = true -> firstMatch k s = None.
Proof.
  intros Hk H. apply PatternFacts.firstMatch_none. intros s1 s2 ->.
  apply Hk. rewrite tagFree_app in H. apply andb_prop in H as [_ H].
  destruct s2 as [|c s2]; [reflexivity|]. simpl in *.
  apply andb_prop in H as [H _]. now apply negb_true_iff in H.
Qed.

Lemma capture_miss {A} (k : jsstring -> option A)
    pre oname payload cname post :
  startsAtLt k ->
  tagFree pre = true -> tagFree oname = true -> tagFree payload = true ->
  tagFree cname = true -> tagFree post = true ->
  k (60%N :: oname ++ payload ++ 60%N :: cname ++ post) = None ->
  k (60%N :: cname ++ post) = None ->
  firstMatch k (pre ++ 60%N :: oname ++ payload ++ 60%N :: cname ++ post)
  = None.
Proof.
  intros Hk Hpre Ho Hpay Hc Hpost M1 M2.
  rewrite (firstMatch_free k Hk) by exact Hpre.
  rewrite PatternFacts.firstMatch_next by exact M1.
  rewrite app_assoc, (firstMatch_free k Hk)
    by (rewrite tagFree_app, Ho, Hpay; reflexivity).
  rewrite PatternFacts.firstMatch_next by exact M2.
  apply firstMatch_end; [exact Hk|].
  now rewrite tagFree_app, Hc, Hpost.
Qed.

Lemma capture_hit oname cname pre payload post :
  tagFree pre = true -> tagFree payload = true ->
  openCapture (60%N :: oname) (60%N :: cname)
    (pre ++ 60%N :: oname ++ payload ++ 60%N :: cname ++ post)
  = Some payload.
Proof.
  intros Hpre Hpay. unfold openCapture.
  rewrite (firstMatch_free _ (capture_lt oname (60%N :: cname)))
    by exact Hpre.
  apply PatternFacts.firstMatch_here.
  change (60%N :: oname ++ payload ++ 60%N :: cname ++ post)
    with ((60%N :: oname) ++ payload ++ 60%N :: cname ++ post).
  rewrite PatternFacts.literal_app. now rewrite untilClose_free.
Qed.

Lemma names_free m :
  tagFree (openName m) = true /\ tagFree (closeName m) = true
  /\ openTag m = 60%N :: openName m /\ closeTag m = 60%N :: closeName m.
Proof. destruct m; repeat split; reflexivity. Qed.

End ViewTagFacts.

(** A text without [<] is shown as it is, trimmed, without a thinking block
    and without a canvas. *)
Theorem plain_content_is_shown (content : jsstring) :
  tagFree content = true ->
  parseMessageContent content
  = {| thinking := None; canvas := None; clean := trim content |}.
Proof.
  intros H. unfold parseMessageContent.
  destruct content as [|c content]; [reflexivity|].
  cbn [truthy negb].
  change (js "<THINK>") with (60%N :: js "THINK>").
  change (js "<CANVAS>") with (60%N :: js "CANVAS>").
  change (js "<MEMORY>") with (60%N :: js "MEMORY>").
  change (js "<IMAGE>") with (60%N :: js "IMAGE>").
  change (js "<SEARCH>") with (60%N :: js "SEARCH>").
  change (js "<PROJECT>") with (60%N :: js "PROJECT>").
  change (js "<STUDY>") with (60%N :: js "STUDY>").
  change (js "<DEEP>") with (60%N :: js "DEEP>").
  unfold openCapture.
  rewrite !(ViewTagFacts.firstMatch_end _ _ (ViewTagFacts.capture_lt _ _) H).
  repeat first
    [ rewrite (ViewTagFacts.removeAll_tagFree _ _
                 (ViewTagFacts.closedBlock_lt _ _) H)
    | rewrite (ViewTagFacts.removeAll_tagFree _ _
                 (ViewTagFacts.openBlock_lt _) H) ].
  reflexivity.
Qed.

Lemma plain_content_is_shown_witness :
  parseMessageContent (js "  2 > 1, as you said.  ")
  = {| thinking := None; canvas := None;
       clean := js "2 > 1, as you said." |}.
Proof.
  exact (plain_content_is_shown (js "  2 > 1, as you said.  ") eq_refl).
Defined.

Lemma truthy_marked (pre rest : jsstring) :
  truthy (pre ++ 60%N :: rest) = true.
Proof. now destruct pre. Qed.

Ltac starts_at_lt :=
  first [ apply ViewTagFacts.closedBlock_lt
        | apply ViewTagFacts.openBlock_lt
        | apply ViewTagFacts.capture_lt ].

(** One pass of the cleaning over a text with one closed marker. *)
Ltac one_pass pre pay post Hpre Ho Hpay Hc Hpost :=
  match goal with
  | |- context [removeAll ?k 0
                  (pre ++ 60%N :: ?on ++ pay ++ 60%N :: ?cn ++ post)] =>
      first
        [ rewrite (ViewTagFacts.pass_hit k pre on pay cn post
                     ltac:(starts_at_lt) Hpre Hpost
                     ltac:(apply ViewTagFacts.closedBlock_hit; exact Hpay))
        | rewrite (ViewTagFacts.pass_miss k pre on pay cn post
                     ltac:(starts_at_lt) Hpre Ho Hpay Hc Hpost
                     ltac:(reflexivity) ltac:(reflexivity)) ]
  | |- context [removeAll ?k 0 (pre ++ post)] =>
      rewrite (ViewTagFacts.removeAll_tagFree k (pre ++ post)
                 ltac:(starts_at_lt)
                 ltac:(rewrite ViewTagFacts.tagFree_app, Hpre, Hpost;
                       reflexivity))
  end.

(** The capture of a tag other than the one of the marker finds nothing. *)
Ltac no_capture pre pay post Hpre Ho Hpay Hc Hpost :=
  unfold openCapture;
  match goal with
  | |- context [firstMatch ?k
                  (pre ++ 60%N :: ?on ++ pay ++ 60%N :: ?cn ++ post)] =>
      rewrite (ViewTagFacts.capture_miss k pre on pay cn post
                 ltac:(starts_at_lt) Hpre Ho Hpay Hc Hpost
                 ltac:(reflexivity) ltac:(reflexivity))
  end.

(** The cleaning of a text with one closed marker. *)
Lemma clean_closed_marker (m : Marker) (pre payload post : jsstring) :
  tagFree pre = true -> tagFree payload = true -> tagFree post = true ->
  clean (parseMessageContent
           (pre ++ openTag m ++ payload ++ closeTag m ++ post))
  = trim (pre ++ post).
Proof.
  intros Hpre Hpay Hpost.
  destruct (ViewTagFacts.names_free m) as (Ho & Hc & Eo & Ec).
  rewrite Eo, Ec. cbn [app].
  unfold parseMessageContent. rewrite truthy_marked. cbn [negb clean].
  change (js "<THINK>") with (60%N :: js "THINK>").
  change (js "<CANVAS>") with (60%N :: js "CANVAS>").
  change (js "<MEMORY>") with (60%N :: js "MEMORY>").
  change (js "<IMAGE>") with (60%N :: js "IMAGE>").
  change (js "<SEARCH>") with (60%N :: js "SEARCH>").
  change (js "<PROJECT>") with (60%N :: js "PROJECT>").
  change (js "<STUDY>") with (60%N :: js "STUDY>").
  change (js "<DEEP>") with (60%N :: js "DEEP>").
  change (js "</THINK>") with (60%N :: js "/THINK>").
  change (js "</CANVAS>") with (60%N :: js "/CANVAS>").
  change (js "</MEMORY>") with (60%N :: js "/MEMORY>").
  change (js "</IMAGE>") with (60%N :: js "/IMAGE>").
  change (js "</SEARCH>") with (60%N :: js "/SEARCH>").
  change (js "</PROJECT>") with (60%N :: js "/PROJECT>").
  change (js "</STUDY>") with (60%N :: js "/STUDY>").
  change (js "</DEEP>") with (60%N :: js "/DEEP>").
  destruct m;
    do 10 one_pass pre payload post Hpre Ho Hpay Hc Hpost;
    reflexivity.
Qed.

(** A closed marker of any of the eight tags is hidden, whether or not its
    payload runs over several lines: what is shown is the text before the
    marker followed by the text after it, trimmed. The payload of a THINK
    marker is the thinking block, the payload of a CANVAS marker (without
    its code fence) is the canvas; the other markers leave both empty. The
    texts before, inside and after the marker hold no [<]. *)
Theorem closed_marker_is_hidden (m : Marker) (pre payload post : jsstring) :
  tagFree pre = true -> tagFree payload = true -> tagFree post = true ->
  let p := parseMessageContent
             (pre ++ openTag m ++ payload ++ closeTag m ++ post) in
  clean p = trim (pre ++ post)
  /\ thinking p = match m with
                  | mk_THINK => Some (trim payload)
                  | _ => None
                  end
  /\ canvas p = match m with
                | mk_CANVAS =>
                    if truthy (trim payload)
                    then Some (trim (stripFenceEnd
                                       (stripFenceStart (trim payload))))
                    else Some (trim payload)
                | _ => None
                end.
Proof.
  intros Hpre Hpay Hpost.
  destruct (ViewTagFacts.names_free m) as (Ho & Hc & Eo & Ec).
  cbv zeta. rewrite Eo, Ec. cbn [app].
  unfold parseMessageContent. rewrite truthy_marked. cbn [negb].
  cbn [clean thinking canvas].
  change (js "<THINK>") with (60%N :: js "THINK>").
  change (js "<CANVAS>") with (60%N :: js "CANVAS>").
  change (js "<MEMORY>") with (60%N :: js "MEMORY>").
  change (js "<IMAGE>") with (60%N :: js "IMAGE>").
  change (js "<SEARCH>") with (60%N :: js "SEARCH>").
  change (js "<PROJECT>") with (60%N :: js "PROJECT>").
  change (js "<STUDY>") with (60%N :: js "STUDY>").
  change (js "<DEEP>") with (60%N :: js "DEEP>").
  change (js "</THINK>") with (60%N :: js "/THINK>").
  change (js "</CANVAS>") with (60%N :: js "/CANVAS>").
  change (js "</MEMORY>") with (60%N :: js "/MEMORY>").
  change (js "</IMAGE>") with (60%N :: js "/IMAGE>").
  change (js "</SEARCH>") with (60%N :: js "/SEARCH>").
  change (js "</PROJECT>") with (60%N :: js "/PROJECT>").
  change (js "</STUDY>") with (60%N :: js "/STUDY>").
  change (js "</DEEP>") with (60%N :: js "/DEEP>").
  split; [|split].
  - pose proof (clean_closed_marker m pre payload post Hpre Hpay Hpost) as K.
    rewrite Eo, Ec in K. cbn [app] in K.
    unfold parseMessageContent in K. rewrite truthy_marked in K.
    exact K.
  - destruct m;
      first
        [ change (openName mk_THINK) with (js "THINK>");
          change (closeName mk_THINK) with (js "/THINK>");
          rewrite (ViewTagFacts.capture_hit (js "THINK>") (js "/THINK>")
                     pre payload post Hpre Hpay); reflexivity
        | no_capture pre payload post Hpre Ho Hpay Hc Hpost; reflexivity ].
  - destruct m;
      first
        [ change (openName mk_CANVAS) with (js "CANVAS>");
          change (closeName mk_CANVAS) with (js "/CANVAS>");
          rewrite (ViewTagFacts.capture_hit (js "CANVAS>") (js "/CANVAS>")
                     pre payload post Hpre Hpay);
          cbn [option_map]; destruct (truthy (trim payload)); reflexivity
        | no_capture pre payload post Hpre Ho Hpay Hc Hpost; reflexivity ].
Qed.

Lemma closed_marker_is_hidden_witness :
  let p := parseMessageContent
             (js "Here you go: <IMAGE>a cute" ++ nl ++ js "cat</IMAGE> Enjoy!")
  in
  clean p = js "Here you go:  Enjoy!"
  /\ thinking p = None
  /\ canvas p = None.
Proof.
  exact (closed_marker_is_hidden mk_IMAGE (js "Here you go: ")
           (js "a cute" ++ nl ++ js "cat") (js " Enjoy!")
           eq_refl eq_refl eq_refl).
Defined.

Module StreamFacts.

Lemma afterClose_none close : forall s,
  includes false close s = false -> afterClose close s = None.
Proof.
  induction s as [|c s IH]; simpl; intros H.
  - destruct (literal false close []); [discriminate | reflexivity].
  - destruct (literal false close (c :: s)); [discriminate | now apply IH].
Qed.

Lemma untilClose_none close : forall s,
  includes false close s = false -> untilClose close s = s.
Proof.
  induction s as [|c s IH]; simpl; intros H.
  - destruct (literal false close []); [discriminate | reflexivity].
  - destruct (literal false close (c :: s)); [discriminate|].
    now rewrite IH.
Qed.

Lemma removeAll_keep m : forall s,
  (forall s1 s2, s = s1 ++ s2 -> m s2 = None) -> removeAll m 0 s = s.
Proof.
  induction s as [|c s IH]; intros H; [reflexivity|].
  cbn [removeAll]. rewrite (H [] (c :: s) eq_refl). f_equal.
  apply IH. intros s1 s2 ->. now apply (H (c :: s1) s2).
Qed.

Lemma includes_free cname : forall a b,
  tagFree a = true ->
  includes false (60%N :: cname) (a ++ b) = includes false (60%N :: cname) b.
Proof.
  induction a as [|c a IH]; intros b H; [reflexivity|].
  simpl in H. apply andb_prop in H as [Hc Ha]. apply negb_true_iff in Hc.
  cbn [app includes]. rewrite ViewTagFacts.literal_headLt by exact Hc.
  now apply IH.
Qed.

(** No closed THINK block stands in a text whose only closing tags would be
    in [rest], which has none. *)
Lemma no_closed_think pre rest :
  tagFree pre = true ->
  includes false (js "</THINK>") rest = false ->
  includes false (js "</THINK>") (pre ++ js "<THINK>" ++ rest) = false.
Proof.
  intros Hpre H.
  change (js "</THINK>") with (60%N :: js "/THINK>") in *.
  rewrite includes_free by exact Hpre.
  change (js "<THINK>" ++ rest)
    with (60%N :: js "THINK>" ++ rest).
  cbn [includes].
  replace (literal false (60%N :: js "/THINK>") (60%N :: js "THINK>" ++ rest))
    with (@None jsstring) by reflexivity.
  now rewrite (includes_free (js "/THINK>") (js "THINK>") rest eq_refl).
Qed.

End StreamFacts.

(** While a THINK block is still streaming (its closing tag has not come),
    everything from the opening tag on is kept out of the text that is
    shown, and is the thinking block: what is shown is the text before the
    tag, trimmed. *)
Theorem unclosed_think_hides_rest (pre rest : jsstring) :
  tagFree pre = true ->
  includes false (js "</THINK>") rest = false ->
  let p := parseMessageContent (pre ++ js "<THINK>" ++ rest) in
  thinking p = Some (trim rest) /\ clean p = trim pre.
Proof.
  intros Hpre Hrest. cbv zeta.
  pose proof (StreamFacts.no_closed_think pre rest Hpre Hrest) as Hn.
  unfold parseMessageContent.
  change (js "<THINK>" ++ rest) with (60%N :: js "THINK>" ++ rest) in *.
  rewrite truthy_marked. cbn [negb thinking clean].
  split.
  - unfold openCapture.
    change (js "<THINK>") with (60%N :: js "THINK>").
    rewrite (ViewTagFacts.firstMatch_free _
               (ViewTagFacts.capture_lt (js "THINK>") (js "</THINK>")))
      by exact Hpre.
    rewrite (PatternFacts.firstMatch_here _ _ (untilClose (js "</THINK>") rest)).
    + now rewrite (StreamFacts.untilClose_none _ _ Hrest).
    + change (60%N :: js "THINK>" ++ rest)
        with ((60%N :: js "THINK>") ++ rest).
      now rewrite PatternFacts.literal_app.
  - rewrite (StreamFacts.removeAll_keep
               (closedBlock (js "<THINK>") (js "</THINK>"))).
    2:{ intros s1 s2 E. unfold closedBlock.
        destruct (literal false (js "<THINK>") s2) as [r|] eqn:L;
          [|reflexivity].
        apply StreamFacts.afterClose_none.
        destruct (PatternFacts.literal_suffix _ _ _ _ L) as (f & E2 & _).
        rewrite E, E2, app_assoc in Hn.
        now apply PatternFacts.includes_back in Hn. }
    change (js "<THINK>") with (60%N :: js "THINK>").
    rewrite (ViewTagFacts.removeAll_free _
               (ViewTagFacts.openBlock_lt (js "THINK>"))) by exact Hpre.
    rewrite <- (app_nil_r (js "THINK>" ++ rest)).
    rewrite ViewTagFacts.removeAll_hit
      by (rewrite app_nil_r;
          change (60%N :: js "THINK>" ++ rest)
            with ((60%N :: js "THINK>") ++ rest);
          unfold openBlock; now rewrite PatternFacts.literal_app).
    rewrite ViewTagFacts.removeAll_nil, app_nil_r.
    change (js "<CANVAS>") with (60%N :: js "CANVAS>").
    change (js "<MEMORY>") with (60%N :: js "MEMORY>").
    change (js "<IMAGE>") with (60%N :: js "IMAGE>").
    change (js "<SEARCH>") with (60%N :: js "SEARCH>").
    change (js "<PROJECT>") with (60%N :: js "PROJECT>").
    change (js "<STUDY>") with (60%N :: js "STUDY>").
    change (js "<DEEP>") with (60%N :: js "DEEP>").
    repeat first
      [ rewrite (ViewTagFacts.removeAll_tagFree _ _
                   (ViewTagFacts.closedBlock_lt _ _) Hpre)
      | rewrite (ViewTagFacts.removeAll_tagFree _ _
                   (ViewTagFacts.openBlock_lt _) Hpre) ].
    reflexivity.
Qed.

Lemma unclosed_think_hides_rest_witness :
  let p := parseMessageContent (js "Let me see. <THINK>First, the") in
  thinking p = Some (js "First, the") /\ clean p = js "Let me see.".
Proof.
  exact (unclosed_think_hides_rest (js "Let me see. ") (js "First, the")
           eq_refl eq_refl).
Defined.

(* ================================================================== *)
(** * The agent and the message view together *)
(* ================================================================== *)

Module BrokenFacts.







End BrokenFacts.



